(** * docker2aci: a shallow embedding of [docker2aci.go]

    The conversion pipeline of docker2aci fetches the layers of a Docker image
    from a v1 registry, turns every layer into an App Container Image and hands
    it to a content-addressable store.  This file embeds the functions of
    [docker2aci.go] as Rocq functions and proves the properties the
    specification states about them.

    Conventions of the embedding:
    - a Go [string] and a Go [[]byte] are a [string] (a sequence of bytes);
    - a Go [error] is its message; a function returning [(T, error)] returns a
      [res T], which also records a run-time panic;
    - an [http.Header] is a finite map from (canonical) header names to the
      list of values received for that name;
    - everything the program reaches through the network, the file system,
      the store and the libraries it imports is collected in an environment
      [Env] of oracles, and what it changes is the [World]. *)

From Stdlib Require Import ZArith Ascii String List Lia DecimalString.
From stdpp Require Import base gmap strings list.


Local Open Scope Z_scope.

(** ** Results of Go calls *)

Module Go.

Definition error := string.

Inductive res (A : Type) : Type :=
| Ok (a : A)
| Err (e : error)
| Panic (msg : string).
Arguments Ok {A} a.
Arguments Err {A} e.
Arguments Panic {A} msg.

Definition bind {A B} (r : res A) (k : A -> res B) : res B :=
  match r with
  | Ok a => k a
  | Err e => Err e
  | Panic m => Panic m
  end.

Definition is_ok {A} (r : res A) : bool :=
  match r with Ok _ => true | _ => false end.

End Go.
Export Go.

(** ** The functions of package [strings] the program calls *)

Module Strings.

(** [strings.Split(s, sep)] for a separator of one byte. *)
Fixpoint Split (s : string) (sep : ascii) : list string :=
  match s with
  | EmptyString => [EmptyString]
  | String a r =>
      if Ascii.eqb a sep then EmptyString :: Split r sep
      else match Split r sep with
           | x :: xs => String a x :: xs
           | [] => [String a EmptyString]
           end
  end.

(** [strings.SplitN(s, sep, 2)]: cut at the first separator only. *)
Fixpoint SplitN2 (s : string) (sep : ascii) : list string :=
  match s with
  | EmptyString => [EmptyString]
  | String a r =>
      if Ascii.eqb a sep then [EmptyString; r]
      else match SplitN2 r sep with
           | x :: xs => String a x :: xs
           | [] => [String a EmptyString]
           end
  end.

(** [strings.Index(s, sep) != -1] for a separator of one byte. *)
Fixpoint Contains (s : string) (c : ascii) : bool :=
  match s with
  | EmptyString => false
  | String a r => Ascii.eqb a c || Contains r c
  end.

(** [strings.Join(a, sep)]. *)
Fixpoint Join (a : list string) (sep : string) : string :=
  match a with
  | [] => EmptyString
  | [x] => x
  | x :: xs => x +:+ sep +:+ Join xs sep
  end.

End Strings.

(** ** Data of [docker2aci.go] *)

Record DockerURL := {
  IndexURL : string;
  ImageName : string;
  Tag : string
}.

Definition defaultIndex : string := "index.docker.io".
Definition defaultTag : string := "latest".
Definition rocketDir : string := "/var/lib/rkt".
Definition schemaVersion : string := "0.1.1".

(** ** [parseArgument] *)

(** [appParts[0 : len(appParts)-1]] *)
Definition init_parts (l : list string) : list string :=
  take (length l - 1)%nat l.

Definition parseArgument (arg : string) : DockerURL :=
  let argParts := Strings.SplitN2 arg "/" in
  let '(indexURL, appString) :=
    match argParts with
    | p0 :: p1 :: _ =>
        if Strings.Contains p0 "."
        then (p0, p1)
        else (defaultIndex, Strings.Join argParts "/")
    | p0 :: _ => (defaultIndex, p0)
    | [] => (defaultIndex, EmptyString)
    end in
  let appParts := Strings.Split appString ":" in
  let '(imageName, tag) :=
    if (1 <? length appParts)%nat
    then (Strings.Join (init_parts appParts) ":",
          List.last appParts EmptyString)
    else (appString, defaultTag) in
  {| IndexURL := indexURL; ImageName := imageName; Tag := tag |}.

(** ** More of package [strings]: [TrimSpace] *)

Module Trim.

Definition rune (bytes : list nat) : string :=
  string_of_list_ascii (List.map ascii_of_nat bytes).

(** The UTF-8 encodings of the code points for which [unicode.IsSpace]
    holds: tab, LF, VT, FF, CR, space, U+0085, U+00A0, U+1680, U+2000 to
    U+200A, U+2028, U+2029, U+202F, U+205F and U+3000. *)
Definition space_runes : list string :=
  List.map rune
    [ [9]; [10]; [11]; [12]; [13]; [32]; [194; 133]; [194; 160];
      [225; 154; 128];
      [226; 128; 128]; [226; 128; 129]; [226; 128; 130]; [226; 128; 131];
      [226; 128; 132]; [226; 128; 133]; [226; 128; 134]; [226; 128; 135];
      [226; 128; 136]; [226; 128; 137]; [226; 128; 138];
      [226; 128; 168]; [226; 128; 169]; [226; 128; 175];
      [226; 129; 159]; [227; 128; 128] ]%nat.

Fixpoint strip_prefix (p s : string) : option string :=
  match p, s with
  | EmptyString, _ => Some s
  | String a p', String b s' =>
      if Ascii.eqb a b then strip_prefix p' s' else None
  | String _ _, EmptyString => None
  end.

Fixpoint strip_any (ps : list string) (s : string) : option string :=
  match ps with
  | [] => None
  | p :: ps' =>
      match strip_prefix p s with
      | Some r => Some r
      | None => strip_any ps' s
      end
  end.

Fixpoint trim_runes (ps : list string) (fuel : nat) (s : string) : string :=
  match fuel with
  | O => s
  | S f =>
      match strip_any ps s with
      | Some r => trim_runes ps f r
      | None => s
      end
  end.

Definition TrimLeft (s : string) : string :=
  trim_runes space_runes (String.length s) s.

Definition TrimRight (s : string) : string :=
  String.rev
    (trim_runes (List.map String.rev space_runes) (String.length s)
       (String.rev s)).

(** [strings.TrimSpace(s)] *)
Definition TrimSpace (s : string) : string := TrimRight (TrimLeft s).

End Trim.

(** [fmt.Sprintf("%d", n)] *)
Definition itoa (n : Z) : string :=
  DecimalString.NilZero.string_of_int (Z.to_int n).

(** ** [net/http]: headers, requests, responses *)

Abbreviation Header := (gmap string (list string)).

(** [h.Get(key)]: the first value stored under the key, or the empty
    string.  Every key the program uses is already in canonical form. *)
Definition Header_Get (h : Header) (key : string) : string :=
  match h !! key with
  | Some (v :: _) => v
  | _ => EmptyString
  end.

(** [h.Set(key, value)] replaces whatever was stored under the key. *)
Definition Header_Set (h : Header) (key value : string) : Header :=
  <[key := [value]]> h.

(** [h[key]]: all the values (a nil slice when the key is missing). *)
Definition Header_Values (h : Header) (key : string) : list string :=
  default [] (h !! key).

Record Request := {
  Method : string;
  URL : string;
  ReqHeader : Header
}.

(** The body of a response as [ioutil.ReadAll] delivers it: the bytes read
    and the read error, if any. *)
Record Body := {
  body_data : string;
  body_err : option error
}.

Record Response := {
  StatusCode : Z;
  RespHeader : Header;
  RespBody : Body
}.

(** One round trip of [client.Do]: the request and what came back (a
    response, or a transport error). *)
Definition Exchange : Type := Request * res Response.

(** ** [setAuthToken] *)

Definition setAuthToken (req : Request) (token : list string) : Request :=
  if String.eqb (Header_Get (ReqHeader req) "Authorization") EmptyString
  then {| Method := Method req;
          URL := URL req;
          ReqHeader := Header_Set (ReqHeader req) "Authorization"
                         ("Token " +:+ Strings.Join token ",") |}
  else req.

(** ** [makeEndpointsList] *)

Definition makeEndpointsList (headers : list string) : list string :=
  List.fold_left
    (fun endpoints ep =>
       List.fold_left
         (fun endpoints endpointEl =>
            endpoints ++ ["https://" +:+ Trim.TrimSpace endpointEl +:+ "/v1/"])
         (Strings.Split ep ",") endpoints)
    headers [].

Record RepoData := {
  Tokens : list string;
  Endpoints : list string
}.

(** [runconfig.Config] of Docker, with the fields a layer's JSON carries for
    the container's process. *)
Record Config := {
  Hostname : string;
  ConfigUser : string;
  ConfigEnv : list string;
  Cmd : list string;
  Entrypoint : list string;
  WorkingDir : string
}.

Record DockerImageData := {
  ID : string;
  Parent : string;
  Comment : string;
  Created : string;
  Container : string;
  DockerVersion : string;
  Author : string;
  DockerConfig : option Config;
  Architecture : string;
  OS : string;
  Checksum : string
}.

(** ** The image manifest of [appc/spec/schema] *)

Definition ACName := string.
Definition SemVer := string.

Record Hash := {
  hash_typ : string;
  hash_Val : string
}.

Record Label := {
  LabelName : ACName;
  LabelValue : string
}.

Record App := {
  Exec : list string;
  User : string;
  Group : string
}.

Record Dependency := {
  DepApp : ACName;
  DepImageID : Hash
}.

Record ImageManifest := {
  ACKind : string;
  ACVersion : SemVer;
  Name : ACName;
  Labels : list Label;
  ManifestApp : option App;
  Dependencies : list Dependency
}.

(** ** [archive/tar] and [os]: headers and file information *)

Inductive Typeflag :=
| TypeReg | TypeLink | TypeSymlink | TypeChar | TypeBlock | TypeDir | TypeFifo.

#[global] Instance Typeflag_eq_dec : EqDecision Typeflag.
Proof. solve_decision. Defined.

Record TarHeader := {
  hdr_Name : string;
  hdr_Typeflag : Typeflag;
  hdr_Linkname : string;
  hdr_Size : Z;
  hdr_Mode : Z
}.

(** [os.FileInfo] of a path: base name, size, the [os.FileMode] bit set and
    the inode number of its [syscall.Stat_t]. *)
Record FileInfo := {
  fi_Name : string;
  fi_Size : Z;
  fi_Mode : Z;
  fi_Ino : N
}.

Module FileMode.
Definition ModeDir : Z := Z.shiftl 1 31.
Definition ModeSymlink : Z := Z.shiftl 1 27.
Definition ModeDevice : Z := Z.shiftl 1 26.
Definition ModeNamedPipe : Z := Z.shiftl 1 25.
Definition ModeSocket : Z := Z.shiftl 1 24.
Definition ModeCharDevice : Z := Z.shiftl 1 21.
(** [os.ModeType], the mask of the type bits, as the Go releases of the
    time of the program define it. *)
Definition ModeType : Z :=
  Z.lor ModeDir (Z.lor ModeSymlink
    (Z.lor ModeNamedPipe (Z.lor ModeSocket ModeDevice))).
Definition ModePerm : Z := 511.
Definition IsRegular (m : Z) : bool := Z.land m ModeType =? 0.
Definition has (m bit : Z) : bool := negb (Z.land m bit =? 0).
End FileMode.

(** One archive member as the archive writer receives it: path, header and
    the content read from the reader ([None] for a nil reader). *)
Record Entry := {
  e_path : string;
  e_hdr : TarHeader;
  e_content : option string
}.

(** An ACI: the manifest and the members of the root file system. *)
Record ACI := {
  aci_manifest : ImageManifest;
  aci_entries : list Entry
}.

(** ** The file system *)

Inductive FileData :=
| Raw (bytes : string)
| ManifestDoc (m : ImageManifest)   (* the JSON document encoding [m] *)
| ArchiveFile (a : ACI).            (* the tar stream of an image *)

Inductive Node :=
| NDir
| NFile (d : FileData).

Abbreviation FS := (gmap string Node).

(** What [filepath.Walk] hands to the walk function for one path, with what
    [os.Readlink] and [os.Open] answer for that path. *)
Record Visit := {
  v_path : string;
  v_info : FileInfo;
  v_err : option error;
  v_readlink : res string;
  v_open : res string
}.

(** ** The environment: network, libraries, operating system, store *)

Record Env := {
  (** [http.NewRequest] rejects a URL it cannot parse *)
  url_err : string -> option error;
  (** [client.Do], given the exchanges made so far *)
  RoundTrip : list Exchange -> Request -> res Response;
  (** [strconv.Atoi] *)
  Atoi : string -> res Z;
  (** [json.Unmarshal] into a string, a list of strings, a layer *)
  json_string : string -> res string;
  json_strings : string -> res (list string);
  json_layer : string -> res DockerImageData;
  (** [json.Marshal] of a manifest, and the validation of
      [ImageManifest.UnmarshalJSON] *)
  marshal_err : ImageManifest -> option error;
  unmarshal_err : FileData -> error;
  manifest_err : ImageManifest -> option error;
  (** [types.NewACName], [types.NewSemVer], [types.NewHash] *)
  acname_err : string -> option error;
  semver_err : string -> option error;
  NewHash : string -> res Hash;
  (** the failure, if any, of a file-system call on a path *)
  fs_err : string -> string -> option error;
  (** [os.TempDir()], and the random suffix [ioutil.TempDir] settles on *)
  os_TempDir : string;
  TempDir_pick : FS -> res string;
  (** [archive.Untar]: what the blob unpacks to, and its error *)
  Untar : Body -> list (string * Node) * option error;
  (** [aci.ValidateLayout] and [filepath.Walk] *)
  ValidateLayout : FS -> string -> option error;
  Walk : FS -> string -> list Visit;
  (** [AddFile] of the archive writer fails on some members *)
  addfile_err : Entry -> option error;
  (** [cas.Store.WriteACI]: the key of an image, given the store; what an
      ingestion that fails leaves in the store; and the files of the store,
      which it keeps below its root directory, after an ingestion *)
  WriteACI_key : list (string * ACI) -> ACI -> res string;
  WriteACI_left : list (string * ACI) -> FileData -> list (string * ACI);
  WriteACI_files : FS -> FileData -> FS
}.

(** ** The world the program changes *)

Record World := {
  fs : FS;
  store : list (string * ACI);
  http_log : list Exchange
}.

(** Go functions with effects: state passing over [World]. *)
Definition M (A : Type) : Type := World -> res A * World.

Definition ret {A} (a : A) : M A := fun w => (Ok a, w).
Definition fail {A} (e : error) : M A := fun w => (Err e, w).
Definition panic {A} (msg : string) : M A := fun w => (Panic msg, w).
Definition lift {A} (r : res A) : M A := fun w => (r, w).

Definition mbind' {A B} (m : M A) (k : A -> M B) : M B :=
  fun w =>
    match m w with
    | (Ok a, w') => k a w'
    | (Err e, w') => (Err e, w')
    | (Panic p, w') => (Panic p, w')
    end.

Notation "x <- m ;; k" := (mbind' m (fun x => k))
  (at level 100, m at next level, right associativity).
(** [if err != nil { return ..., fmt.Errorf(...) }]: rewrite the error. *)
Definition wrap {A} (f : error -> error) (m : M A) : M A :=
  fun w =>
    match m w with
    | (Err e, w') => (Err (f e), w')
    | r => r
    end.

(** [x, _ := f(); ... *x]: the error is dropped and the nil pointer is
    dereferenced. *)
Definition deref {A} (r : res A) : res A :=
  match r with
  | Err _ => Panic "invalid memory address or nil pointer dereference"
  | r => r
  end.

Definition check (o : option error) : res unit :=
  match o with
  | Some e => Err e
  | None => Ok tt
  end.

Definition add_exchange (x : Exchange) (w : World) : World :=
  {| fs := fs w; store := store w; http_log := http_log w ++ [x] |}.

Definition set_fs (f : FS) (w : World) : World :=
  {| fs := f; store := store w; http_log := http_log w |}.

Definition add_store (k : string) (a : ACI) (w : World) : World :=
  {| fs := fs w; store := store w ++ [(k, a)]; http_log := http_log w |}.

(** ** The registry client *)

Section Registry.
Variable E : Env.

(** [http.NewRequest(method, url, nil)] *)
Definition NewRequest (method url : string) : res Request :=
  match url_err E url with
  | Some e => Err e
  | None => Ok {| Method := method; URL := url; ReqHeader := ∅ |}
  end.

(** [client.Do(req)] *)
Definition Do (req : Request) : M Response :=
  fun w =>
    let r := RoundTrip E (http_log w) req in
    (r, add_exchange (req, r) w).

(** The message of [fmt.Errorf("HTTP code: %d<sep> URL: %s", code, url)]. *)
Definition http_error (sep : string) (code : Z) (url : string) : error :=
  "HTTP code: " +:+ itoa code +:+ sep +:+ " URL: " +:+ url.

Definition GetRepoData (indexURL remote : string) : M RepoData :=
  let repositoryURL :=
    "https:/" +:+ "/" +:+ indexURL +:+ "/v1/" +:+ "repositories" +:+ "/"
      +:+ remote +:+ "/images" in
  req <- lift (NewRequest "GET" repositoryURL);;
  let req := {| Method := Method req; URL := URL req;
                ReqHeader := Header_Set (ReqHeader req)
                               "X-Docker-Token" "true" |} in
  res <- Do req;;
  if negb (StatusCode res =? 200)
  then fail (http_error "," (StatusCode res) (URL req))
  else
    let tokens :=
      if negb (String.eqb (Header_Get (RespHeader res) "X-Docker-Token") "")
      then Header_Values (RespHeader res) "X-Docker-Token"
      else [] in
    let endpoints :=
      if negb (String.eqb
                 (Header_Get (RespHeader res) "X-Docker-Endpoints") "")
      then makeEndpointsList
             (Header_Values (RespHeader res) "X-Docker-Endpoints")
      else [] ++ [indexURL] in
    ret {| Tokens := tokens; Endpoints := endpoints |}.

(** [ioutil.ReadAll(res.Body)] *)
Definition ReadAll (b : Body) : string * option error :=
  (body_data b, body_err b).

Definition GetRemoteImageJSON (imgID registry : string) (token : list string)
  : M (string * Z) :=
  req <- lift (NewRequest "GET" (registry +:+ "images/" +:+ imgID +:+ "/json"));;
  let req := setAuthToken req token in
  res <- Do req;;
  if negb (StatusCode res =? 200)
  then fail (http_error "," (StatusCode res) (URL req))
  else
    let imageSize := -1 in
    imageSize <-
      (let hdr := Header_Get (RespHeader res) "X-Docker-Size" in
       if negb (String.eqb hdr "")
       then lift (Atoi E hdr)
       else ret imageSize);;
    match ReadAll (RespBody res) with
    | (jsonString, Some err) =>
        fail ("Failed to read downloaded json: " +:+ err
                +:+ " (" +:+ jsonString +:+ ")")
    | (jsonString, None) => ret (jsonString, imageSize)
    end.

(** The download notice printed on standard output is not modelled. *)
Definition GetRemoteLayer (imgID registry : string) (token : list string)
    (imgSize : Z) : M Body :=
  req <- lift (NewRequest "GET" (registry +:+ "images/" +:+ imgID +:+ "/layer"));;
  let req := setAuthToken req token in
  res <- Do req;;
  if negb (StatusCode res =? 200)
  then fail (http_error "." (StatusCode res) (URL req))
  else ret (RespBody res).

Definition GetImageIDFromTag (registry appName tag : string)
    (token : list string) : M string :=
  match NewRequest "GET"
          (registry +:+ "repositories/" +:+ appName +:+ "/tags/" +:+ tag) with
  | Err _ =>
      (* [req] is nil here and [req.URL] is evaluated for the message *)
      panic "invalid memory address or nil pointer dereference"
  | Panic p => panic p
  | Ok req =>
      let req := setAuthToken req token in
      res <- wrap (fun err => "Failed to get Image ID: " +:+ err
                                +:+ ", URL: " +:+ URL req) (Do req);;
      if negb (StatusCode res =? 200)
      then fail (http_error "." (StatusCode res) (URL req))
      else
        match ReadAll (RespBody res) with
        | (_, Some err) => fail err
        | (jsonString, None) =>
            wrap (fun err => "Error unmarshaling: " +:+ err)
              (lift (json_string E jsonString))
        end
  end.

Definition GetAncestry (imgID registry : string) (token : list string)
  : M (list string) :=
  req <- lift (NewRequest "GET"
                 (registry +:+ "images/" +:+ imgID +:+ "/ancestry"));;
  let req := setAuthToken req token in
  res <- Do req;;
  if negb (StatusCode res =? 200)
  then fail (http_error "." (StatusCode res) (URL req))
  else
    match ReadAll (RespBody res) with
    | (jsonString, Some err) =>
        fail ("Failed to read downloaded json: " +:+ err
                +:+ " (" +:+ jsonString +:+ ")")
    | (jsonString, None) =>
        wrap (fun err => "Error unmarshaling: " +:+ err)
          (lift (json_strings E jsonString))
    end.

End Registry.

(** ** [GenerateManifest] *)

Section Manifest.
Variable E : Env.

Definition NewACName (s : string) : res ACName :=
  match acname_err E s with
  | Some e => Err e
  | None => Ok s
  end.

Definition NewSemVer (s : string) : res SemVer :=
  match semver_err E s with
  | Some e => Err e
  | None => Ok s
  end.

Definition GenerateManifest (layerData : DockerImageData)
    (dockerURL : DockerURL) (parentImageID : string) : res ImageManifest :=
  let dockerConfig := DockerConfig layerData in
  let appURL := IndexURL dockerURL +:+ "/" +:+ ImageName dockerURL in
  bind (NewACName appURL) (fun name =>
  bind (deref (NewSemVer schemaVersion)) (fun acVersion =>
  bind (deref (NewACName "layer")) (fun layer =>
  let labels := [] ++ [{| LabelName := layer; LabelValue := ID layerData |}] in
  let tag := Tag dockerURL in
  bind (deref (NewACName "version")) (fun version =>
  let labels := labels ++ [{| LabelName := version; LabelValue := tag |}] in
  let app :=
    match dockerConfig with
    | Some dockerConfig =>
        if (0 <? length (Cmd dockerConfig))%nat
        then Some {| Exec := Cmd dockerConfig; User := "0"; Group := "0" |}
        else None
    | None => None
    end in
  bind (if negb (String.eqb parentImageID "")
        then bind (NewHash E parentImageID) (fun hash =>
               Ok ([] ++ [{| DepApp := name; DepImageID := hash |}]))
        else Ok []) (fun dependencies =>
  Ok {| ACKind := "ImageManifest";
        ACVersion := acVersion;
        Name := name;
        Labels := labels;
        ManifestApp := app;
        Dependencies := dependencies |}))))).

End Manifest.

(** ** [buildWalker] *)

(** [aci.ManifestFile] *)
Definition ManifestFile : string := "manifest".

(** [filepath.Rel(root, path)] on the paths [filepath.Walk(root, ...)]
    produces from a clean root: the root itself and paths below it. *)
Definition Rel (root path : string) : res string :=
  if String.eqb path root then Ok "."
  else match Trim.strip_prefix (root +:+ "/") path with
       | Some r => Ok r
       | None => Err ("Rel: can't make " +:+ path +:+ " relative to " +:+ root)
       end.

(** [tar.FileInfoHeader(fi, link)], as package [archive/tar] documents it:
    the type of the header follows the mode of the file, a regular file
    carries its size and a symbolic link the [link] given. *)
Definition FileInfoHeader (fi : FileInfo) (link : string) : res TarHeader :=
  let fm := fi_Mode fi in
  let h ty name lnk size :=
    Ok {| hdr_Name := name; hdr_Typeflag := ty; hdr_Linkname := lnk;
          hdr_Size := size; hdr_Mode := Z.land fm FileMode.ModePerm |} in
  if FileMode.IsRegular fm then h TypeReg (fi_Name fi) "" (fi_Size fi)
  else if FileMode.has fm FileMode.ModeDir
       then h TypeDir (fi_Name fi +:+ "/") "" 0
  else if FileMode.has fm FileMode.ModeSymlink
       then h TypeSymlink (fi_Name fi) link 0
  else if FileMode.has fm FileMode.ModeDevice
       then if FileMode.has fm FileMode.ModeCharDevice
            then h TypeChar (fi_Name fi) "" 0
            else h TypeBlock (fi_Name fi) "" 0
  else if FileMode.has fm FileMode.ModeNamedPipe
       then h TypeFifo (fi_Name fi) "" 0
  else if FileMode.has fm FileMode.ModeSocket
       then Err "archive/tar: sockets not supported"
  else Err "archive/tar: unknown file mode".

Definition set_Name (h : TarHeader) (name : string) : TarHeader :=
  {| hdr_Name := name; hdr_Typeflag := hdr_Typeflag h;
     hdr_Linkname := hdr_Linkname h; hdr_Size := hdr_Size h;
     hdr_Mode := hdr_Mode h |}.

Definition set_Link (h : TarHeader) (target : string) : TarHeader :=
  {| hdr_Name := hdr_Name h; hdr_Typeflag := TypeLink;
     hdr_Linkname := target; hdr_Size := hdr_Size h;
     hdr_Mode := hdr_Mode h |}.

Definition set_Size (h : TarHeader) (size : Z) : TarHeader :=
  {| hdr_Name := hdr_Name h; hdr_Typeflag := hdr_Typeflag h;
     hdr_Linkname := hdr_Linkname h; hdr_Size := size;
     hdr_Mode := hdr_Mode h |}.

(** Modelled from the spec: [tarheader.Populate] of package
    [github.com/appc/spec/pkg/tarheader] is not part of the sources.  The
    specification describes its effect on hard links: a file whose inode was
    already observed earlier in the traversal becomes a link entry referencing
    the path under which that inode was first seen; the key is the inode
    number.  The other header fields are left as they are. *)
Definition Populate (h : TarHeader) (fi : FileInfo) (seen : gmap N string)
  : TarHeader * gmap N string :=
  match seen !! fi_Ino fi with
  | Some p => (set_Link h p, seen)
  | None => (h, <[fi_Ino fi := hdr_Name h]> seen)
  end.

(** The closure [buildWalker] returns owns the inode cache [inos]; the
    archive writer it is given collects the members. *)
Record WalkState := {
  inos : gmap N string;
  written : list Entry
}.

Section Walker.
Variable E : Env.

(** [aw.AddFile(path, hdr, r)] *)
Definition AddFile (aw : list Entry) (path : string) (hdr : TarHeader)
    (r : option string) : res (list Entry) :=
  let e := {| e_path := path; e_hdr := hdr; e_content := r |} in
  bind (check (addfile_err E e)) (fun _ => Ok (aw ++ [e])).

(** The [switch info.Mode() & os.ModeType] of the walk function: the link
    target and the reader it leaves in [link] and [r]. *)
Definition switch_mode (v : Visit) : res (string * option string) :=
  let link := "" in
  let r := None in
  let ty := Z.land (fi_Mode (v_info v)) FileMode.ModeType in
  if ty =? FileMode.ModeCharDevice then Ok (link, r)
  else if ty =? FileMode.ModeDevice then Ok (link, r)
  else if ty =? FileMode.ModeDir then Ok (link, r)
  else if ty =? FileMode.ModeSymlink
       then bind (v_readlink v) (fun target => Ok (target, r))
  else bind (v_open v) (fun file => Ok (link, Some file)).

Definition buildWalker (root : string) (st : WalkState) (v : Visit)
  : res WalkState :=
  let path := v_path v in
  let info := v_info v in
  bind (check (v_err v)) (fun _ =>
  bind (Rel root path) (fun relpath =>
  if String.eqb relpath "." then Ok st
  else if String.eqb relpath ManifestFile then Ok st
  else
    bind (switch_mode v) (fun '(link, r) =>
    bind (match FileInfoHeader info link with
          | Err err => Panic err
          | h => h
          end) (fun hdr =>
    let hdr := set_Name hdr relpath in
    let '(hdr, inos') := Populate hdr info (inos st) in
    let '(hdr, r) :=
      if decide (hdr_Typeflag hdr = TypeLink)
      then (set_Size hdr 0, None)
      else (hdr, r) in
    bind (AddFile (written st) relpath hdr r) (fun aw =>
    Ok {| inos := inos'; written := aw |}))))).

(** [filepath.Walk] calls the walk function on every visit in turn and
    stops at the first error. *)
Fixpoint walk (root : string) (st : WalkState) (visits : list Visit)
  : res WalkState :=
  match visits with
  | [] => Ok st
  | v :: vs => bind (buildWalker root st v) (fun st' => walk root st' vs)
  end.

End Walker.

(** ** File-system calls *)

(** [filepath.Clean(path)] on Unix.  The elements of the path are taken one
    by one, the elements kept so far being held last first: an empty element
    and [.] are dropped, [..] removes the element before it, is dropped when
    there is none in a rooted path, and is kept otherwise. *)
Definition clean_step (rooted : bool) (kept : list string) (c : string)
  : list string :=
  if String.eqb c "" then kept
  else if String.eqb c "." then kept
  else if String.eqb c ".."
       then match kept with
            | top :: rest => if String.eqb top ".." then c :: kept else rest
            | [] => if rooted then [] else [c]
            end
  else c :: kept.

Definition Clean (path : string) : string :=
  let rooted := match path with
                | String c _ => Ascii.eqb c "/"
                | EmptyString => false
                end in
  let kept := List.fold_left (clean_step rooted) (Strings.Split path "/") [] in
  let body := Strings.Join (rev kept) "/" in
  if rooted then "/" +:+ body
  else if String.eqb body "" then "." else body.

(** [filepath.Join(dir, name)]: the elements from the first that is not
    empty on are joined with a separator and the result is cleaned. *)
Definition Join2 (dir name : string) : string :=
  if String.eqb dir ""
  then (if String.eqb name "" then "" else Clean name)
  else Clean (dir +:+ "/" +:+ name).

(** The place [p] names is [dir] or lies below it: the two paths are compared
    once cleaned, so that [dir/../x] is not below [dir]. *)
Definition under (dir p : string) : bool :=
  let d := Clean dir in
  let q := Clean p in
  String.eqb q d
  || bool_decide (is_Some (Trim.strip_prefix
                             (if String.eqb d "/" then d else d +:+ "/") q)).

(** The directories [os.MkdirAll(path)] needs: every prefix of [path] that
    ends before a separator, then [path]. *)
Fixpoint dir_chain (done rest : string) : list string :=
  match rest with
  | EmptyString => [done]
  | String c rest' =>
      let next := done +:+ String c EmptyString in
      if Ascii.eqb c "/"
      then (if String.eqb done "" then [] else [done]) ++ dir_chain next rest'
      else dir_chain next rest'
  end.

Definition mkdir_one (acc : res FS) (p : string) : res FS :=
  bind acc (fun f =>
    match f !! p with
    | None => Ok (<[p := NDir]> f)
    | Some NDir => Ok f
    | Some (NFile _) => Err ("mkdir " +:+ p +:+ ": not a directory")
    end).

Definition add_node (dest : string) (f : FS) (x : string * Node) : FS :=
  <[Join2 dest (fst x) := snd x]> f.

Section Os.
Variable E : Env.

(** [ioutil.TempDir(dir, prefix)] makes a directory that did not exist,
    named by the prefix and a suffix of its choice, in [dir] or, when [dir]
    is empty, in [os.TempDir()]. *)
Definition TempDir (dir pfx : string) : M string :=
  fun w =>
    let dir := if String.eqb dir "" then os_TempDir E else dir in
    match TempDir_pick E (fs w) with
    | Ok suffix =>
        let name := Join2 dir (pfx +:+ suffix) in
        match fs w !! name with
        | None => (Ok name, set_fs (<[name := NDir]> (fs w)) w)
        | Some _ => (Err ("mkdir " +:+ name +:+ ": file exists"), w)
        end
    | Err e => (Err e, w)
    | Panic p => (Panic p, w)
    end.

(** [os.RemoveAll(path)] removes the path and everything below it that it
    can: what the system refuses to remove stays.  It returns the first
    error it met, which the program drops. *)
Definition RemoveAll (path : string) (w : World) : World :=
  set_fs (filter (fun kv => under path (fst kv) = false
                            \/ is_Some (fs_err E "RemoveAll" (fst kv)))
            (fs w)) w.

(** [os.MkdirAll(path, perm)] *)
Definition MkdirAll (path : string) : M unit :=
  fun w =>
    match fs_err E "MkdirAll" path with
    | Some e => (Err e, w)
    | None =>
        match List.fold_left mkdir_one (dir_chain "" path) (Ok (fs w)) with
        | Ok f => (Ok tt, set_fs f w)
        | Err e => (Err e, w)
        | Panic p => (Panic p, w)
        end
    end.

(** [archive.Untar(layer, dest, options)]: what was unpacked stays, also
    when the extraction fails half way. *)
Definition os_Untar (layer : Body) (dest : string) : M unit :=
  fun w =>
    let '(files, err) := Untar E layer in
    (check err, set_fs (List.fold_left (add_node dest) files (fs w)) w).

(** [os.Create(path)] and [os.OpenFile(path, O_CREATE|O_WRONLY|O_TRUNC)] *)
Definition Create (op path : string) : M string :=
  fun w =>
    match fs_err E op path with
    | Some e => (Err e, w)
    | None => (Ok path, set_fs (<[path := NFile (Raw "")]> (fs w)) w)
    end.

(** [f.Write(b); f.Sync()], whose errors the program drops. *)
Definition Write (f : string) (b : FileData) : M unit :=
  fun w =>
    match fs_err E "Write" f with
    | Some _ => (Ok tt, w)
    | None => (Ok tt, set_fs (<[f := NFile b]> (fs w)) w)
    end.

(** [ioutil.ReadFile(path)] and [os.Open(path)] followed by reading. *)
Definition ReadFile (op path : string) : M FileData :=
  fun w =>
    match fs_err E op path with
    | Some e => (Err e, w)
    | None =>
        match fs w !! path with
        | Some (NFile d) => (Ok d, w)
        | Some NDir => (Err ("read " +:+ path +:+ ": is a directory"), w)
        | None => (Err ("open " +:+ path +:+ ": no such file or directory"), w)
        end
    end.

(** [json.Marshal(manifest)] *)
Definition Marshal (m : ImageManifest) : res FileData :=
  bind (check (marshal_err E m)) (fun _ => Ok (ManifestDoc m)).

(** [im.UnmarshalJSON(b)] *)
Definition UnmarshalJSON (b : FileData) : res ImageManifest :=
  match b with
  | ManifestDoc m => bind (check (manifest_err E m)) (fun _ => Ok m)
  | _ => Err (unmarshal_err E b)
  end.

(** [iw.Close()] completes the archive in the target file. *)
Definition iw_Close (target : string) (im : ImageManifest)
    (entries : list Entry) : M unit :=
  fun w =>
    match fs_err E "Close" target with
    | Some e => (Err e, w)
    | None =>
        (Ok tt,
         set_fs (<[target := NFile (ArchiveFile
                     {| aci_manifest := im; aci_entries := entries |})]> (fs w))
           w)
    end.

(** The file system after the store has worked on [aciFile]: the store
    keeps its files below its root [rocketDir], the rest is as it was. *)
Definition store_files (aciFile : FileData) (f : FS) : FS :=
  filter (fun kv => under rocketDir (fst kv) = true)
    (WriteACI_files E f aciFile)
  ∪ filter (fun kv => under rocketDir (fst kv) = false) f.

(** [dataStore.WriteACI(reader)].  An ingestion that fails is not undone:
    the store keeps what it had written by then. *)
Definition WriteACI (aciFile : FileData) : M string :=
  fun w =>
    let failed (w : World) : World :=
      {| fs := store_files aciFile (fs w);
         store := store w ++ WriteACI_left E (store w) aciFile;
         http_log := http_log w |} in
    match aciFile with
    | ArchiveFile a =>
        match WriteACI_key E (store w) a with
        | Ok key =>
            (Ok key, set_fs (store_files aciFile (fs w)) (add_store key a w))
        | Err e => (Err e, failed w)
        | Panic p => (Panic p, failed w)
        end
    | _ => (Err "archive/tar: invalid tar header", failed w)
    end.

(** [defer f()]: [f] runs when the function body is left, whatever the
    body returned. *)
Definition defer {A} (f : World -> World) (body : M A) : M A :=
  fun w => let '(r, w') := body w in (r, f w').

(** [s[0]] *)
Definition index0 (s : list string) : M string :=
  match s with
  | x :: _ => ret x
  | [] => panic "index out of range"
  end.

(** ** [BuildACI] *)

Definition BuildACI (imageID outDir targetDir : string) : M string :=
  let targetACI := Join2 outDir (imageID +:+ ".aci") in
  fh <- wrap (fun err => "Unable to open target " +:+ targetACI +:+ ": " +:+ err)
          (Create "OpenFile" targetACI);;
  _ <- wrap (fun err => "Layout failed validation: " +:+ err)
         (fun w => (check (ValidateLayout E (fs w) targetDir), w));;
  let mpath := Join2 targetDir ManifestFile in
  b <- wrap (fun err => "Unable to read Image Manifest: " +:+ err)
         (ReadFile "ReadFile" mpath);;
  im <- wrap (fun err => "Unable to load Image Manifest: " +:+ err)
          (lift (UnmarshalJSON b));;
  iw <- wrap (fun err => "Error walking rootfs: " +:+ err)
          (fun w => (walk E targetDir {| inos := ∅; written := [] |}
                       (Walk E (fs w) targetDir), w));;
  _ <- wrap (fun err => "Unable to close image " +:+ targetACI +:+ ": " +:+ err)
         (iw_Close fh im (written iw));;
  ret targetACI.

(** ** [ImportLayer] *)

(** The store [dataStore] is the [store] of the world. *)
Definition ImportLayer (layerID : string) (repoData : RepoData)
    (dockerURL : DockerURL) (parentImageID : string) : M string :=
  tmpDir <- wrap (fun err => "Error creating dir: " +:+ err)
              (TempDir "" "docker2aci-");;
  defer (RemoveAll tmpDir) (
    let layerDest := tmpDir +:+ "/layer" in
    let layerRootfs := layerDest +:+ "/rootfs" in
    _ <- wrap (fun _ => "Error creating dir: " +:+ layerRootfs)
           (MkdirAll layerRootfs);;
    endpoint <- index0 (Endpoints repoData);;
    js <- wrap (fun err => "Error getting image json: " +:+ err)
            (GetRemoteImageJSON E layerID endpoint (Tokens repoData));;
    let jsonString := fst js in
    let size := snd js in
    layerData <- wrap (fun err => "Error unmarshaling layer data: " +:+ err)
                   (lift (json_layer E jsonString));;
    endpoint <- index0 (Endpoints repoData);;
    layer <- wrap (fun err => "Error getting the remote layer: " +:+ err)
               (GetRemoteLayer E layerID endpoint (Tokens repoData) size);;
    _ <- wrap (fun err => "Error untaring image: " +:+ err)
           (os_Untar layer layerRootfs);;
    manifest <- wrap (fun err => "Error generating the manifest: " +:+ err)
                  (lift (GenerateManifest E layerData dockerURL parentImageID));;
    manifestBytes <- lift (Marshal manifest);;
    f <- wrap (fun _ => "Error creating manifest file")
           (Create "Create" (Join2 layerDest ManifestFile));;
    _ <- Write f manifestBytes;;
    aciPath <- wrap (fun err => "Error building ACI: " +:+ err)
                 (BuildACI layerID tmpDir layerDest);;
    aciFile <- wrap (fun _ => "Error opening target aci file")
                 (ReadFile "Open" aciPath);;
    parentImageID <- wrap (fun err => "Error writing ACI: " +:+ err)
                       (WriteACI aciFile);;
    ret parentImageID).

(** ** [runDocker2ACI] *)

(** The loop [for i := len(ancestry) - 1; i >= 0; i--], entered with
    [n = i + 1]; its state is [rocketAppImageID] and [parentImageID]. *)
Fixpoint import_loop (repoData : RepoData) (dockerURL : DockerURL)
    (appImageID : string) (ancestry : list string) (n : nat)
    (rocketAppImageID parentImageID : string) : M string :=
  match n with
  | O => ret rocketAppImageID
  | S i =>
      match ancestry !! i with
      | None => panic "index out of range"
      | Some layerID =>
          rocketLayerID <-
            ImportLayer layerID repoData dockerURL parentImageID;;
          let rocketAppImageID :=
            if String.eqb layerID appImageID
            then rocketLayerID else rocketAppImageID in
          import_loop repoData dockerURL appImageID ancestry i
            rocketAppImageID rocketLayerID
      end
  end.

(** The result is the identifier the program prints; the messages on
    standard error are not modelled. *)
Definition runDocker2ACI (arg : string) : M string :=
  let dockerURL := parseArgument arg in
  repoData <- GetRepoData E (IndexURL dockerURL) (ImageName dockerURL);;
  endpoint <- index0 (Endpoints repoData);;
  appImageID <- GetImageIDFromTag E endpoint (ImageName dockerURL)
                  (Tag dockerURL) (Tokens repoData);;
  endpoint <- index0 (Endpoints repoData);;
  ancestry <- GetAncestry E appImageID endpoint (Tokens repoData);;
  import_loop repoData dockerURL appImageID ancestry (length ancestry) "" "".

End Os.

(** ** Reading the models *)


(** The request [GetRepoData] sends. *)
Definition repo_request (indexURL remote : string) : Request :=
  {| Method := "GET";
     URL := "https:/" +:+ "/" +:+ indexURL +:+ "/v1/" +:+ "repositories"
              +:+ "/" +:+ remote +:+ "/images";
     ReqHeader := Header_Set ∅ "X-Docker-Token" "true" |}.

(** The request the other registry operations send to [url]. *)
Definition auth_request (url : string) (token : list string) : Request :=
  setAuthToken {| Method := "GET"; URL := url; ReqHeader := ∅ |} token.

(** The endpoint a header element stands for. *)
Definition endpoint_of (el : string) : string :=
  "https://" +:+ Trim.TrimSpace el +:+ "/v1/".

(** The layer data with another entrypoint in its configuration. *)
Definition set_Entrypoint (ep : list string) (d : DockerImageData)
  : DockerImageData :=
  {| ID := ID d; Parent := Parent d; Comment := Comment d;
     Created := Created d; Container := Container d;
     DockerVersion := DockerVersion d; Author := Author d;
     DockerConfig :=
       match DockerConfig d with
       | Some c =>
           Some {| Hostname := Hostname c; ConfigUser := ConfigUser c;
                   ConfigEnv := ConfigEnv c; Cmd := Cmd c; Entrypoint := ep;
                   WorkingDir := WorkingDir c |}
       | None => None
       end;
     Architecture := Architecture d; OS := OS d; Checksum := Checksum d |}.

(** ** Reading the log of exchanges *)



(** A computation that makes no exchange. *)
Definition quiet {A} (m : M A) : Prop :=
  forall w : World, http_log (snd (m w)) = http_log w.




(** ** Reading a chain of imports *)

(** The manifest [m] depends on the image [parent] the way
    [GenerateManifest] writes it: not at all for an empty identifier, else
    on its own name with the hash of the identifier. *)
Definition depends_on (E : Env) (parent : string) (m : ImageManifest) : Prop :=
  if String.eqb parent ""
  then Dependencies m = []
  else exists h : Hash,
         NewHash E parent = Ok h
         /\ Dependencies m = [ {| DepApp := Name m; DepImageID := h |} ].

(** [imported E rd url parent w layers new w']: starting in the world [w]
    with the parent identifier [parent], the layers [layers] are imported one
    after the other, each import succeeds and adds to the store its image
    under the identifier it returns, the manifest of which depends on the
    identifier of the import before; [new] lists what was added and [w'] is
    the world at the end. *)
Inductive imported (E : Env) (rd : RepoData) (url : DockerURL)
  : string -> World -> list string -> list (string * ACI) -> World -> Prop :=
| imported_nil (parent : string) (w : World) :
    imported E rd url parent w [] [] w
| imported_cons (parent : string) (w : World) (layerID : string)
    (layers : list string) (id : string) (a : ACI) (w1 : World)
    (new : list (string * ACI)) (w' : World) :
    ImportLayer E layerID rd url parent w = (Ok id, w1) ->
    store w1 = store w ++ [(id, a)] ->
    depends_on E parent (aci_manifest a) ->
    imported E rd url id w1 layers new w' ->
    imported E rd url parent w (layerID :: layers) ((id, a) :: new) w'.

(** A computation that leaves the file system and the store alone. *)
Definition network_only {A} (m : M A) : Prop :=
  forall w, fs (snd (m w)) = fs w /\ store (snd (m w)) = store w.

(** ** Reading a walk *)

(** The walk function archives the path: it is neither the root nor the
    manifest file. *)
Definition archived (relpath : string) : bool :=
  negb (String.eqb relpath ".") && negb (String.eqb relpath ManifestFile).

(** The type bits of a mode that [os.Lstat] delivers name one kind of file. *)
Definition wf_mode (m : Z) : Prop :=
  In (Z.land m FileMode.ModeType)
    [0; FileMode.ModeDir; FileMode.ModeSymlink; FileMode.ModeNamedPipe;
     FileMode.ModeSocket; FileMode.ModeDevice].

(** The member written for a regular file met for the first time, and the
    member written for a file whose inode was met before at [first]. *)
Definition file_member (relpath : string) (fi : FileInfo) (content : string)
  : Entry :=
  {| e_path := relpath;
     e_hdr := {| hdr_Name := relpath; hdr_Typeflag := TypeReg;
                 hdr_Linkname := ""; hdr_Size := fi_Size fi;
                 hdr_Mode := Z.land (fi_Mode fi) FileMode.ModePerm |};
     e_content := Some content |}.

Definition link_member (relpath : string) (fi : FileInfo) (first : string)
  : Entry :=
  {| e_path := relpath;
     e_hdr := {| hdr_Name := relpath; hdr_Typeflag := TypeLink;
                 hdr_Linkname := first; hdr_Size := 0;
                 hdr_Mode := Z.land (fi_Mode fi) FileMode.ModePerm |};
     e_content := None |}.

(** The member [e] was written for the visit [v] of the walk from [root];
    when it is a symbolic link it has no content and its link name is what
    [os.Readlink] returned. *)
Definition written_for (root : string) (v : Visit) (e : Entry) : Prop :=
  Rel root (v_path v) = Ok (e_path e)
  /\ archived (e_path e) = true
  /\ (wf_mode (fi_Mode (v_info v)) ->
      hdr_Typeflag (e_hdr e) = TypeSymlink ->
      e_content e = None /\ v_readlink v = Ok (hdr_Linkname (e_hdr e))).


(** ** Changing one oracle of an environment *)

Definition with_RoundTrip (rt : list Exchange -> Request -> res Response)
    (E : Env) : Env :=
  {| url_err := url_err E; RoundTrip := rt; Atoi := Atoi E;
     json_string := json_string E; json_strings := json_strings E;
     json_layer := json_layer E; marshal_err := marshal_err E;
     unmarshal_err := unmarshal_err E; manifest_err := manifest_err E;
     acname_err := acname_err E; semver_err := semver_err E;
     NewHash := NewHash E; fs_err := fs_err E;
     os_TempDir := os_TempDir E;
     TempDir_pick := TempDir_pick E; Untar := Untar E;
     ValidateLayout := ValidateLayout E; Walk := Walk E;
     addfile_err := addfile_err E; WriteACI_key := WriteACI_key E;
     WriteACI_left := WriteACI_left E; WriteACI_files := WriteACI_files E |}.

Definition with_WriteACI_key (k : list (string * ACI) -> ACI -> res string)
    (E : Env) : Env :=
  {| url_err := url_err E; RoundTrip := RoundTrip E; Atoi := Atoi E;
     json_string := json_string E; json_strings := json_strings E;
     json_layer := json_layer E; marshal_err := marshal_err E;
     unmarshal_err := unmarshal_err E; manifest_err := manifest_err E;
     acname_err := acname_err E; semver_err := semver_err E;
     NewHash := NewHash E; fs_err := fs_err E;
     os_TempDir := os_TempDir E;
     TempDir_pick := TempDir_pick E; Untar := Untar E;
     ValidateLayout := ValidateLayout E; Walk := Walk E;
     addfile_err := addfile_err E; WriteACI_key := k;
     WriteACI_left := WriteACI_left E; WriteACI_files := WriteACI_files E |}.

Definition with_fs_err (fe : string -> string -> option error) (E : Env)
  : Env :=
  {| url_err := url_err E; RoundTrip := RoundTrip E; Atoi := Atoi E;
     json_string := json_string E; json_strings := json_strings E;
     json_layer := json_layer E; marshal_err := marshal_err E;
     unmarshal_err := unmarshal_err E; manifest_err := manifest_err E;
     acname_err := acname_err E; semver_err := semver_err E;
     NewHash := NewHash E; fs_err := fe;
     os_TempDir := os_TempDir E;
     TempDir_pick := TempDir_pick E; Untar := Untar E;
     ValidateLayout := ValidateLayout E; Walk := Walk E;
     addfile_err := addfile_err E; WriteACI_key := WriteACI_key E;
     WriteACI_left := WriteACI_left E; WriteACI_files := WriteACI_files E |}.

(** ** A sample registry, file system and store

    The image [busybox:latest] with two layers, [l2] on top of [l1]. *)

Module Sample.

Definition resp (code : Z) (h : Header) (body : string) : Response :=
  {| StatusCode := code; RespHeader := h;
     RespBody := {| body_data := body; body_err := None |} |}.

Definition repo_header : Header :=
  <["X-Docker-Token" := ["tok"]]>
    {["X-Docker-Endpoints" := ["registry-1.docker.io, mirror.docker.io"]]}.

Definition reg : string := "https://registry-1.docker.io/v1/".

Definition round_trip (log : list Exchange) (req : Request) : res Response :=
  let u := URL req in
  if String.eqb u "https://index.docker.io/v1/repositories/busybox/images"
  then Ok (resp 200 repo_header "[]")
  else if String.eqb u (reg +:+ "repositories/busybox/tags/latest")
  then Ok (resp 200 ∅ "tag")
  else if String.eqb u (reg +:+ "images/l2/ancestry")
  then Ok (resp 200 ∅ "ancestry")
  else if String.eqb u (reg +:+ "images/l1/json")
  then Ok (resp 200 ∅ "json1")
  else if String.eqb u (reg +:+ "images/l2/json")
  then Ok (resp 200 ∅ "json2")
  else if String.eqb u (reg +:+ "images/l1/layer")
  then Ok (resp 200 ∅ "blob1")
  else if String.eqb u (reg +:+ "images/l2/layer")
  then Ok (resp 200 ∅ "blob2")
  else Ok (resp 404 ∅ "not found").

Definition sh : Config :=
  {| Hostname := ""; ConfigUser := ""; ConfigEnv := ["PATH=/bin"];
     Cmd := ["/bin/sh"]; Entrypoint := []; WorkingDir := "" |}.

Definition layer (id parent : string) (c : option Config) : DockerImageData :=
  {| ID := id; Parent := parent; Comment := ""; Created := "2014-12-01";
     Container := ""; DockerVersion := "1.3.2"; Author := "";
     DockerConfig := c; Architecture := "amd64"; OS := "linux";
     Checksum := "" |}.

Definition layer_of_json (s : string) : res DockerImageData :=
  if String.eqb s "json1" then Ok (layer "l1" "" None)
  else if String.eqb s "json2" then Ok (layer "l2" "l1" (Some sh))
  else Err "unexpected end of JSON input".

Definition new_hash (s : string) : res Hash :=
  match Strings.Split s "-" with
  | [t; v] => Ok {| hash_typ := t; hash_Val := v |}
  | _ => Err "badly formatted hash string"
  end.

Definition untar (b : Body) : list (string * Node) * option error :=
  if String.eqb (body_data b) "blob1"
  then ([("bin", NDir); ("bin/sh", NFile (Raw "#!sh"))], None)
  else ([("etc", NDir)], None).

Definition dir_mode : Z := Z.lor FileMode.ModeDir 493.
Definition link_mode : Z := Z.lor FileMode.ModeSymlink 511.

Definition visit (path name : string) (size mode : Z) (ino : N)
    (target content : res string) : Visit :=
  {| v_path := path;
     v_info := {| fi_Name := name; fi_Size := size; fi_Mode := mode;
                  fi_Ino := ino |};
     v_err := None; v_readlink := target; v_open := content |}.

Definition not_link : res string := Err "readlink: invalid argument".
Definition not_file : res string := Err "open: is a directory".

(** A tree with a file [bin/sh], a hard link [bin/ash] to it and a
    symbolic link [bin/bash] to ["sh"]. *)
Definition tree (root : string) : list Visit :=
  [ visit root "layer" 0 dir_mode 10 not_link not_file;
    visit (root +:+ "/manifest") "manifest" 120 420 11 not_link (Ok "{}");
    visit (root +:+ "/rootfs") "rootfs" 0 dir_mode 12 not_link not_file;
    visit (root +:+ "/rootfs/bin") "bin" 0 dir_mode 13 not_link not_file;
    visit (root +:+ "/rootfs/bin/ash") "ash" 4 493 14 not_link (Ok "#!sh");
    visit (root +:+ "/rootfs/bin/bash") "bash" 2 link_mode 15 (Ok "sh")
      not_file;
    visit (root +:+ "/rootfs/bin/sh") "sh" 4 493 14 not_link (Ok "#!sh") ].

Definition key_of (a : ACI) : string :=
  match Labels (aci_manifest a) with
  | l :: _ => "sha512-" +:+ LabelValue l
  | [] => "sha512-"
  end.

Definition env : Env :=
  {| url_err := fun _ => None;
     RoundTrip := round_trip;
     Atoi := fun _ => Err "strconv.ParseInt: invalid syntax";
     json_string := fun s =>
       if String.eqb s "tag" then Ok "l2" else Err "invalid character";
     json_strings := fun s =>
       if String.eqb s "ancestry" then Ok ["l2"; "l1"]
       else Err "invalid character";
     json_layer := layer_of_json;
     marshal_err := fun _ => None;
     unmarshal_err := fun _ => "unexpected end of JSON input";
     manifest_err := fun _ => None;
     acname_err := fun _ => None;
     semver_err := fun _ => None;
     NewHash := new_hash;
     fs_err := fun _ _ => None;
     os_TempDir := "/tmp";
     TempDir_pick := fun f => Ok (itoa (Z.of_nat (size f)));
     Untar := untar;
     ValidateLayout := fun _ _ => None;
     Walk := fun _ root => tree root;
     addfile_err := fun _ => None;
     WriteACI_key := fun _ a => Ok (key_of a);
     WriteACI_left := fun _ _ => [];
     WriteACI_files := fun f d =>
       <[rocketDir +:+ "/cas/blob/" +:+ itoa (Z.of_nat (size f)) := NFile d]> f
  |}.

(** The same registry without the JSON of the base layer [l1]. *)
Definition round_trip_l1_missing (log : list Exchange) (req : Request)
  : res Response :=
  if String.eqb (URL req) (reg +:+ "images/l1/json")
  then Ok (resp 404 ∅ "not found")
  else round_trip log req.

(** The same registry without the JSON of the top layer [l2]. *)
Definition round_trip_l2_missing (log : list Exchange) (req : Request)
  : res Response :=
  if String.eqb (URL req) (reg +:+ "images/l2/json")
  then Ok (resp 404 ∅ "not found")
  else round_trip log req.

(** What [GetRepoData] returns for the sample registry. *)
Definition repo : RepoData :=
  {| Tokens := ["tok"];
     Endpoints := ["https://registry-1.docker.io/v1/";
                   "https://mirror.docker.io/v1/"] |}.

(** The URL and the status of every exchange of a log. *)
Definition statuses (log : list Exchange) : list (string * Z) :=
  List.map (fun x => (URL (fst x),
                      match snd x with Ok r => StatusCode r | _ => 0 end)) log.

Definition world : World :=
  {| fs := {["/tmp" := NDir]}; store := []; http_log := [] |}.

End Sample.

(** ** Proof automation *)


Ltac prim_quiet f :=
  intros w; unfold f; repeat (case_match; simplify_eq/=; try reflexivity).


Ltac net_tac :=
  intros ?; unfold mbind', wrap, lift, ret, fail, panic, ReadAll, Do; simpl;
  repeat (case_match; simplify_eq/=; try done).


(** ** Reading the layer data *)

(** The command list of a layer: that of its configuration, if any. *)
Definition layer_command (d : DockerImageData) : list string :=
  match DockerConfig d with
  | Some c => Cmd c
  | None => []
  end.


(** ** Reading what a computation changes *)

(** Every run of [m] takes the component [f] of the world to one related
    to it by [R]. *)
Definition steps {X A} (R : X -> X -> Prop) (f : World -> X) (m : M A)
  : Prop :=
  forall w : World, R (f w) (f (snd (m w))).

(** The result [r] of a layer import is a failure of the ingestion: the
    error of the store behind the prefix of that stage, or a panic. *)
Definition ingest_failed (r : res string) : Prop :=
  match r with
  | Ok _ => False
  | Err e => exists cause : error, e = "Error writing ACI: " +:+ cause
  | Panic _ => True
  end.

(** What [m] did to the store, from [s] to [s'], when it returned [r]: an
    identifier comes with one image, added last under that identifier; a
    failure leaves the store as it was, unless it is a failure of the
    ingestion, which adds what the store kept of the file it was given. *)
Definition store_step (E : Env) (r : res string)
    (s s' : list (string * ACI)) : Prop :=
  match r with
  | Ok id => exists a : ACI, s' = s ++ [(id, a)]
  | _ => s' = s
         \/ (ingest_failed r
             /\ exists f : FileData, s' = s ++ WriteACI_left E s f)
  end.

Definition store_grows (E : Env) (m : M string) : Prop :=
  forall w : World, store_step E (fst (m w)) (store w) (store (snd (m w))).


(** ** Reading the result of the loop *)

(** The value of [rocketAppImageID] after the layers [layers] were imported
    under the identifiers [ids], from the value [acc]: the identifier of the
    last layer that is the requested image. *)
Fixpoint picked (appImageID : string) (layers ids : list string)
    (acc : string) : string :=
  match layers, ids with
  | l :: ls, id :: ids' =>
      picked appImageID ls ids' (if String.eqb l appImageID then id else acc)
  | _, _ => acc
  end.


(** ** Reading the requests of a run *)

(** The two requests [ImportLayer] sends for a layer. *)
Definition layer_requests (endpoint : string) (tokens : list string)
    (layerID : string) : list Request :=
  [ auth_request (endpoint +:+ "images/" +:+ layerID +:+ "/json") tokens;
    auth_request (endpoint +:+ "images/" +:+ layerID +:+ "/layer") tokens ].


(** The number of occurrences of the byte [c] in [s]. *)
Fixpoint count_byte (c : ascii) (s : string) : nat :=
  match s with
  | EmptyString => O
  | String a r => (if Ascii.eqb a c then 1 else 0) + count_byte c r
  end.


(** ** Reading the members of a walk *)

(** The relative paths of the visits the walk function archives, in the
    order of the visits. *)
Definition archived_paths (root : string) (visits : list Visit)
  : list string :=
  omap (fun v => match Rel root (v_path v) with
                 | Ok rp => if archived rp then Some rp else None
                 | _ => None
                 end) visits.

(** The visit falls to the [default] case of the [switch], where the file is
    opened. *)
Definition opened (v : Visit) : bool :=
  let ty := Z.land (fi_Mode (v_info v)) FileMode.ModeType in
  negb ((ty =? FileMode.ModeCharDevice) || (ty =? FileMode.ModeDevice)
        || (ty =? FileMode.ModeDir) || (ty =? FileMode.ModeSymlink)).

(** The member [e] is what the walk from [root] writes for the visit [v]:
    it goes by the relative path of [v], which is neither the root nor the
    manifest file; a link header has the size 0 and no content; and content
    is what [os.Open] returned for a visit of the [default] case. *)
Definition member_of (root : string) (v : Visit) (e : Entry) : Prop :=
  Rel root (v_path v) = Ok (e_path e)
  /\ e_path e <> "." /\ e_path e <> ManifestFile
  /\ (hdr_Typeflag (e_hdr e) = TypeLink ->
      hdr_Size (e_hdr e) = 0 /\ e_content e = None)
  /\ (forall c, e_content e = Some c ->
        opened v = true /\ v_open v = Ok c
        /\ hdr_Typeflag (e_hdr e) <> TypeLink).

(** A primitive leaves a component of the world as it is. *)
Ltac keeps f := intros w; unfold f;
  repeat (case_match; simplify_eq/=; try reflexivity).


(** ** The walk function, whatever [tarheader.Populate] does *)

(** [buildWalker] with the call of [tarheader.Populate] left open: [populate]
    may change the header and the inode cache at will. *)
Definition buildWalker_with (E : Env)
    (populate : TarHeader -> FileInfo -> gmap N string
                -> TarHeader * gmap N string)
    (root : string) (st : WalkState) (v : Visit) : res WalkState :=
  let path := v_path v in
  let info := v_info v in
  bind (check (v_err v)) (fun _ =>
  bind (Rel root path) (fun relpath =>
  if String.eqb relpath "." then Ok st
  else if String.eqb relpath ManifestFile then Ok st
  else
    bind (switch_mode v) (fun '(link, r) =>
    bind (match FileInfoHeader info link with
          | Err err => Panic err
          | h => h
          end) (fun hdr =>
    let hdr := set_Name hdr relpath in
    let '(hdr, inos') := populate hdr info (inos st) in
    let '(hdr, r) :=
      if decide (hdr_Typeflag hdr = TypeLink)
      then (set_Size hdr 0, None)
      else (hdr, r) in
    bind (AddFile E (written st) relpath hdr r) (fun aw =>
    Ok {| inos := inos'; written := aw |}))))).

Fixpoint walk_with (E : Env)
    (populate : TarHeader -> FileInfo -> gmap N string
                -> TarHeader * gmap N string)
    (root : string) (st : WalkState) (visits : list Visit) : res WalkState :=
  match visits with
  | [] => Ok st
  | v :: vs =>
      bind (buildWalker_with E populate root st v)
        (fun st' => walk_with E populate root st' vs)
  end.


(** ** Reading the errors *)







(** * Properties *)

(** ** Headers *)

Lemma Header_Get_Set (h : Header) (k v : string) :
  Header_Get (Header_Set h k v) k = v.
Proof. unfold Header_Get, Header_Set. by rewrite lookup_insert_eq. Qed.

Lemma Header_Get_absent (h : Header) (k : string) :
  h !! k = None -> Header_Get h k = "".
Proof. unfold Header_Get. by intros ->. Qed.

Lemma eqb_empty_false (s : string) : s <> "" -> String.eqb s "" = false.
Proof. intros H. by apply String.eqb_neq. Qed.

Lemma setAuthToken_unset (req : Request) (token : list string) :
  Header_Get (ReqHeader req) "Authorization" = "" ->
  setAuthToken req token
  = {| Method := Method req; URL := URL req;
       ReqHeader := Header_Set (ReqHeader req) "Authorization"
                      ("Token " +:+ Strings.Join token ",") |}.
Proof. intros H. unfold setAuthToken. by rewrite H. Qed.

Lemma setAuthToken_set (req : Request) (token : list string) :
  Header_Get (ReqHeader req) "Authorization" <> "" ->
  setAuthToken req token = req.
Proof.
  intros H. unfold setAuthToken. by rewrite (eqb_empty_false _ H).
Qed.

Lemma setAuthToken_Get_nonempty (req : Request) (token : list string) :
  Header_Get (ReqHeader (setAuthToken req token)) "Authorization" <> "".
Proof.
  destruct (decide (Header_Get (ReqHeader req) "Authorization" = "")) as [H|H].
  - rewrite (setAuthToken_unset _ _ H). simpl. rewrite Header_Get_Set.
    discriminate.
  - by rewrite (setAuthToken_set _ _ H).
Qed.

(** C8, as the code has it.  When [Header.Get] finds no value or an empty one
    under [Authorization], the helper stores ["Token "] followed by the
    comma-joined tokens; when it finds a non-empty value the request is left
    as it is.  Hence a second application (with any tokens) changes nothing,
    and a non-empty value provided by the caller survives. *)
Theorem setAuthToken_sets_once (req : Request) (token : list string) :
  (Header_Get (ReqHeader req) "Authorization" = "" ->
     Method (setAuthToken req token) = Method req
     /\ URL (setAuthToken req token) = URL req
     /\ ReqHeader (setAuthToken req token)
        = <["Authorization" := ["Token " +:+ Strings.Join token ","]]>
            (ReqHeader req))
  /\ (Header_Get (ReqHeader req) "Authorization" <> "" ->
        setAuthToken req token = req)
  /\ (forall token' : list string,
        setAuthToken (setAuthToken req token) token' = setAuthToken req token)
  /\ (forall v : string,
        v <> "" -> Header_Get (ReqHeader req) "Authorization" = v ->
        Header_Get (ReqHeader (setAuthToken req token)) "Authorization" = v).
Proof.
  split; [|split; [|split]].
  - intros H. by rewrite (setAuthToken_unset _ _ H).
  - apply setAuthToken_set.
  - intros token'. apply setAuthToken_set, setAuthToken_Get_nonempty.
  - intros v Hv Hget. rewrite setAuthToken_set; [done | congruence].
Qed.

(** C8 as stated fails on a request whose [Authorization] header is there
    with an empty value: the header is already set, and the helper replaces
    it all the same. *)
Lemma setAuthToken_replaces_empty_value :
  let req := {| Method := "GET"; URL := "https://r/v1/images/i/json";
                ReqHeader := {["Authorization" := [""]]} |} in
  ReqHeader req !! "Authorization" = Some [""]
  /\ setAuthToken req ["tok"] <> req
  /\ ReqHeader (setAuthToken req ["tok"]) !! "Authorization"
     = Some ["Token tok"].
Proof.
  simpl. split; [by rewrite lookup_singleton_eq|].
  assert (Hset : ReqHeader (setAuthToken
            {| Method := "GET"; URL := "https://r/v1/images/i/json";
               ReqHeader := {["Authorization" := [""]]} |} ["tok"])
          !! "Authorization" = Some ["Token tok"]).
  { rewrite setAuthToken_unset.
    - simpl. unfold Header_Set. by rewrite lookup_insert_eq.
    - unfold Header_Get. simpl. by rewrite lookup_singleton_eq. }
  split; [|exact Hset].
  intros Heq. rewrite Heq in Hset. simpl in Hset.
  rewrite lookup_singleton_eq in Hset. discriminate.
Qed.
(** C5. [parseArgument] is a function of its argument alone, and on the three
    reference strings of the specification it gives: index ["quay.io"], name
    ["foo/bar"], tag ["v1"] for ["quay.io/foo/bar:v1"]; the default index, name
    ["foo/bar"] and the default tag for ["foo/bar"]; the default index, name
    ["busybox"] and the default tag for ["busybox"]. *)
Theorem parseArgument_reference_values :
  parseArgument "quay.io/foo/bar:v1"
    = {| IndexURL := "quay.io"; ImageName := "foo/bar"; Tag := "v1" |}
  /\ parseArgument "foo/bar"
    = {| IndexURL := defaultIndex; ImageName := "foo/bar"; Tag := defaultTag |}
  /\ parseArgument "busybox"
    = {| IndexURL := defaultIndex; ImageName := "busybox"; Tag := defaultTag |}
  /\ (forall a b : string, a = b -> parseArgument a = parseArgument b).
Proof.
  repeat split; try reflexivity.
  intros a b ->. reflexivity.
Qed.

(** ** Endpoints *)

Lemma Split_not_nil (s : string) (c : ascii) : Strings.Split s c <> [].
Proof.
  destruct s as [|a s]; simpl; [done|].
  destruct (Ascii.eqb a c); [done|]. by destruct (Strings.Split s c).
Qed.

Lemma endpoints_inner (els acc : list string) :
  List.fold_left
    (fun endpoints endpointEl =>
       endpoints ++ ["https://" +:+ Trim.TrimSpace endpointEl +:+ "/v1/"])
    els acc
  = acc ++ List.map endpoint_of els.
Proof.
  revert acc. induction els as [|el els IH]; intros acc; simpl.
  - by rewrite app_nil_r.
  - rewrite IH. by rewrite <- app_assoc.
Qed.

Lemma makeEndpointsList_map (headers : list string) :
  makeEndpointsList headers
  = List.map endpoint_of
      (List.flat_map (fun ep => Strings.Split ep ",") headers).
Proof.
  unfold makeEndpointsList.
  enough (G : forall acc,
    List.fold_left
      (fun endpoints ep =>
         List.fold_left
           (fun endpoints endpointEl =>
              endpoints ++ ["https://" +:+ Trim.TrimSpace endpointEl +:+ "/v1/"])
           (Strings.Split ep ",") endpoints) headers acc
    = acc ++ List.map endpoint_of
               (List.flat_map (fun ep => Strings.Split ep ",") headers))
    by apply (G []).
  induction headers as [|ep headers IH]; intros acc; simpl.
  - by rewrite app_nil_r.
  - rewrite IH, endpoints_inner, List.map_app. by rewrite <- app_assoc.
Qed.

Lemma makeEndpointsList_not_nil (ep : string) (headers : list string) :
  makeEndpointsList (ep :: headers) <> [].
Proof.
  rewrite makeEndpointsList_map. simpl.
  pose proof (Split_not_nil ep ",") as H.
  destruct (Strings.Split ep ","); [done|]. simpl. discriminate.
Qed.

(** The [RepoData] built from a response with status 200. *)
Lemma Header_Get_nonempty_Values (h : Header) (k : string) :
  Header_Get h k <> "" ->
  exists v vs, Header_Values h k = v :: vs /\ v = Header_Get h k.
Proof.
  unfold Header_Get, Header_Values. destruct (h !! k) as [[|v vs]|]; simpl;
    try done. intros _. by exists v, vs.
Qed.

Section RepoDataFacts.
Variable E : Env.

(** What [GetRepoData] does, step by step. *)
Lemma GetRepoData_run (indexURL remote : string) (w : World) :
  GetRepoData E indexURL remote w
  = let req := repo_request indexURL remote in
    match url_err E (URL req) with
    | Some e => (Err e, w)
    | None =>
        let r := RoundTrip E (http_log w) req in
        (match r with
         | Ok res =>
             if negb (StatusCode res =? 200)
             then Err (http_error "," (StatusCode res) (URL req))
             else Ok {| Tokens :=
                          if negb (String.eqb
                                (Header_Get (RespHeader res) "X-Docker-Token") "")
                          then Header_Values (RespHeader res) "X-Docker-Token"
                          else [];
                        Endpoints :=
                          if negb (String.eqb
                                (Header_Get (RespHeader res)
                                   "X-Docker-Endpoints") "")
                          then makeEndpointsList
                                 (Header_Values (RespHeader res)
                                    "X-Docker-Endpoints")
                          else [indexURL] |}
         | Err e => Err e
         | Panic p => Panic p
         end, add_exchange (req, r) w)
    end.
Proof.
  unfold GetRepoData, mbind', lift, NewRequest, Do, repo_request. simpl.
  destruct (url_err E _); [done|]. simpl.
  destruct (RoundTrip E _ _) as [res|e|p]; try done.
  by destruct (negb (StatusCode res =? 200)).
Qed.

Lemma GetRepoData_ok_inv (indexURL remote : string) (w w' : World)
    (rd : RepoData) :
  GetRepoData E indexURL remote w = (Ok rd, w') ->
  exists res,
    http_log w' = http_log w ++ [(repo_request indexURL remote, Ok res)]
    /\ StatusCode res = 200
    /\ Endpoints rd
       = if negb (String.eqb
                    (Header_Get (RespHeader res) "X-Docker-Endpoints") "")
         then makeEndpointsList
                (Header_Values (RespHeader res) "X-Docker-Endpoints")
         else [indexURL].
Proof.
  rewrite GetRepoData_run. cbv zeta.
  destruct (url_err E _); [discriminate|].
  destruct (RoundTrip E _ _) as [res|e|p]; try discriminate.
  destruct (StatusCode res =? 200) eqn:Hc; simpl; [|discriminate].
  intros [= <- <-]. exists res. split; [done|]. split; [lia|done].
Qed.

End RepoDataFacts.

(** C6, as the code has it.  After a successful [GetRepoData] the last
    exchange of the log is its request with a response of status 200.  When
    the first value of the [X-Docker-Endpoints] header of that response is
    not empty, the endpoints are ["https://"], the trimmed element and
    ["/v1/"] for each comma-separated element of each value of the header, in
    order; when the header is absent, or its first value is empty, the
    endpoints are the index host alone. *)
Theorem GetRepoData_endpoints (E : Env) (indexURL remote : string)
    (w w' : World) (rd : RepoData) :
  GetRepoData E indexURL remote w = (Ok rd, w') ->
  exists res : Response,
    http_log w' = http_log w ++ [(repo_request indexURL remote, Ok res)]
    /\ StatusCode res = 200
    /\ (Header_Get (RespHeader res) "X-Docker-Endpoints" <> "" ->
        Endpoints rd
        = List.map (fun el => "https://" +:+ Trim.TrimSpace el +:+ "/v1/")
            (List.flat_map (fun ep => Strings.Split ep ",")
               (Header_Values (RespHeader res) "X-Docker-Endpoints")))
    /\ (Header_Get (RespHeader res) "X-Docker-Endpoints" = "" ->
        Endpoints rd = [indexURL])
    /\ (RespHeader res !! "X-Docker-Endpoints" = None ->
        Endpoints rd = [indexURL]).
Proof.
  intros H. destruct (GetRepoData_ok_inv _ _ _ _ _ _ H) as (res & Hl & Hc & He).
  exists res. split; [done|]. split; [done|].
  split; [|split].
  - intros Hne. rewrite He, (eqb_empty_false _ Hne). simpl.
    apply makeEndpointsList_map.
  - intros Heq. by rewrite He, Heq.
  - intros Habs. by rewrite He, (Header_Get_absent _ _ Habs).
Qed.

Lemma GetRepoData_endpoints_witness :
  let run := GetRepoData Sample.env "index.docker.io" "busybox" Sample.world in
  let rd := {| Tokens := ["tok"];
               Endpoints := ["https://registry-1.docker.io/v1/";
                             "https://mirror.docker.io/v1/"] |} in
  run = (Ok rd, snd run)
  /\ exists res : Response,
       http_log (snd run)
       = http_log Sample.world
           ++ [(repo_request "index.docker.io" "busybox", Ok res)]
       /\ StatusCode res = 200
       /\ (Header_Get (RespHeader res) "X-Docker-Endpoints" <> "" ->
           Endpoints rd
           = List.map (fun el => "https://" +:+ Trim.TrimSpace el +:+ "/v1/")
               (List.flat_map (fun ep => Strings.Split ep ",")
                  (Header_Values (RespHeader res) "X-Docker-Endpoints")))
       /\ (Header_Get (RespHeader res) "X-Docker-Endpoints" = "" ->
           Endpoints rd = ["index.docker.io"])
       /\ (RespHeader res !! "X-Docker-Endpoints" = None ->
           Endpoints rd = ["index.docker.io"]).
Proof.
  intros run rd.
  assert (Hrun : run = (Ok rd, snd run)) by (vm_compute; reflexivity).
  split; [exact Hrun|].
  exact (GetRepoData_endpoints Sample.env "index.docker.io" "busybox"
           Sample.world (snd run) rd Hrun).
Defined.

(** C10. A [RepoData] that [GetRepoData] returns without error has at least
    one endpoint (the index host when the response has no endpoints header),
    so [repoData.Endpoints[0]], the access made before the tag resolution,
    the ancestry fetch and the two fetches of every layer, yields a value in
    every world and never panics. *)
Theorem GetRepoData_first_endpoint (E : Env) (indexURL remote : string)
    (w w' : World) (rd : RepoData) :
  GetRepoData E indexURL remote w = (Ok rd, w') ->
  Endpoints rd <> []
  /\ (exists endpoint : string,
        List.hd_error (Endpoints rd) = Some endpoint
        /\ forall w0 : World, index0 (Endpoints rd) w0 = (Ok endpoint, w0))
  /\ (forall res : Response,
        List.last (http_log w') (repo_request indexURL remote, Err "")
        = (repo_request indexURL remote, Ok res) ->
        RespHeader res !! "X-Docker-Endpoints" = None ->
        Endpoints rd = [indexURL]).
Proof.
  intros H. destruct (GetRepoData_ok_inv _ _ _ _ _ _ H) as (res & Hl & Hc & He).
  assert (Hne : Endpoints rd <> []).
  { rewrite He.
    destruct (decide (Header_Get (RespHeader res) "X-Docker-Endpoints" = ""))
      as [Heq|Hneq].
    - by rewrite Heq.
    - rewrite (eqb_empty_false _ Hneq). simpl.
      destruct (Header_Get_nonempty_Values _ _ Hneq) as (v & vs & -> & _).
      apply makeEndpointsList_not_nil. }
  split; [exact Hne|]. split.
  - destruct (Endpoints rd) as [|e es]; [done|].
    exists e. split; [done|]. intros w0. reflexivity.
  - intros res' Hlast Habs. rewrite Hl, List.last_last in Hlast.
    injection Hlast as <-. by rewrite He, (Header_Get_absent _ _ Habs).
Qed.

Lemma GetRepoData_first_endpoint_witness :
  let run := GetRepoData Sample.env "index.docker.io" "busybox" Sample.world in
  let rd := {| Tokens := ["tok"];
               Endpoints := ["https://registry-1.docker.io/v1/";
                             "https://mirror.docker.io/v1/"] |} in
  run = (Ok rd, snd run)
  /\ Endpoints rd <> []
  /\ (exists endpoint : string,
        List.hd_error (Endpoints rd) = Some endpoint
        /\ forall w0 : World, index0 (Endpoints rd) w0 = (Ok endpoint, w0))
  /\ (forall res : Response,
        List.last (http_log (snd run))
          (repo_request "index.docker.io" "busybox", Err "")
        = (repo_request "index.docker.io" "busybox", Ok res) ->
        RespHeader res !! "X-Docker-Endpoints" = None ->
        Endpoints rd = ["index.docker.io"]).
Proof.
  intros run rd.
  assert (Hrun : run = (Ok rd, snd run)) by (vm_compute; reflexivity).
  split; [exact Hrun|].
  exact (GetRepoData_first_endpoint Sample.env "index.docker.io" "busybox"
           Sample.world (snd run) rd Hrun).
Defined.

(** ** The image JSON *)

Section ImageJSON.
Variable E : Env.

Lemma GetRemoteImageJSON_run (imgID registry : string) (token : list string)
    (w : World) :
  GetRemoteImageJSON E imgID registry token w
  = let url := registry +:+ "images/" +:+ imgID +:+ "/json" in
    match url_err E url with
    | Some e => (Err e, w)
    | None =>
        let req := auth_request url token in
        let r := RoundTrip E (http_log w) req in
        (match r with
         | Ok res =>
             if negb (StatusCode res =? 200)
             then Err (http_error "," (StatusCode res) (URL req))
             else
               bind (if negb (String.eqb
                                (Header_Get (RespHeader res) "X-Docker-Size") "")
                     then Atoi E (Header_Get (RespHeader res) "X-Docker-Size")
                     else Ok (-1))
                 (fun imageSize =>
                    match body_err (RespBody res) with
                    | Some err =>
                        Err ("Failed to read downloaded json: " +:+ err
                               +:+ " (" +:+ body_data (RespBody res) +:+ ")")
                    | None => Ok (body_data (RespBody res), imageSize)
                    end)
         | Err e => Err e
         | Panic p => Panic p
         end, add_exchange (req, r) w)
    end.
Proof.
  unfold GetRemoteImageJSON, mbind', lift, NewRequest, Do, auth_request, ReadAll.
  cbv zeta. destruct (url_err E _); [done|].
  destruct (RoundTrip E _ _) as [res|e|p]; try done.
  destruct (negb (StatusCode res =? 200)); [done|].
  destruct (negb (String.eqb _ "")); unfold ret; simpl.
  - destruct (Atoi E _); simpl; try done.
    by destruct (body_err (RespBody res)).
  - by destruct (body_err (RespBody res)).
Qed.

End ImageJSON.

(** C9. When the registry answers the image-JSON request with status 200, a
    body that is read without error and no [X-Docker-Size] header,
    [GetRemoteImageJSON] returns the bytes of the body with the size [-1] and
    no error. *)
Theorem GetRemoteImageJSON_size_unknown (E : Env) (imgID registry : string)
    (token : list string) (w : World) (res : Response) :
  url_err E (registry +:+ "images/" +:+ imgID +:+ "/json") = None ->
  RoundTrip E (http_log w)
    (auth_request (registry +:+ "images/" +:+ imgID +:+ "/json") token)
  = Ok res ->
  StatusCode res = 200 ->
  body_err (RespBody res) = None ->
  RespHeader res !! "X-Docker-Size" = None ->
  fst (GetRemoteImageJSON E imgID registry token w)
  = Ok (body_data (RespBody res), -1).
Proof.
  intros Hu Hr Hc Hb Hs. rewrite GetRemoteImageJSON_run. cbv zeta.
  rewrite Hu, Hr. simpl. rewrite Hc. simpl.
  rewrite (Header_Get_absent _ _ Hs). simpl. by rewrite Hb.
Qed.

Lemma GetRemoteImageJSON_size_unknown_witness :
  fst (GetRemoteImageJSON Sample.env "l1" Sample.reg ["tok"] Sample.world)
  = Ok ("json1", -1).
Proof.
  apply (GetRemoteImageJSON_size_unknown Sample.env "l1" Sample.reg ["tok"]
           Sample.world (Sample.resp 200 ∅ "json1")); reflexivity.
Defined.

(** C6 as stated fails on a response that carries the endpoints header with
    an empty value: the header is present, its one element would give
    ["https:///v1/"], and the program falls back to the index host. *)
Lemma GetRepoData_empty_endpoints_header :
  let res := Sample.resp 200 {["X-Docker-Endpoints" := [""]]} "[]" in
  let E := with_RoundTrip (fun _ _ => Ok res) Sample.env in
  RespHeader res !! "X-Docker-Endpoints" = Some [""]
  /\ fst (GetRepoData E "index.docker.io" "busybox" Sample.world)
     = Ok {| Tokens := []; Endpoints := ["index.docker.io"] |}
  /\ List.map (fun el => "https://" +:+ Trim.TrimSpace el +:+ "/v1/")
       (List.flat_map (fun ep => Strings.Split ep ",")
          (Header_Values (RespHeader res) "X-Docker-Endpoints"))
     = ["https:///v1/"].
Proof.
  cbv zeta. split; [|split].
  - simpl. by rewrite lookup_singleton_eq.
  - vm_compute. reflexivity.
  - vm_compute. reflexivity.
Qed.

(** ** Errors of the registry *)

Lemma append_assoc (a b c : string) : (a +:+ b) +:+ c = a +:+ b +:+ c.
Proof.
  induction a as [|x a IH]; [reflexivity|].
  change (String x ((a +:+ b) +:+ c) = String x (a +:+ b +:+ c)).
  by rewrite IH.
Qed.

Lemma append_nil_r (a : string) : a +:+ "" = a.
Proof.
  induction a as [|x a IH]; [reflexivity|].
  change (String x (a +:+ "") = String x a). by rewrite IH.
Qed.





Section Reports.
Context {A B : Type}.





Lemma quiet_ret (a : A) : quiet (ret a).
Proof. done. Qed.

Lemma quiet_fail (e : error) : quiet (@fail A e).
Proof. done. Qed.


Lemma quiet_lift (r : res A) : quiet (lift r).
Proof. done. Qed.

Lemma quiet_bind (m : M A) (k : A -> M B) :
  quiet m -> (forall a, quiet (k a)) -> quiet (mbind' m k).
Proof.
  intros Hm Hk w. unfold mbind'. specialize (Hm w).
  destruct (m w) as [[a|e|p] w1]; simpl in *; try done.
  by rewrite Hk.
Qed.

Lemma quiet_wrap (f : error -> error) (m : M A) : quiet m -> quiet (wrap f m).
Proof.
  intros Hm w. unfold wrap. specialize (Hm w).
  by destruct (m w) as [[a|e|p] w1].
Qed.

Lemma quiet_defer (f : World -> World) (m : M A) :
  (forall w, http_log (f w) = http_log w) -> quiet m -> quiet (defer f m).
Proof.
  intros Hf Hm w. unfold defer. specialize (Hm w).
  destruct (m w) as [r w1]. simpl in *. by rewrite Hf.
Qed.





End Reports.



Section RegistrySound.
Variable E : Env.








End RegistrySound.

Section OsQuiet.
Variable E : Env.

Lemma quiet_TempDir (dir pfx : string) : quiet (TempDir E dir pfx).
Proof. prim_quiet TempDir. Qed.

Lemma quiet_MkdirAll (path : string) : quiet (MkdirAll E path).
Proof. prim_quiet MkdirAll. Qed.

Lemma quiet_os_Untar (layer : Body) (dest : string) :
  quiet (os_Untar E layer dest).
Proof. prim_quiet os_Untar. Qed.

Lemma quiet_Create (op path : string) : quiet (Create E op path).
Proof. prim_quiet Create. Qed.

Lemma quiet_Write (f : string) (b : FileData) : quiet (Write E f b).
Proof. prim_quiet Write. Qed.

Lemma quiet_ReadFile (op path : string) : quiet (ReadFile E op path).
Proof. prim_quiet ReadFile. Qed.

Lemma quiet_iw_Close (target : string) (im : ImageManifest)
    (entries : list Entry) : quiet (iw_Close E target im entries).
Proof. prim_quiet iw_Close. Qed.

Lemma quiet_WriteACI (aciFile : FileData) : quiet (WriteACI E aciFile).
Proof. prim_quiet WriteACI. Qed.



Lemma quiet_BuildACI (imageID outDir targetDir : string) :
  quiet (BuildACI E imageID outDir targetDir).
Proof.
  unfold BuildACI.
  apply quiet_bind; [apply quiet_wrap, quiet_Create|]. intros fh.
  apply quiet_bind; [by apply quiet_wrap|]. intros _.
  apply quiet_bind; [apply quiet_wrap, quiet_ReadFile|]. intros b.
  apply quiet_bind; [apply quiet_wrap, quiet_lift|]. intros im.
  apply quiet_bind; [by apply quiet_wrap|]. intros iw.
  apply quiet_bind; [apply quiet_wrap, quiet_iw_Close|]. intros _.
  apply quiet_ret.
Qed.





End OsQuiet.

Lemma URL_auth_request (url : string) (token : list string) :
  URL (auth_request url token) = url.
Proof. unfold auth_request, setAuthToken. by case_match. Qed.


Section Exchanges.
Variable E : Env.







End Exchanges.


(** ** The manifest *)

Lemma GenerateManifest_Entrypoint (E : Env) (ep : list string)
    (layerData : DockerImageData) (dockerURL : DockerURL)
    (parentImageID : string) :
  GenerateManifest E (set_Entrypoint ep layerData) dockerURL parentImageID
  = GenerateManifest E layerData dockerURL parentImageID.
Proof.
  unfold GenerateManifest, set_Entrypoint. simpl.
  by destruct (DockerConfig layerData).
Qed.

Lemma app_of_config (cfg : option Config) :
  let app :=
    match cfg with
    | Some dockerConfig =>
        if (0 <? length (Cmd dockerConfig))%nat
        then Some {| Exec := Cmd dockerConfig; User := "0"; Group := "0" |}
        else None
    | None => None
    end in
  (is_Some app <-> exists c, cfg = Some c /\ Cmd c <> [])
  /\ (forall a, app = Some a -> exists c, cfg = Some c /\ Exec a = Cmd c).
Proof.
  destruct cfg as [c|]; simpl.
  - destruct (Cmd c) as [|x xs] eqn:Hc; simpl.
    + split.
      * split; [by intros [? ?]|]. intros (c' & [= <-] & Hne). congruence.
      * done.
    + split.
      * split; [|by eauto]. intros _. exists c. by rewrite Hc.
      * intros a [= <-]. exists c. by rewrite Hc.
  - split; [|done]. split; [by intros [? ?]|]. by intros (c & ? & _).
Qed.

Lemma GenerateManifest_ok_inv (E : Env) (layerData : DockerImageData)
    (dockerURL : DockerURL) (parentImageID : string) (m : ImageManifest) :
  GenerateManifest E layerData dockerURL parentImageID = Ok m ->
  exists deps,
    m = {| ACKind := "ImageManifest";
           ACVersion := schemaVersion;
           Name := IndexURL dockerURL +:+ "/" +:+ ImageName dockerURL;
           Labels :=
             [ {| LabelName := "layer"; LabelValue := ID layerData |};
               {| LabelName := "version"; LabelValue := Tag dockerURL |} ];
           ManifestApp :=
             match DockerConfig layerData with
             | Some dockerConfig =>
                 if (0 <? length (Cmd dockerConfig))%nat
                 then Some {| Exec := Cmd dockerConfig; User := "0";
                              Group := "0" |}
                 else None
             | None => None
             end;
           Dependencies := deps |}
    /\ ((parentImageID = "" /\ deps = [])
        \/ (parentImageID <> ""
            /\ exists h, NewHash E parentImageID = Ok h
                  /\ deps = [ {| DepApp := IndexURL dockerURL +:+ "/"
                                             +:+ ImageName dockerURL;
                                 DepImageID := h |} ])).
Proof.
  unfold GenerateManifest, NewACName, NewSemVer.
  destruct (acname_err E (_ +:+ _)); [discriminate|]. simpl.
  destruct (semver_err E schemaVersion); [discriminate|]. simpl.
  destruct (acname_err E "layer"); [discriminate|]. simpl.
  destruct (acname_err E "version"); [discriminate|]. simpl.
  destruct (String.eqb parentImageID "") eqn:Hp; simpl.
  - apply String.eqb_eq in Hp. intros [= <-]. eexists. split; [done|].
    by left.
  - apply String.eqb_neq in Hp.
    destruct (NewHash E parentImageID) as [h| |]; simpl; try discriminate.
    intros [= <-]. eexists. split; [done|]. right. split; [done|].
    by exists h.
Qed.

(** C2. A manifest that [GenerateManifest] produces has the name
    [indexHost + "/" + imageName]; its labels are [layer], with the Docker
    identifier of the layer, and [version], with the tag, and no other; it has
    an app executable exactly when the Docker configuration is present with a
    non-empty command list, and that executable is the command list (the
    entrypoint of the configuration has no influence on the result); it has a
    dependency exactly when the identifier of the parent is not empty, and
    the dependency then names the image itself with the hash of that
    identifier. *)
Theorem GenerateManifest_fields (E : Env) (layerData : DockerImageData)
    (dockerURL : DockerURL) (parentImageID : string) (m : ImageManifest) :
  GenerateManifest E layerData dockerURL parentImageID = Ok m ->
  Name m = IndexURL dockerURL +:+ "/" +:+ ImageName dockerURL
  /\ Labels m = [ {| LabelName := "layer"; LabelValue := ID layerData |};
                  {| LabelName := "version"; LabelValue := Tag dockerURL |} ]
  /\ (is_Some (ManifestApp m) <->
      exists c, DockerConfig layerData = Some c /\ Cmd c <> [])
  /\ (forall a, ManifestApp m = Some a ->
      exists c, DockerConfig layerData = Some c /\ Exec a = Cmd c)
  /\ (forall ep,
        GenerateManifest E (set_Entrypoint ep layerData) dockerURL
          parentImageID = Ok m)
  /\ (Dependencies m <> [] <-> parentImageID <> "")
  /\ (parentImageID <> "" ->
      exists h, NewHash E parentImageID = Ok h
                /\ Dependencies m = [ {| DepApp := Name m; DepImageID := h |} ]).
Proof.
  intros H.
  assert (Hep : forall ep,
    GenerateManifest E (set_Entrypoint ep layerData) dockerURL parentImageID
    = Ok m) by (intros ep; by rewrite GenerateManifest_Entrypoint).
  destruct (GenerateManifest_ok_inv _ _ _ _ _ H) as (deps & -> & Hdeps).
  pose proof (app_of_config (DockerConfig layerData)) as [Happ1 Happ2].
  simpl. split; [done|]. split; [done|]. split; [exact Happ1|].
  split; [exact Happ2|]. split; [exact Hep|].
  destruct Hdeps as [[-> ->]|(Hp & h & Hh & ->)].
  - split; [|done]. split; done.
  - split; [split; done|]. intros _. by exists h.
Qed.

Lemma GenerateManifest_fields_witness :
  let layerData := Sample.layer "l2" "l1" (Some Sample.sh) in
  let dockerURL := parseArgument "busybox" in
  let m := {| ACKind := "ImageManifest"; ACVersion := "0.1.1";
              Name := "index.docker.io/busybox";
              Labels := [ {| LabelName := "layer"; LabelValue := "l2" |};
                          {| LabelName := "version"; LabelValue := "latest" |} ];
              ManifestApp := Some {| Exec := ["/bin/sh"]; User := "0";
                                     Group := "0" |};
              Dependencies :=
                [ {| DepApp := "index.docker.io/busybox";
                     DepImageID := {| hash_typ := "sha512";
                                      hash_Val := "l1" |} |} ] |} in
  Name m = IndexURL dockerURL +:+ "/" +:+ ImageName dockerURL
  /\ Labels m = [ {| LabelName := "layer"; LabelValue := ID layerData |};
                  {| LabelName := "version"; LabelValue := Tag dockerURL |} ]
  /\ (is_Some (ManifestApp m) <->
      exists c, DockerConfig layerData = Some c /\ Cmd c <> [])
  /\ (forall a, ManifestApp m = Some a ->
      exists c, DockerConfig layerData = Some c /\ Exec a = Cmd c)
  /\ (forall ep,
        GenerateManifest Sample.env (set_Entrypoint ep layerData) dockerURL
          "sha512-l1" = Ok m)
  /\ (Dependencies m <> [] <-> "sha512-l1" <> "")
  /\ ("sha512-l1" <> "" ->
      exists h, NewHash Sample.env "sha512-l1" = Ok h
                /\ Dependencies m = [ {| DepApp := Name m; DepImageID := h |} ]).
Proof.
  cbv zeta.
  apply (GenerateManifest_fields Sample.env
           (Sample.layer "l2" "l1" (Some Sample.sh))
           (parseArgument "busybox") "sha512-l1").
  vm_compute. reflexivity.
Defined.

(** ** The staging directory *)

Lemma RemoveAll_gone (E : Env) (dir p : string) (w : World) :
  under dir p = true -> fs_err E "RemoveAll" p = None ->
  fs (RemoveAll E dir w) !! p = None.
Proof.
  intros Hp Hr. unfold RemoveAll. simpl. apply map_lookup_filter_None.
  right. intros x _. simpl. rewrite Hp, Hr. intros [H|H]; [done|].
  by apply is_Some_None in H.
Qed.

Lemma under_self (dir : string) : under dir dir = true.
Proof. unfold under. by rewrite String.eqb_refl. Qed.

Lemma TempDir_allocates (E : Env) (dir pfx tmpDir : string) (w w1 : World) :
  TempDir E dir pfx w = (Ok tmpDir, w1) ->
  fs w !! tmpDir = None /\ fs w1 !! tmpDir = Some NDir.
Proof.
  unfold TempDir. cbv zeta.
  destruct (TempDir_pick E _) as [suffix| |]; try done.
  destruct (fs w !! _) eqn:Hn; [done|]. intros [= <- <-]. simpl.
  by rewrite lookup_insert_eq.
Qed.

(** C7, as the code has it.  Whatever [ImportLayer] returns (an identifier,
    an error of any stage or a panic), [os.RemoveAll] has been applied, last
    of all, to the temporary directory that [ioutil.TempDir] made for it, and
    its error has been dropped: the world the call leaves has nothing at or
    below that directory but what the system refused to remove.  The
    directory did not exist before the call and was made by it.  When
    [ioutil.TempDir] fails there is no such directory and the file system is
    as before. *)
Theorem ImportLayer_removes_staging (E : Env) (layerID : string)
    (repoData : RepoData) (dockerURL : DockerURL) (parentImageID : string)
    (w : World) :
  match TempDir E "" "docker2aci-" w with
  | (Ok tmpDir, w1) =>
      fs w !! tmpDir = None
      /\ fs w1 !! tmpDir = Some NDir
      /\ forall p : string,
           under tmpDir p = true ->
           fs_err E "RemoveAll" p = None ->
           fs (snd (ImportLayer E layerID repoData dockerURL parentImageID w))
             !! p = None
  | (_, _) =>
      fs (snd (ImportLayer E layerID repoData dockerURL parentImageID w))
      = fs w
      /\ is_ok (fst (ImportLayer E layerID repoData dockerURL parentImageID w))
         = false
  end.
Proof.
  unfold ImportLayer, mbind', wrap.
  destruct (TempDir E "" "docker2aci-" w) as [[tmpDir|e|p] w1] eqn:Ht.
  - destruct (TempDir_allocates _ _ _ _ _ _ Ht) as [H0 H1].
    split; [done|]. split; [done|]. intros q Hq Hr. unfold defer.
    match goal with |- context [let '(r, w') := ?b in _] =>
      destruct b as [r w2] end.
    simpl. by apply RemoveAll_gone.
  - simpl. split; [|done]. revert Ht. unfold TempDir.
    repeat case_match; intros ?; by simplify_eq.
  - simpl. split; [|done]. revert Ht. unfold TempDir.
    repeat case_match; intros ?; by simplify_eq.
Qed.

Lemma ImportLayer_removes_staging_witness :
  let run := ImportLayer Sample.env "l1" Sample.repo (parseArgument "busybox")
               "" Sample.world in
  fst run = Ok "sha512-l1"
  /\ under "/tmp/docker2aci-1" "/tmp/docker2aci-1/layer/rootfs/bin/sh" = true
  /\ match TempDir Sample.env "" "docker2aci-" Sample.world with
     | (Ok tmpDir, w1) =>
         fs Sample.world !! tmpDir = None
         /\ fs w1 !! tmpDir = Some NDir
         /\ forall p : string,
              under tmpDir p = true ->
              fs_err Sample.env "RemoveAll" p = None ->
              fs (snd run) !! p = None
     | (_, _) => fs (snd run) = fs Sample.world /\ is_ok (fst run) = false
     end.
Proof.
  intros run. split; [vm_compute; reflexivity|].
  split; [vm_compute; reflexivity|].
  exact (ImportLayer_removes_staging Sample.env "l1" Sample.repo
           (parseArgument "busybox") "" Sample.world).
Defined.

(** C7 as stated fails when the system refuses the removal: [os.RemoveAll]
    returns an error, [defer os.RemoveAll(tmpDir)] drops it, the import
    returns its identifier and the staging directory is still there. *)
Lemma refused_removal_leaves_staging :
  let refuse := fun op (_ : string) =>
                  if String.eqb op "RemoveAll"
                  then Some "unlinkat: permission denied" else None in
  let E := with_fs_err refuse Sample.env in
  let run := ImportLayer E "l1" Sample.repo (parseArgument "busybox") ""
               Sample.world in
  fst (TempDir E "" "docker2aci-" Sample.world) = Ok "/tmp/docker2aci-1"
  /\ fst run = Ok "sha512-l1"
  /\ fs (snd run) !! "/tmp/docker2aci-1" = Some NDir
  /\ fs (snd run) !! "/tmp/docker2aci-1/layer/rootfs/bin/sh"
     = Some (NFile (Raw "#!sh")).
Proof. cbv zeta. repeat split; vm_compute; reflexivity. Qed.

(** ** The chain of imports *)

Section Inversion.
Context {A B : Type}.

Lemma bind_Ok_inv (m : M A) (k : A -> M B) (w w' : World) (b : B) :
  mbind' m k w = (Ok b, w') ->
  exists a w1, m w = (Ok a, w1) /\ k a w1 = (Ok b, w').
Proof.
  unfold mbind'. destruct (m w) as [[a|e|p] w1]; try done.
  intros H. by exists a, w1.
Qed.

Lemma wrap_Ok_inv (f : error -> error) (m : M A) (w w' : World) (a : A) :
  wrap f m w = (Ok a, w') -> m w = (Ok a, w').
Proof. unfold wrap. by destruct (m w) as [[a'|e|p] w1]. Qed.

Lemma defer_inv (f : World -> World) (m : M A) (w w' : World) (r : res A) :
  defer f m w = (r, w') -> exists w1, m w = (r, w1) /\ w' = f w1.
Proof.
  unfold defer. destruct (m w) as [r1 w1]. intros [= <- <-]. by exists w1.
Qed.

Lemma lift_Ok_inv (r : res A) (w w' : World) (a : A) :
  lift r w = (Ok a, w') -> r = Ok a /\ w' = w.
Proof. by intros [= -> <-]. Qed.

End Inversion.

Section ImportFacts.
Variable E : Env.

Lemma network_only_GetRemoteImageJSON (imgID registry : string)
    (token : list string) :
  network_only (GetRemoteImageJSON E imgID registry token).
Proof. unfold GetRemoteImageJSON. net_tac. Qed.

Lemma network_only_GetRemoteLayer (imgID registry : string)
    (token : list string) (imgSize : Z) :
  network_only (GetRemoteLayer E imgID registry token imgSize).
Proof. unfold GetRemoteLayer. net_tac. Qed.

Lemma index0_Ok_inv (s : list string) (w w' : World) (x : string) :
  index0 s w = (Ok x, w') -> w' = w.
Proof. destruct s; [done|]. by intros [= _ <-]. Qed.

Lemma BuildACI_Ok_inv (imageID outDir targetDir path : string) (w w' : World) :
  BuildACI E imageID outDir targetDir w = (Ok path, w') ->
  exists m entries,
    fs w !! Join2 targetDir ManifestFile = Some (NFile (ManifestDoc m))
    /\ fs w' !! path
       = Some (NFile (ArchiveFile
                        {| aci_manifest := m; aci_entries := entries |}))
    /\ store w' = store w.
Proof.
  unfold BuildACI. intros H.
  apply bind_Ok_inv in H as (fh & w1 & H1 & H).
  apply wrap_Ok_inv in H1. unfold Create in H1.
  destruct (fs_err E "OpenFile" _); [done|]. injection H1 as <- <-.
  apply bind_Ok_inv in H as ([] & w2 & H2 & H). apply wrap_Ok_inv in H2.
  injection H2 as _ <-.
  apply bind_Ok_inv in H as (b & w3 & H3 & H). apply wrap_Ok_inv in H3.
  unfold ReadFile in H3. destruct (fs_err E "ReadFile" _); [done|].
  simpl in H3. rewrite lookup_insert in H3.
  destruct (decide (Join2 outDir (imageID +:+ ".aci")
                    = Join2 targetDir ManifestFile)) as [Heq|Hne].
  { injection H3 as <- <-.
    apply bind_Ok_inv in H as (im & w4 & H4 & _). by apply wrap_Ok_inv in H4. }
  destruct (fs w !! Join2 targetDir ManifestFile) as [[|d]|] eqn:Hm; try done.
  injection H3 as <- <-.
  apply bind_Ok_inv in H as (im & w4 & H4 & H). apply wrap_Ok_inv in H4.
  apply lift_Ok_inv in H4 as [H4 ->].
  destruct d as [|m|]; try done. simpl in H4.
  destruct (manifest_err E m); [done|]. injection H4 as <-.
  apply bind_Ok_inv in H as (iw & w5 & H5 & H). apply wrap_Ok_inv in H5.
  injection H5 as _ <-.
  apply bind_Ok_inv in H as ([] & w6 & H6 & H). apply wrap_Ok_inv in H6.
  unfold iw_Close in H6. destruct (fs_err E "Close" _); [done|].
  injection H6 as <-. injection H as <- <-.
  exists m, (written iw). split; [done|]. simpl.
  by rewrite lookup_insert_eq.
Qed.

Lemma ImportLayer_Ok_inv (layerID : string) (repoData : RepoData)
    (dockerURL : DockerURL) (parentImageID id : string) (w w' : World) :
  ImportLayer E layerID repoData dockerURL parentImageID w = (Ok id, w') ->
  exists layerData m entries,
    GenerateManifest E layerData dockerURL parentImageID = Ok m
    /\ store w'
       = store w ++ [(id, {| aci_manifest := m; aci_entries := entries |})].
Proof.
  unfold ImportLayer. intros H.
  apply bind_Ok_inv in H as (tmpDir & w1 & H1 & H).
  apply wrap_Ok_inv in H1.
  assert (Hs1 : store w1 = store w).
  { revert H1. unfold TempDir. repeat case_match; intros ?; by simplify_eq. }
  apply defer_inv in H as (wl & H & ->).
  apply bind_Ok_inv in H as ([] & w2 & H2 & H). apply wrap_Ok_inv in H2.
  assert (Hs2 : store w2 = store w1).
  { revert H2. unfold MkdirAll. repeat case_match; intros ?; by simplify_eq. }
  apply bind_Ok_inv in H as (ep & w3 & H3 & H).
  apply index0_Ok_inv in H3 as ->.
  apply bind_Ok_inv in H as (js & w4 & H4 & H). apply wrap_Ok_inv in H4.
  pose proof (network_only_GetRemoteImageJSON layerID ep (Tokens repoData) w2)
    as [_ Hs4]. rewrite H4 in Hs4. simpl in Hs4.
  apply bind_Ok_inv in H as (layerData & w5 & H5 & H).
  apply wrap_Ok_inv in H5. apply lift_Ok_inv in H5 as [H5 ->].
  apply bind_Ok_inv in H as (ep' & w6 & H6 & H).
  apply index0_Ok_inv in H6 as ->.
  apply bind_Ok_inv in H as (layer & w7 & H7 & H). apply wrap_Ok_inv in H7.
  pose proof (network_only_GetRemoteLayer layerID ep' (Tokens repoData)
                (snd js) w4) as [_ Hs7]. rewrite H7 in Hs7. simpl in Hs7.
  apply bind_Ok_inv in H as ([] & w8 & H8 & H). apply wrap_Ok_inv in H8.
  assert (Hs8 : store w8 = store w7).
  { revert H8. unfold os_Untar. repeat case_match; intros ?; by simplify_eq. }
  apply bind_Ok_inv in H as (manifest & w9 & H9 & H).
  apply wrap_Ok_inv in H9. apply lift_Ok_inv in H9 as [H9 ->].
  apply bind_Ok_inv in H as (manifestBytes & w10 & H10 & H).
  apply lift_Ok_inv in H10 as [H10 ->].
  unfold Marshal in H10. destruct (marshal_err E manifest); [done|].
  injection H10 as <-.
  apply bind_Ok_inv in H as (f & w11 & H11 & H). apply wrap_Ok_inv in H11.
  unfold Create in H11. destruct (fs_err E "Create" _); [done|].
  injection H11 as <- <-.
  apply bind_Ok_inv in H as ([] & w12 & H12 & H).
  apply bind_Ok_inv in H as (aciPath & w13 & H13 & H).
  apply wrap_Ok_inv in H13.
  apply BuildACI_Ok_inv in H13 as (m & entries & Hm & Ha & Hs13).
  assert (Hw12 : m = manifest /\ store w12 = store w8).
  { revert H12 Hm. unfold Write, Join2.
    destruct (fs_err E "Write" _); intros [= <-]; simpl;
      rewrite lookup_insert_eq; by intros [= ->]. }
  destruct Hw12 as [-> Hs12].
  apply bind_Ok_inv in H as (aciFile & w14 & H14 & H).
  apply wrap_Ok_inv in H14. unfold ReadFile in H14.
  destruct (fs_err E "Open" _); [done|]. rewrite Ha in H14.
  injection H14 as <- <-.
  apply bind_Ok_inv in H as (key & w15 & H15 & H). apply wrap_Ok_inv in H15.
  unfold WriteACI in H15.
  destruct (WriteACI_key E (store w13) _) as [k| |] eqn:Hk; try done.
  injection H15 as <- <-. injection H as <- <-.
  exists layerData, manifest, entries. split; [done|]. simpl.
  by rewrite Hs13, Hs12, Hs8, Hs7, Hs4, Hs2, Hs1.
Qed.

End ImportFacts.

Section Chain.
Variable E : Env.

Lemma GenerateManifest_depends_on (layerData : DockerImageData)
    (dockerURL : DockerURL) (parentImageID : string) (m : ImageManifest) :
  GenerateManifest E layerData dockerURL parentImageID = Ok m ->
  depends_on E parentImageID m.
Proof.
  intros H. destruct (GenerateManifest_ok_inv _ _ _ _ _ H) as (deps & -> & Hd).
  unfold depends_on. destruct Hd as [[-> ->]|(Hp & h & Hh & ->)]; [done|].
  rewrite (eqb_empty_false _ Hp). by exists h.
Qed.

Lemma import_loop_imported (rd : RepoData) (url : DockerURL)
    (appImageID : string) (ancestry : list string) (n : nat) :
  forall (app parent : string) (w w' : World) (out : string),
    (n <= length ancestry)%nat ->
    import_loop E rd url appImageID ancestry n app parent w = (Ok out, w') ->
    exists new,
      imported E rd url parent w (rev (take n ancestry)) new w'
      /\ length new = n
      /\ store w' = store w ++ new.
Proof.
  induction n as [|i IH]; intros app parent w w' out Hn; simpl.
  - intros [= <- <-]. exists []. rewrite app_nil_r.
    split; [constructor|done].
  - destruct (lookup_lt_is_Some_2 ancestry i) as [layerID Hl]; [lia|].
    rewrite Hl. intros H.
    apply bind_Ok_inv in H as (id & w1 & H1 & H).
    apply IH in H as (new & Hch & Hlen & Hst); [|lia].
    destruct (ImportLayer_Ok_inv _ _ _ _ _ _ _ _ H1)
      as (layerData & m & entries & Hm & Hs1).
    exists ((id, {| aci_manifest := m; aci_entries := entries |}) :: new).
    rewrite (take_S_r _ _ _ Hl), rev_app_distr. simpl.
    split; [|split].
    + eapply imported_cons; [exact H1|exact Hs1| |exact Hch].
      simpl. by eapply GenerateManifest_depends_on.
    + by rewrite Hlen.
    + by rewrite Hst, Hs1, <- app_assoc.
Qed.

Lemma imported_first (rd : RepoData) (url : DockerURL) (parent : string)
    (w w' : World) (layers : list string) (new : list (string * ACI)) :
  imported E rd url parent w layers new w' ->
  forall id a, new !! 0%nat = Some (id, a) ->
    depends_on E parent (aci_manifest a).
Proof. intros H. destruct H; [done|]. by intros id' a' [= <- <-]. Qed.

Lemma imported_next (rd : RepoData) (url : DockerURL) (parent : string)
    (w w' : World) (layers : list string) (new : list (string * ACI)) :
  imported E rd url parent w layers new w' ->
  forall (i : nat) idp ap id a,
    new !! i = Some (idp, ap) -> new !! S i = Some (id, a) ->
    depends_on E idp (aci_manifest a).
Proof.
  induction 1 as [|parent w layerID layers id0 a0 w1 new w' H1 Hs Hd Hch IH];
    [done|].
  intros [|i] idp ap id a; simpl.
  - intros [= <- <-] Hn. by eapply imported_first.
  - apply IH.
Qed.

Lemma imported_layers (rd : RepoData) (url : DockerURL) (parent : string)
    (w w' : World) (layers : list string) (new : list (string * ACI)) :
  imported E rd url parent w layers new w' -> length new = length layers.
Proof. induction 1; simpl; congruence. Qed.

End Chain.

Section Pipeline.
Variable E : Env.

Lemma network_only_GetRepoData (indexURL remote : string) :
  network_only (GetRepoData E indexURL remote).
Proof. unfold GetRepoData. net_tac. Qed.

Lemma network_only_GetImageIDFromTag (registry appName tag : string)
    (token : list string) :
  network_only (GetImageIDFromTag E registry appName tag token).
Proof. unfold GetImageIDFromTag. net_tac. Qed.

Lemma network_only_GetAncestry (imgID registry : string)
    (token : list string) :
  network_only (GetAncestry E imgID registry token).
Proof. unfold GetAncestry. net_tac. Qed.

End Pipeline.

(** C1, as the code has it.  In a run of the pipeline that ends without
    error, the ancestry list of length N that [GetAncestry] returned is
    imported by N calls of [ImportLayer], one per layer, in the reverse order
    of the list; each call gets as parent the identifier the call before it
    returned (the first gets the empty string) and adds one image to the
    store.  The manifest of the first image has no dependency; the manifest
    of every later image has exactly one, on the hash of the identifier the
    import before it returned, whenever that identifier is not empty. *)
Theorem runDocker2ACI_imports (E : Env) (arg : string) (w w' : World)
    (out : string) :
  runDocker2ACI E arg w = (Ok out, w') ->
  exists (rd : RepoData) (appImageID endpoint : string)
         (ancestry : list string) (wa w0 : World)
         (new : list (string * ACI)),
    GetAncestry E appImageID endpoint (Tokens rd) wa = (Ok ancestry, w0)
    /\ imported E rd (parseArgument arg) "" w0 (rev ancestry) new w'
    /\ length new = length ancestry
    /\ store w' = store w ++ new
    /\ (forall id a, new !! 0%nat = Some (id, a) ->
          Dependencies (aci_manifest a) = [])
    /\ (forall (i : nat) idp ap id a,
          new !! i = Some (idp, ap) -> new !! S i = Some (id, a) ->
          idp <> "" ->
          exists h, NewHash E idp = Ok h
            /\ Dependencies (aci_manifest a)
               = [ {| DepApp := Name (aci_manifest a); DepImageID := h |} ]).
Proof.
  unfold runDocker2ACI. intros H.
  apply bind_Ok_inv in H as (rd & w1 & H1 & H).
  pose proof (network_only_GetRepoData E (IndexURL (parseArgument arg))
                (ImageName (parseArgument arg)) w) as [_ Hs1].
  rewrite H1 in Hs1. simpl in Hs1.
  apply bind_Ok_inv in H as (ep & w2 & H2 & H).
  apply index0_Ok_inv in H2 as ->.
  apply bind_Ok_inv in H as (appImageID & w3 & H3 & H).
  pose proof (network_only_GetImageIDFromTag E ep
                (ImageName (parseArgument arg)) (Tag (parseArgument arg))
                (Tokens rd) w1) as [_ Hs3].
  rewrite H3 in Hs3. simpl in Hs3.
  apply bind_Ok_inv in H as (ep' & w4 & H4 & H).
  apply index0_Ok_inv in H4 as ->.
  apply bind_Ok_inv in H as (ancestry & w5 & H5 & H).
  pose proof (network_only_GetAncestry E appImageID ep' (Tokens rd) w3)
    as [_ Hs5].
  rewrite H5 in Hs5. simpl in Hs5.
  apply import_loop_imported in H as (new & Hch & Hlen & Hst); [|done].
  rewrite firstn_all in Hch.
  exists rd, appImageID, ep', ancestry, w3, w5, new.
  split; [exact H5|]. split; [exact Hch|]. split; [exact Hlen|].
  split; [by rewrite Hst, Hs5, Hs3, Hs1|]. split.
  - intros id a H0. by apply (imported_first _ _ _ _ _ _ _ _ Hch) in H0.
  - intros i idp ap id a Hi HSi Hne.
    pose proof (imported_next _ _ _ _ _ _ _ _ Hch _ _ _ _ _ Hi HSi) as Hd.
    unfold depends_on in Hd. by rewrite (eqb_empty_false _ Hne) in Hd.
Qed.

Lemma runDocker2ACI_imports_witness :
  let run := runDocker2ACI Sample.env "busybox" Sample.world in
  fst run = Ok "sha512-l2"
  /\ exists (rd : RepoData) (appImageID endpoint : string)
            (ancestry : list string) (wa w0 : World)
            (new : list (string * ACI)),
       GetAncestry Sample.env appImageID endpoint (Tokens rd) wa
       = (Ok ancestry, w0)
       /\ imported Sample.env rd (parseArgument "busybox") "" w0
            (rev ancestry) new (snd run)
       /\ length new = length ancestry
       /\ store (snd run) = store Sample.world ++ new
       /\ (forall id a, new !! 0%nat = Some (id, a) ->
             Dependencies (aci_manifest a) = [])
       /\ (forall (i : nat) idp ap id a,
             new !! i = Some (idp, ap) -> new !! S i = Some (id, a) ->
             idp <> "" ->
             exists h, NewHash Sample.env idp = Ok h
               /\ Dependencies (aci_manifest a)
                  = [ {| DepApp := Name (aci_manifest a);
                         DepImageID := h |} ]).
Proof.
  intros run.
  assert (Hrun : run = (Ok "sha512-l2", snd run)) by (vm_compute; reflexivity).
  split; [by rewrite Hrun|].
  exact (runDocker2ACI_imports Sample.env "busybox" Sample.world (snd run)
           "sha512-l2" Hrun).
Defined.

(** C1 as stated fails in two ways.  First, an import that fails ends the
    pipeline: with the ancestry [l2; l1] fetched and the JSON of [l1]
    missing on the registry, one import is started, none for [l2], and
    nothing reaches the store.  Second, a store that hands out the empty
    identifier leaves the next manifest without a dependency. *)
Lemma import_failure_stops_pipeline :
  let E1 := with_RoundTrip Sample.round_trip_l1_missing Sample.env in
  let run1 := runDocker2ACI E1 "busybox" Sample.world in
  let E2 := with_WriteACI_key (fun _ _ => Ok "") Sample.env in
  let run2 := runDocker2ACI E2 "busybox" Sample.world in
  Sample.statuses (http_log (snd run1))
  = [ ("https://index.docker.io/v1/repositories/busybox/images", 200);
      ("https://registry-1.docker.io/v1/repositories/busybox/tags/latest", 200);
      ("https://registry-1.docker.io/v1/images/l2/ancestry", 200);
      ("https://registry-1.docker.io/v1/images/l1/json", 404) ]
  /\ fst (GetAncestry E1 "l2" Sample.reg ["tok"] Sample.world)
     = Ok ["l2"; "l1"]
  /\ fst run1
     = Err ("Error getting image json: HTTP code: 404, URL: "
              +:+ "https://registry-1.docker.io/v1/images/l1/json")
  /\ store (snd run1) = []
  /\ fst run2 = Ok ""
  /\ List.map (fun x => (fst x, Dependencies (aci_manifest (snd x))))
       (store (snd run2))
     = [ ("", []); ("", []) ].
Proof.
  cbv zeta. repeat split; vm_compute; reflexivity.
Qed.

(** ** The walk over the root file system *)

Lemma FileInfoHeader_Ok (fi : FileInfo) (link : string) (h : TarHeader) :
  FileInfoHeader fi link = Ok h ->
  hdr_Typeflag h <> TypeLink
  /\ hdr_Mode h = Z.land (fi_Mode fi) FileMode.ModePerm
  /\ (hdr_Typeflag h = TypeSymlink ->
      hdr_Linkname h = link
      /\ FileMode.has (fi_Mode fi) FileMode.ModeSymlink = true).
Proof.
  unfold FileInfoHeader.
  repeat case_match; intros ?; simplify_eq; simpl; repeat split; done.
Qed.

Lemma FileInfoHeader_regular (fi : FileInfo) (link : string) :
  FileMode.IsRegular (fi_Mode fi) = true ->
  FileInfoHeader fi link
  = Ok {| hdr_Name := fi_Name fi; hdr_Typeflag := TypeReg;
          hdr_Linkname := ""; hdr_Size := fi_Size fi;
          hdr_Mode := Z.land (fi_Mode fi) FileMode.ModePerm |}.
Proof. unfold FileInfoHeader. by intros ->. Qed.

Lemma switch_mode_regular (v : Visit) :
  FileMode.IsRegular (fi_Mode (v_info v)) = true ->
  switch_mode v = bind (v_open v) (fun file => Ok ("", Some file)).
Proof.
  unfold FileMode.IsRegular, switch_mode. intros H.
  apply Z.eqb_eq in H. by rewrite H.
Qed.

Lemma land_ModeSymlink (m : Z) :
  Z.land m FileMode.ModeSymlink
  = Z.land (Z.land m FileMode.ModeType) FileMode.ModeSymlink.
Proof. by rewrite <- Z.land_assoc. Qed.

Lemma switch_mode_symlink (v : Visit) :
  wf_mode (fi_Mode (v_info v)) ->
  FileMode.has (fi_Mode (v_info v)) FileMode.ModeSymlink = true ->
  switch_mode v = bind (v_readlink v) (fun target => Ok (target, None)).
Proof.
  unfold wf_mode, FileMode.has, switch_mode. intros Hwf Hs.
  rewrite land_ModeSymlink in Hs.
  simpl in Hwf. destruct Hwf as [H|[H|[H|[H|[H|[H|[]]]]]]];
    rewrite <- H in *; try done.
Qed.

Section WalkFacts.
Variable E : Env.
Variable root : string.

Lemma buildWalker_Ok_inv (st st' : WalkState) (v : Visit) :
  buildWalker E root st v = Ok st' ->
  exists rp,
    Rel root (v_path v) = Ok rp
    /\ if archived rp
       then exists link r h,
              switch_mode v = Ok (link, r)
              /\ FileInfoHeader (v_info v) link = Ok h
              /\ st' = match inos st !! fi_Ino (v_info v) with
                       | Some p =>
                           {| inos := inos st;
                              written := written st
                                ++ [link_member rp (v_info v) p] |}
                       | None =>
                           {| inos := <[fi_Ino (v_info v) := rp]> (inos st);
                              written := written st
                                ++ [ {| e_path := rp; e_hdr := set_Name h rp;
                                        e_content := r |} ] |}
                       end
       else st' = st.
Proof.
  unfold buildWalker. destruct (v_err v); [done|]. simpl.
  destruct (Rel root (v_path v)) as [rp| |]; try done. simpl.
  intros H. exists rp. split; [done|]. unfold archived.
  destruct (String.eqb rp "."); simpl; [by injection H|].
  destruct (String.eqb rp ManifestFile); simpl; [by injection H|].
  destruct (switch_mode v) as [[link r]| |]; try done. simpl in H.
  destruct (FileInfoHeader (v_info v) link) as [h| |] eqn:Hh; try done.
  simpl in H. destruct (FileInfoHeader_Ok _ _ _ Hh) as (Hty & Hmode & _).
  exists link, r, h. split; [done|]. split; [done|].
  unfold Populate in H. simpl in H.
  destruct (inos st !! fi_Ino (v_info v)) as [p|].
  - simpl in H. unfold AddFile in H.
    destruct (addfile_err E _); [done|]. simpl in H.
    injection H as <-. unfold link_member. by rewrite <- Hmode.
  - destruct (decide (hdr_Typeflag (set_Name h rp) = TypeLink)) as [Hl|_];
      [done|].
    unfold AddFile in H. destruct (addfile_err E _); [done|]. simpl in H.
    by injection H as <-.
Qed.

Lemma walk_app (l1 l2 : list Visit) (st : WalkState) :
  walk E root st (l1 ++ l2)
  = bind (walk E root st l1) (fun st1 => walk E root st1 l2).
Proof.
  revert st. induction l1 as [|v l1 IH]; intros st; simpl; [done|].
  destruct (buildWalker E root st v); simpl; auto.
Qed.

Lemma walk_app_Ok (l1 l2 : list Visit) (st st' : WalkState) :
  walk E root st (l1 ++ l2) = Ok st' ->
  exists st1, walk E root st l1 = Ok st1 /\ walk E root st1 l2 = Ok st'.
Proof.
  rewrite walk_app. destruct (walk E root st l1) as [st1| |]; try done.
  intros H. by exists st1.
Qed.

Lemma walk_cons_Ok (v : Visit) (l : list Visit) (st st' : WalkState) :
  walk E root st (v :: l) = Ok st' ->
  exists st1, buildWalker E root st v = Ok st1 /\ walk E root st1 l = Ok st'.
Proof.
  simpl. destruct (buildWalker E root st v) as [st1| |]; try done.
  intros H. by exists st1.
Qed.

Lemma buildWalker_written (st st' : WalkState) (v : Visit) :
  buildWalker E root st v = Ok st' ->
  written st' = written st
  \/ exists e, written st' = written st ++ [e] /\ written_for root v e.
Proof.
  intros H. apply buildWalker_Ok_inv in H as (rp & Hrel & H).
  destruct (archived rp) eqn:Ha; [|left; by subst].
  destruct H as (link & r & h & Hsw & Hh & ->). right.
  destruct (inos st !! fi_Ino (v_info v)) as [p|]; simpl; eexists;
    (split; [done|]); split; try done; simpl; split; try done.
  intros Hwf Hsym.
  destruct (FileInfoHeader_Ok _ _ _ Hh) as (_ & _ & Hs).
  destruct (Hs Hsym) as [Hlink Hhas].
  rewrite (switch_mode_symlink _ Hwf Hhas) in Hsw.
  destruct (v_readlink v) as [target| |]; try done. simpl in Hsw.
  injection Hsw as <- <-. split; [done|]. by rewrite Hlink.
Qed.

Lemma walk_written (l : list Visit) (st st' : WalkState) :
  walk E root st l = Ok st' ->
  exists more,
    written st' = written st ++ more
    /\ Forall (fun e => exists v, In v l /\ written_for root v e) more.
Proof.
  revert st. induction l as [|v l IH]; intros st H.
  - injection H as <-. exists []. by rewrite app_nil_r.
  - apply walk_cons_Ok in H as (st1 & H1 & H).
    apply IH in H as (more & Hw & Hf).
    assert (Hf' : Forall (fun e => exists v0, In v0 (v :: l)
                                     /\ written_for root v0 e) more).
    { eapply Forall_impl; [exact Hf|]. intros e (v0 & Hin & Hv0).
      exists v0. split; [by right|done]. }
    apply buildWalker_written in H1 as [H1|(e & H1 & He)].
    + exists more. by rewrite Hw, H1.
    + exists (e :: more). split; [by rewrite Hw, H1, <- app_assoc|].
      constructor; [|done]. exists v. split; [by left|done].
Qed.

Lemma buildWalker_inos (st st' : WalkState) (v : Visit) (i : N) :
  buildWalker E root st v = Ok st' ->
  (forall p, inos st !! i = Some p -> inos st' !! i = Some p)
  /\ (inos st !! i = None ->
      (forall p, Rel root (v_path v) = Ok p -> archived p = true ->
                 fi_Ino (v_info v) <> i) ->
      inos st' !! i = None).
Proof.
  intros H. apply buildWalker_Ok_inv in H as (rp & Hrel & H).
  destruct (archived rp) eqn:Ha; [|by subst].
  destruct H as (link & r & h & Hsw & Hh & ->).
  destruct (inos st !! fi_Ino (v_info v)) as [p|] eqn:Hi; simpl; [done|].
  split.
  - intros p Hp. rewrite lookup_insert_ne; [done|]. congruence.
  - intros Hn Hfresh. rewrite lookup_insert_ne; [done|]. by eapply Hfresh.
Qed.

Lemma walk_inos_mono (l : list Visit) (st st' : WalkState) (i : N)
    (p : string) :
  walk E root st l = Ok st' ->
  inos st !! i = Some p -> inos st' !! i = Some p.
Proof.
  revert st. induction l as [|v l IH]; intros st H Hp.
  - by injection H as <-.
  - apply walk_cons_Ok in H as (st1 & H1 & H).
    eapply IH; [exact H|]. by apply (buildWalker_inos _ _ _ i H1).
Qed.

Lemma walk_inos_fresh (l : list Visit) (st st' : WalkState) (i : N) :
  walk E root st l = Ok st' ->
  inos st !! i = None ->
  (forall v p, In v l -> Rel root (v_path v) = Ok p -> archived p = true ->
               fi_Ino (v_info v) <> i) ->
  inos st' !! i = None.
Proof.
  revert st. induction l as [|v l IH]; intros st H Hn Hfresh.
  - by injection H as <-.
  - apply walk_cons_Ok in H as (st1 & H1 & H).
    eapply IH; [exact H| |].
    + apply (buildWalker_inos _ _ _ i H1); [done|].
      intros p. apply Hfresh. by left.
    + intros v0 p Hin. apply Hfresh. by right.
Qed.

End WalkFacts.

Lemma strip_prefix_Some (p s r : string) :
  Trim.strip_prefix p s = Some r -> s = p +:+ r.
Proof.
  revert s. induction p as [|a p IH]; intros s; simpl.
  - by intros [= ->].
  - destruct s as [|b s]; [done|].
    destruct (Ascii.eqb a b) eqn:Hab; [|done].
    apply Ascii.eqb_eq in Hab as ->. intros H. apply IH in H as ->.
    reflexivity.
Qed.

Lemma Rel_inj (root a b p : string) :
  Rel root a = Ok p -> Rel root b = Ok p -> archived p = true -> a = b.
Proof.
  unfold Rel, archived.
  destruct (String.eqb a root); [by intros [= <-]|].
  destruct (String.eqb b root); [by intros _ [= <-]|].
  destruct (Trim.strip_prefix _ a) as [ra|] eqn:Ha; [|done].
  destruct (Trim.strip_prefix _ b) as [rb|] eqn:Hb; [|done].
  intros [= ->] [= ->] _.
  apply strip_prefix_Some in Ha, Hb. congruence.
Qed.

Lemma members_avoid (root : string) (more : list Entry) (l : list Visit)
    (x : Visit) (px : string) :
  Forall (fun e => exists v, In v l /\ written_for root v e) more ->
  (forall v, In v l -> v_path v <> v_path x) ->
  Rel root (v_path x) = Ok px ->
  archived px = true ->
  Forall (fun e => e_path e <> px) more.
Proof.
  intros Hf Hne Hx Ha. eapply Forall_impl; [exact Hf|].
  intros e (v & Hin & Hrel & _ & _) Heq. subst px.
  apply (Hne v Hin). by eapply Rel_inj.
Qed.

Lemma paths_apart (l1 l2 : list Visit) (x : Visit) :
  NoDup (List.map v_path (l1 ++ x :: l2)) ->
  forall v, In v (l1 ++ l2) -> v_path v <> v_path x.
Proof.
  rewrite List.map_app. simpl. intros Hnd v Hin Heq.
  apply NoDup_app in Hnd as (_ & H1 & H2).
  apply NoDup_cons in H2 as [H2 _].
  apply in_app_or in Hin as [Hin|Hin].
  - apply (H1 (v_path x)).
    + apply list_elem_of_In. rewrite <- Heq. by apply in_map.
    + by left.
  - apply H2. apply list_elem_of_In. rewrite <- Heq. by apply in_map.
Qed.

(** C3. In a walk that ends without error, take two visited files with one
    inode number, the first a regular file met before any other archived path
    with that number.  The archive then has for the first a member with the
    content of the file and for the second a member of type link, of size
    zero, without content, whose link name is the path of the first (no other
    member of the archive has either path when the walk visits no path
    twice).  Every member of type symbolic link was written for a visited
    path, has no content and has as link name the string [os.Readlink]
    returned for that path. *)
Theorem buildWalker_links (E : Env) (root : string) (visits : list Visit)
    (st' : WalkState) :
  walk E root {| inos := ∅; written := [] |} visits = Ok st' ->
  (forall pre v1 mid v2 post p1 p2,
     visits = pre ++ v1 :: mid ++ v2 :: post ->
     Rel root (v_path v1) = Ok p1 -> Rel root (v_path v2) = Ok p2 ->
     archived p1 = true -> archived p2 = true ->
     FileMode.IsRegular (fi_Mode (v_info v1)) = true ->
     fi_Ino (v_info v2) = fi_Ino (v_info v1) ->
     (forall v p, In v pre -> Rel root (v_path v) = Ok p ->
                  archived p = true ->
                  fi_Ino (v_info v) <> fi_Ino (v_info v1)) ->
     exists c1 Epre Emid Epost,
       v_open v1 = Ok c1
       /\ written st'
          = Epre ++ file_member p1 (v_info v1) c1
                 :: Emid ++ link_member p2 (v_info v2) p1 :: Epost
       /\ (NoDup (List.map v_path visits) ->
           Forall (fun e => e_path e <> p1 /\ e_path e <> p2)
             (Epre ++ Emid ++ Epost)))
  /\ (forall e,
        In e (written st') ->
        hdr_Typeflag (e_hdr e) = TypeSymlink ->
        exists v,
          In v visits
          /\ Rel root (v_path v) = Ok (e_path e)
          /\ (wf_mode (fi_Mode (v_info v)) ->
              e_content e = None
              /\ v_readlink v = Ok (hdr_Linkname (e_hdr e)))).
Proof.
  intros Hwalk. split.
  - intros pre v1 mid v2 post p1 p2 -> Hr1 Hr2 Ha1 Ha2 Hreg Hino Hfresh.
    apply walk_app_Ok in Hwalk as (st1 & Hpre & Hwalk).
    apply walk_cons_Ok in Hwalk as (st2 & Hv1 & Hwalk).
    apply walk_app_Ok in Hwalk as (st3 & Hmid & Hwalk).
    apply walk_cons_Ok in Hwalk as (st4 & Hv2 & Hpost).
    pose proof (walk_inos_fresh _ _ _ _ _ (fi_Ino (v_info v1)) Hpre
                  (lookup_empty _) Hfresh) as Hnone.
    destruct (walk_written _ _ _ _ _ Hpre) as (Epre & Hwpre & Hfpre).
    simpl in Hwpre.
    apply buildWalker_Ok_inv in Hv1 as (rp1 & Hrel1 & Hv1).
    rewrite Hr1 in Hrel1. injection Hrel1 as <-. rewrite Ha1 in Hv1.
    destruct Hv1 as (link & r & h & Hsw & Hh & ->).
    rewrite Hnone in Hmid.
    rewrite (switch_mode_regular _ Hreg) in Hsw.
    destruct (v_open v1) as [c1| |] eqn:Hopen; try done. simpl in Hsw.
    injection Hsw as <- <-.
    rewrite (FileInfoHeader_regular _ _ Hreg) in Hh. injection Hh as <-.
    destruct (walk_written _ _ _ _ _ Hmid) as (Emid & Hwmid & Hfmid).
    simpl in Hwmid.
    pose proof (walk_inos_mono _ _ _ _ _ (fi_Ino (v_info v1)) p1 Hmid) as Hsome.
    simpl in Hsome. rewrite lookup_insert_eq in Hsome.
    specialize (Hsome eq_refl).
    apply buildWalker_Ok_inv in Hv2 as (rp2 & Hrel2 & Hv2).
    rewrite Hr2 in Hrel2. injection Hrel2 as <-. rewrite Ha2 in Hv2.
    destruct Hv2 as (link2 & r2 & h2 & _ & _ & ->).
    rewrite Hino, Hsome in Hpost.
    destruct (walk_written _ _ _ _ _ Hpost) as (Epost & Hwpost & Hfpost).
    simpl in Hwpost.
    exists c1, Epre, Emid, Epost. split; [done|]. split.
    { rewrite Hwpost, Hwmid, Hwpre. unfold file_member, set_Name. simpl.
      by rewrite <- !app_assoc. }
    intros Hnd.
    pose proof (paths_apart pre (mid ++ v2 :: post) v1 Hnd) as Hp1.
    assert (Hnd2 : NoDup (List.map v_path ((pre ++ v1 :: mid) ++ v2 :: post))).
    { by rewrite <- app_assoc. }
    pose proof (paths_apart (pre ++ v1 :: mid) post v2 Hnd2) as Hp2.
    apply Forall_app. split; [|apply Forall_app; split].
    + apply Forall_and. split.
      * eapply members_avoid; [exact Hfpre| |exact Hr1|exact Ha1].
        intros v Hin. apply Hp1, in_or_app. by left.
      * eapply members_avoid; [exact Hfpre| |exact Hr2|exact Ha2].
        intros v Hin. apply Hp2, in_or_app. left. apply in_or_app. by left.
    + apply Forall_and. split.
      * eapply members_avoid; [exact Hfmid| |exact Hr1|exact Ha1].
        intros v Hin. apply Hp1, in_or_app. right. apply in_or_app. by left.
      * eapply members_avoid; [exact Hfmid| |exact Hr2|exact Ha2].
        intros v Hin. apply Hp2, in_or_app. left. apply in_or_app.
        right. by right.
    + apply Forall_and. split.
      * eapply members_avoid; [exact Hfpost| |exact Hr1|exact Ha1].
        intros v Hin. apply Hp1, in_or_app. right. apply in_or_app.
        right. by right.
      * eapply members_avoid; [exact Hfpost| |exact Hr2|exact Ha2].
        intros v Hin. apply Hp2, in_or_app. by right.
  - intros e Hin Hsym.
    destruct (walk_written _ _ _ _ _ Hwalk) as (more & Hw & Hf).
    simpl in Hw. rewrite Hw in Hin. rewrite Forall_forall in Hf.
    apply list_elem_of_In in Hin.
    destruct (Hf e Hin) as (v & Hv & Hrel & _ & Hlink).
    exists v. split; [done|]. split; [done|]. intros Hwf. by apply Hlink.
Qed.

Lemma buildWalker_links_witness :
  let root := "/tmp/docker2aci-0/layer" in
  let visits := Sample.tree root in
  let st' :=
    match walk Sample.env root {| inos := ∅; written := [] |} visits with
    | Ok st => st
    | _ => {| inos := ∅; written := [] |}
    end in
  List.map (fun e => (e_path e, hdr_Typeflag (e_hdr e),
                      hdr_Linkname (e_hdr e), hdr_Size (e_hdr e),
                      e_content e)) (written st')
  = [ ("rootfs", TypeDir, "", 0, None);
      ("rootfs/bin", TypeDir, "", 0, None);
      ("rootfs/bin/ash", TypeReg, "", 4, Some "#!sh");
      ("rootfs/bin/bash", TypeSymlink, "sh", 0, None);
      ("rootfs/bin/sh", TypeLink, "rootfs/bin/ash", 0, None) ]
  /\ (forall pre v1 mid v2 post p1 p2,
        visits = pre ++ v1 :: mid ++ v2 :: post ->
        Rel root (v_path v1) = Ok p1 -> Rel root (v_path v2) = Ok p2 ->
        archived p1 = true -> archived p2 = true ->
        FileMode.IsRegular (fi_Mode (v_info v1)) = true ->
        fi_Ino (v_info v2) = fi_Ino (v_info v1) ->
        (forall v p, In v pre -> Rel root (v_path v) = Ok p ->
                     archived p = true ->
                     fi_Ino (v_info v) <> fi_Ino (v_info v1)) ->
        exists c1 Epre Emid Epost,
          v_open v1 = Ok c1
          /\ written st'
             = Epre ++ file_member p1 (v_info v1) c1
                    :: Emid ++ link_member p2 (v_info v2) p1 :: Epost
          /\ (NoDup (List.map v_path visits) ->
              Forall (fun e => e_path e <> p1 /\ e_path e <> p2)
                (Epre ++ Emid ++ Epost)))
  /\ (forall e,
        In e (written st') ->
        hdr_Typeflag (e_hdr e) = TypeSymlink ->
        exists v,
          In v visits
          /\ Rel root (v_path v) = Ok (e_path e)
          /\ (wf_mode (fi_Mode (v_info v)) ->
              e_content e = None
              /\ v_readlink v = Ok (hdr_Linkname (e_hdr e)))).
Proof.
  intros root visits st'. split; [vm_compute; reflexivity|].
  apply (buildWalker_links Sample.env root visits st').
  vm_compute. reflexivity.
Defined.

(** ** The sample run *)

Example sample_run_leaves_no_staging :
  let run := runDocker2ACI Sample.env "busybox" Sample.world in
  fst run = Ok "sha512-l2"
  /\ filter (fun kv => under rocketDir (fst kv) = false) (fs (snd run))
     = fs Sample.world
  /\ List.map fst (store (snd run)) = ["sha512-l1"; "sha512-l2"].
Proof. cbv zeta. repeat split; vm_compute; reflexivity. Qed.

Example sample_failure_leaves_no_staging :
  let E := with_RoundTrip Sample.round_trip_l1_missing Sample.env in
  let rd := {| Tokens := ["tok"]; Endpoints := [Sample.reg] |} in
  let run := ImportLayer E "l1" rd (parseArgument "busybox") "" Sample.world in
  fst (TempDir E "" "docker2aci-" Sample.world) = Ok "/tmp/docker2aci-1"
  /\ is_ok (fst run) = false
  /\ fs (snd run) = fs Sample.world.
Proof. cbv zeta. repeat split; vm_compute; reflexivity. Qed.

(** ** The library models on sample inputs *)

Example TrimSpace_sample :
  Trim.TrimSpace "  registry-1.docker.io	 " = "registry-1.docker.io"
  /\ Trim.TrimSpace (Trim.rune [194; 160; 97; 226; 128; 131]%nat) = "a"
  /\ Trim.TrimSpace "   " = "".
Proof. repeat split; vm_compute; reflexivity. Qed.

Example Split_sample :
  Strings.Split "a,b,,c" "," = ["a"; "b"; ""; "c"]
  /\ Strings.Split "" "," = [""]
  /\ Strings.SplitN2 "a/b/c" "/" = ["a"; "b/c"]
  /\ Strings.SplitN2 "abc" "/" = ["abc"].
Proof. repeat split; reflexivity. Qed.

Example itoa_sample : itoa 404 = "404" /\ itoa (-1) = "-1" /\ itoa 0 = "0".
Proof. repeat split; reflexivity. Qed.

Example parseArgument_port :
  parseArgument "localhost:5000/foo/bar"
  = {| IndexURL := defaultIndex; ImageName := "localhost";
       Tag := "5000/foo/bar" |}.
Proof. reflexivity. Qed.

Example sample_missing_layer_aborts :
  let E := with_RoundTrip Sample.round_trip_l1_missing Sample.env in
  fst (GetRemoteImageJSON E "l1" Sample.reg ["tok"] Sample.world)
  = Err "HTTP code: 404, URL: https://registry-1.docker.io/v1/images/l1/json".
Proof. vm_compute. reflexivity. Qed.

(** * Further properties of the program *)

(** ** Splitting and joining *)

Lemma append_cons (a : ascii) (s t : string) :
  String a s +:+ t = String a (s +:+ t).
Proof. reflexivity. Qed.

Lemma append_nil_l (t : string) : "" +:+ t = t.
Proof. reflexivity. Qed.

Lemma Join_cons2 (x y : string) (l : list string) (sep : string) :
  Strings.Join (x :: y :: l) sep = x +:+ sep +:+ Strings.Join (y :: l) sep.
Proof. reflexivity. Qed.

Lemma Join_Split (s : string) (c : ascii) :
  Strings.Join (Strings.Split s c) (String c "") = s.
Proof.
  induction s as [|x s IH]; [reflexivity|]. simpl.
  pose proof (Split_not_nil s c) as Hne.
  destruct (Ascii.eqb x c) eqn:Hx.
  - apply Ascii.eqb_eq in Hx as ->.
    destruct (Strings.Split s c) as [|y ys]; [done|].
    rewrite Join_cons2, IH. reflexivity.
  - destruct (Strings.Split s c) as [|y ys]; [done|].
    destruct ys as [|z zs].
    + simpl in *. by rewrite IH.
    + rewrite Join_cons2 in *. rewrite append_cons. by rewrite IH.
Qed.

Lemma Join_snoc (l : list string) (t sep : string) :
  l <> [] ->
  Strings.Join (l ++ [t]) sep = Strings.Join l sep +:+ sep +:+ t.
Proof.
  induction l as [|x l IH]; [done|]. intros _.
  destruct l as [|y l]; [reflexivity|].
  change ((x :: y :: l) ++ [t]) with (x :: (y :: l) ++ [t]).
  change ((y :: l) ++ [t]) with (y :: l ++ [t]) at 1.
  rewrite Join_cons2. change (y :: l ++ [t]) with ((y :: l) ++ [t]).
  rewrite IH by done. rewrite Join_cons2. by rewrite !append_assoc.
Qed.

Lemma Split_parts (s : string) (c : ascii) :
  Forall (fun x => Strings.Contains x c = false) (Strings.Split s c).
Proof.
  induction s as [|x s IH]; simpl; [by constructor|].
  destruct (Ascii.eqb x c) eqn:Hx; [by constructor|].
  destruct (Strings.Split s c) as [|y ys]; [by constructor; [simpl; rewrite Hx|]|].
  apply Forall_cons in IH as [Hy Hys]. constructor; [|done].
  simpl. by rewrite Hx.
Qed.

Lemma Split_no_sep (s : string) (c : ascii) :
  Strings.Contains s c = false -> Strings.Split s c = [s].
Proof.
  induction s as [|x s IH]; simpl; [done|].
  destruct (Ascii.eqb x c); [done|]. simpl. intros H. by rewrite IH.
Qed.

Lemma Split_app (a b : string) (c : ascii) :
  Strings.Contains b c = false ->
  Strings.Split (a +:+ String c b) c = Strings.Split a c ++ [b].
Proof.
  intros Hb. induction a as [|x a IH].
  - rewrite append_nil_l. simpl. rewrite Ascii.eqb_refl.
    by rewrite Split_no_sep.
  - rewrite append_cons. simpl. rewrite IH.
    pose proof (Split_not_nil a c) as Hne.
    destruct (Ascii.eqb x c); [done|].
    by destruct (Strings.Split a c).
Qed.

Lemma SplitN2_cases (s : string) (c : ascii) :
  (Strings.Contains s c = false /\ Strings.SplitN2 s c = [s])
  \/ (exists p0 rest,
        s = p0 +:+ String c rest
        /\ Strings.SplitN2 s c = [p0; rest]
        /\ Strings.Contains p0 c = false).
Proof.
  induction s as [|x s IH]; simpl; [by left|].
  destruct (Ascii.eqb x c) eqn:Hx.
  - apply Ascii.eqb_eq in Hx as ->. right. by exists "", s.
  - destruct IH as [[Hc ->]|(p0 & rest & -> & -> & Hp)].
    + by left.
    + right. exists (String x p0), rest. split; [reflexivity|].
      split; [done|]. simpl. by rewrite Hx.
Qed.

Lemma SplitN2_app (a b : string) (c : ascii) :
  Strings.Contains a c = false ->
  Strings.SplitN2 (a +:+ String c b) c = [a; b].
Proof.
  induction a as [|x a IH]; intros H.
  - rewrite append_nil_l. simpl. by rewrite Ascii.eqb_refl.
  - simpl in H. destruct (Ascii.eqb x c) eqn:Hx; [done|]. simpl in H.
    rewrite append_cons. simpl. rewrite Hx. by rewrite IH.
Qed.

Lemma init_parts_snoc (l : list string) (t : string) :
  init_parts (l ++ [t]) = l.
Proof.
  unfold init_parts. rewrite length_app. simpl.
  replace (length l + 1 - 1)%nat with (length l) by lia.
  by rewrite take_app_length.
Qed.

(** ** [parseArgument] on every argument *)

Lemma name_and_tag (app : string) :
  let appParts := Strings.Split app ":" in
  let nt := if (1 <? length appParts)%nat
            then (Strings.Join (init_parts appParts) ":",
                  List.last appParts "")
            else (app, defaultTag) in
  exists post,
    app = fst nt +:+ post
    /\ ((post = "" /\ snd nt = defaultTag) \/ post = ":" +:+ snd nt)
    /\ Strings.Contains (snd nt) ":" = false.
Proof.
  cbv zeta. pose proof (Split_not_nil app ":") as Hne.
  pose proof (Split_parts app ":") as Hparts.
  pose proof (Join_Split app ":") as Hjoin.
  destruct (exists_last Hne) as (l & t & Hl). rewrite Hl in *.
  destruct (1 <? length (l ++ [t]))%nat eqn:Hlen; simpl.
  - rewrite init_parts_snoc, List.last_last.
    assert (l <> []) as Hl0.
    { intros ->. simpl in Hlen. done. }
    apply Forall_app in Hparts as [_ Ht]. apply Forall_inv in Ht.
    exists (":" +:+ t). split; [|split; [by right|done]].
    by rewrite <- Hjoin, Join_snoc.
  - assert (l = []) as ->.
    { destruct l; [done|]. rewrite length_app in Hlen. simpl in Hlen.
      apply Nat.ltb_ge in Hlen. lia. }
    exists "". simpl in Hjoin. subst t. split; [by rewrite append_nil_r|].
    split; [by left|done].
Qed.

(** X1. Whatever the argument, it is the image name that [parseArgument]
    returns, preceded either by nothing (then the index is the default one)
    or by the index and a slash (then the index has a dot and no slash), and
    followed either by nothing (then the tag is the default one) or by a colon
    and the tag; the tag never has a colon. *)
Theorem parseArgument_decomposes (arg : string) :
  exists pre post : string,
    arg = pre +:+ ImageName (parseArgument arg) +:+ post
    /\ ((pre = "" /\ IndexURL (parseArgument arg) = defaultIndex)
        \/ (pre = IndexURL (parseArgument arg) +:+ "/"
            /\ Strings.Contains (IndexURL (parseArgument arg)) "." = true
            /\ Strings.Contains (IndexURL (parseArgument arg)) "/" = false))
    /\ ((post = "" /\ Tag (parseArgument arg) = defaultTag)
        \/ post = ":" +:+ Tag (parseArgument arg))
    /\ Strings.Contains (Tag (parseArgument arg)) ":" = false.
Proof.
  unfold parseArgument.
  destruct (SplitN2_cases arg "/") as [[Hc ->]|(p0 & rest & Harg & -> & Hp0)].
  - destruct (name_and_tag arg) as (post & Happ & Hpost & Htag).
    cbv zeta in Happ, Hpost, Htag.
    destruct (1 <? length (Strings.Split arg ":"))%nat; simpl in *;
      exists "", post; rewrite append_nil_l;
      (split; [done|]); (split; [by left|]); by split.
  - destruct (Strings.Contains p0 ".") eqn:Hdot.
    + destruct (name_and_tag rest) as (post & Happ & Hpost & Htag).
      cbv zeta in Happ, Hpost, Htag.
      destruct (1 <? length (Strings.Split rest ":"))%nat; simpl in *;
        exists (p0 +:+ "/"), post;
        (split; [by rewrite Harg, append_assoc, <- Happ|]);
        (split; [by right|]); by split.
    + assert (Strings.Join [p0; rest] "/" = arg) as ->.
      { by rewrite Harg. }
      destruct (name_and_tag arg) as (post & Happ & Hpost & Htag).
      cbv zeta in Happ, Hpost, Htag.
      destruct (1 <? length (Strings.Split arg ":"))%nat; simpl in *;
        exists "", post; rewrite append_nil_l;
        (split; [done|]); (split; [by left|]); by split.
Qed.

(** X2. Printing a reference and parsing it gives the reference back: for an
    index with a dot and without slash, any image name and a tag without
    colon, [parseArgument] of [index/name:tag] is that index, name and tag;
    when the name has no colon either, [parseArgument] of [index/name] is the
    index, the name and the default tag. *)
Theorem parseArgument_round_trip (index name tag : string) :
  Strings.Contains index "." = true ->
  Strings.Contains index "/" = false ->
  Strings.Contains tag ":" = false ->
  parseArgument (index +:+ "/" +:+ name +:+ ":" +:+ tag)
  = {| IndexURL := index; ImageName := name; Tag := tag |}
  /\ (Strings.Contains name ":" = false ->
      parseArgument (index +:+ "/" +:+ name)
      = {| IndexURL := index; ImageName := name; Tag := defaultTag |}).
Proof.
  intros Hdot Hslash Htag. split.
  - unfold parseArgument.
    change (index +:+ "/" +:+ name +:+ ":" +:+ tag)
      with (index +:+ String "/" (name +:+ String ":" tag)).
    rewrite (SplitN2_app _ _ _ Hslash), Hdot, (Split_app _ _ _ Htag).
    pose proof (Split_not_nil name ":") as Hne.
    assert ((1 <? length (Strings.Split name ":" ++ [tag]))%nat = true) as ->.
    { rewrite length_app. simpl. apply Nat.ltb_lt.
      destruct (Strings.Split name ":"); [done|]. simpl. lia. }
    by rewrite init_parts_snoc, List.last_last, Join_Split.
  - intros Hname. unfold parseArgument.
    change (index +:+ "/" +:+ name) with (index +:+ String "/" name).
    rewrite (SplitN2_app _ _ _ Hslash), Hdot, (Split_no_sep _ _ Hname).
    reflexivity.
Qed.

Lemma parseArgument_round_trip_witness :
  parseArgument ("quay.io" +:+ "/" +:+ "coreos/etcd" +:+ ":" +:+ "v2.0.0")
  = {| IndexURL := "quay.io"; ImageName := "coreos/etcd"; Tag := "v2.0.0" |}
  /\ (Strings.Contains "coreos/etcd" ":" = false ->
      parseArgument ("quay.io" +:+ "/" +:+ "coreos/etcd")
      = {| IndexURL := "quay.io"; ImageName := "coreos/etcd";
           Tag := defaultTag |}).
Proof.
  apply (parseArgument_round_trip "quay.io" "coreos/etcd" "v2.0.0");
    reflexivity.
Defined.

(** ** The registry operations, case by case *)

Section Operations.
Variable E : Env.

Lemma URL_setAuthToken (req : Request) (token : list string) :
  URL (setAuthToken req token) = URL req.
Proof. unfold setAuthToken. by case_match. Qed.

Lemma GetRemoteLayer_run (imgID registry : string) (token : list string)
    (imgSize : Z) (w : World) :
  GetRemoteLayer E imgID registry token imgSize w
  = let url := registry +:+ "images/" +:+ imgID +:+ "/layer" in
    match url_err E url with
    | Some e => (Err e, w)
    | None =>
        let req := auth_request url token in
        let r := RoundTrip E (http_log w) req in
        (match r with
         | Ok res =>
             if negb (StatusCode res =? 200)
             then Err (http_error "." (StatusCode res) url)
             else Ok (RespBody res)
         | Err e => Err e
         | Panic p => Panic p
         end, add_exchange (req, r) w)
    end.
Proof.
  unfold GetRemoteLayer, mbind', lift, NewRequest, Do, auth_request.
  cbv zeta. destruct (url_err E _); [done|].
  destruct (RoundTrip E _ _) as [res| |]; try done.
  rewrite URL_setAuthToken. by destruct (negb _).
Qed.

Lemma GetAncestry_run (imgID registry : string) (token : list string)
    (w : World) :
  GetAncestry E imgID registry token w
  = let url := registry +:+ "images/" +:+ imgID +:+ "/ancestry" in
    match url_err E url with
    | Some e => (Err e, w)
    | None =>
        let req := auth_request url token in
        let r := RoundTrip E (http_log w) req in
        (match r with
         | Ok res =>
             if negb (StatusCode res =? 200)
             then Err (http_error "." (StatusCode res) url)
             else
               match body_err (RespBody res) with
               | Some err =>
                   Err ("Failed to read downloaded json: " +:+ err
                          +:+ " (" +:+ body_data (RespBody res) +:+ ")")
               | None =>
                   match json_strings E (body_data (RespBody res)) with
                   | Ok l => Ok l
                   | Err err => Err ("Error unmarshaling: " +:+ err)
                   | Panic p => Panic p
                   end
               end
         | Err e => Err e
         | Panic p => Panic p
         end, add_exchange (req, r) w)
    end.
Proof.
  unfold GetAncestry, mbind', lift, NewRequest, Do, auth_request.
  cbv zeta. destruct (url_err E _); [done|].
  destruct (RoundTrip E _ _) as [res| |]; try done.
  rewrite URL_setAuthToken. destruct (negb _); [done|].
  unfold ReadAll, wrap, lift. destruct (body_err _); [done|].
  by destruct (json_strings E _).
Qed.

Lemma GetImageIDFromTag_run (registry appName tag : string)
    (token : list string) (w : World) :
  GetImageIDFromTag E registry appName tag token w
  = let url := registry +:+ "repositories/" +:+ appName +:+ "/tags/"
                 +:+ tag in
    match url_err E url with
    | Some e => (Panic "invalid memory address or nil pointer dereference", w)
    | None =>
        let req := auth_request url token in
        let r := RoundTrip E (http_log w) req in
        (match r with
         | Ok res =>
             if negb (StatusCode res =? 200)
             then Err (http_error "." (StatusCode res) url)
             else
               match body_err (RespBody res) with
               | Some err => Err err
               | None =>
                   match json_string E (body_data (RespBody res)) with
                   | Ok l => Ok l
                   | Err err => Err ("Error unmarshaling: " +:+ err)
                   | Panic p => Panic p
                   end
               end
         | Err e => Err ("Failed to get Image ID: " +:+ e +:+ ", URL: " +:+ url)
         | Panic p => Panic p
         end, add_exchange (req, r) w)
    end.
Proof.
  unfold GetImageIDFromTag, NewRequest. cbv zeta.
  destruct (url_err E _); [done|].
  unfold mbind', wrap, Do, auth_request. rewrite !URL_setAuthToken.
  destruct (RoundTrip E _ _) as [res| |]; try done.
  destruct (negb _); [done|].
  unfold ReadAll, lift. destruct (body_err _); [done|].
  by destruct (json_string E _).
Qed.

End Operations.

(** X3. The registry operations accept the status 200 and no other: a
    response with any other status, a success status such as 201, 204 or 206
    included, makes each of them return the error of the text
    [HTTP code: <status>, URL: <url>] (with a full stop in place of the comma
    for the layer, the tag and the ancestry), after that one exchange. *)
Theorem only_status_200_is_accepted (E : Env) :
  (forall indexURL remote w resp,
     let req := repo_request indexURL remote in
     url_err E (URL req) = None ->
     RoundTrip E (http_log w) req = Ok resp ->
     StatusCode resp <> 200 ->
     GetRepoData E indexURL remote w
     = (Err ("HTTP code: " +:+ itoa (StatusCode resp) +:+ ", URL: "
               +:+ URL req),
        add_exchange (req, Ok resp) w))
  /\ (forall imgID registry token w resp,
        let url := registry +:+ "images/" +:+ imgID +:+ "/json" in
        url_err E url = None ->
        RoundTrip E (http_log w) (auth_request url token) = Ok resp ->
        StatusCode resp <> 200 ->
        GetRemoteImageJSON E imgID registry token w
        = (Err ("HTTP code: " +:+ itoa (StatusCode resp) +:+ ", URL: "
                  +:+ url),
           add_exchange (auth_request url token, Ok resp) w))
  /\ (forall imgID registry token imgSize w resp,
        let url := registry +:+ "images/" +:+ imgID +:+ "/layer" in
        url_err E url = None ->
        RoundTrip E (http_log w) (auth_request url token) = Ok resp ->
        StatusCode resp <> 200 ->
        GetRemoteLayer E imgID registry token imgSize w
        = (Err ("HTTP code: " +:+ itoa (StatusCode resp) +:+ ". URL: "
                  +:+ url),
           add_exchange (auth_request url token, Ok resp) w))
  /\ (forall registry appName tag token w resp,
        let url := registry +:+ "repositories/" +:+ appName +:+ "/tags/"
                     +:+ tag in
        url_err E url = None ->
        RoundTrip E (http_log w) (auth_request url token) = Ok resp ->
        StatusCode resp <> 200 ->
        GetImageIDFromTag E registry appName tag token w
        = (Err ("HTTP code: " +:+ itoa (StatusCode resp) +:+ ". URL: "
                  +:+ url),
           add_exchange (auth_request url token, Ok resp) w))
  /\ (forall imgID registry token w resp,
        let url := registry +:+ "images/" +:+ imgID +:+ "/ancestry" in
        url_err E url = None ->
        RoundTrip E (http_log w) (auth_request url token) = Ok resp ->
        StatusCode resp <> 200 ->
        GetAncestry E imgID registry token w
        = (Err ("HTTP code: " +:+ itoa (StatusCode resp) +:+ ". URL: "
                  +:+ url),
           add_exchange (auth_request url token, Ok resp) w)).
Proof.
  assert (Hneg : forall c, c <> 200 -> negb (c =? 200) = true).
  { intros c Hc. apply negb_true_iff, Z.eqb_neq, Hc. }
  repeat split; intros;
    repeat match goal with x := _ |- _ => subst x end.
  - rewrite GetRepoData_run. cbv zeta. rewrite H, H0, Hneg by done. done.
  - rewrite GetRemoteImageJSON_run. cbv zeta. rewrite H, H0, Hneg by done.
    by rewrite URL_auth_request.
  - rewrite GetRemoteLayer_run. cbv zeta. by rewrite H, H0, Hneg by done.
  - rewrite GetImageIDFromTag_run. cbv zeta. by rewrite H, H0, Hneg by done.
  - rewrite GetAncestry_run. cbv zeta. by rewrite H, H0, Hneg by done.
Qed.

Example status_204_is_rejected :
  let E := with_RoundTrip (fun _ _ => Ok (Sample.resp 204 ∅ "")) Sample.env in
  fst (GetAncestry E "l2" Sample.reg ["tok"] Sample.world)
  = Err "HTTP code: 204. URL: https://registry-1.docker.io/v1/images/l2/ancestry".
Proof. vm_compute. reflexivity. Qed.

(** X4. When [http.NewRequest] rejects the URL, no request is sent: the
    repository, image JSON, layer and ancestry operations return its error
    and leave the world as it is, while the tag resolution, which builds its
    message from the request that was not made, panics. *)
Theorem rejected_URL_sends_nothing (E : Env) (e : error) :
  (forall indexURL remote w,
     url_err E (URL (repo_request indexURL remote)) = Some e ->
     GetRepoData E indexURL remote w = (Err e, w))
  /\ (forall imgID registry token w,
        url_err E (registry +:+ "images/" +:+ imgID +:+ "/json") = Some e ->
        GetRemoteImageJSON E imgID registry token w = (Err e, w))
  /\ (forall imgID registry token imgSize w,
        url_err E (registry +:+ "images/" +:+ imgID +:+ "/layer") = Some e ->
        GetRemoteLayer E imgID registry token imgSize w = (Err e, w))
  /\ (forall imgID registry token w,
        url_err E (registry +:+ "images/" +:+ imgID +:+ "/ancestry") = Some e ->
        GetAncestry E imgID registry token w = (Err e, w))
  /\ (forall registry appName tag token w,
        url_err E (registry +:+ "repositories/" +:+ appName +:+ "/tags/"
                     +:+ tag) = Some e ->
        exists msg,
          GetImageIDFromTag E registry appName tag token w = (Panic msg, w)).
Proof.
  repeat split; intros.
  - rewrite GetRepoData_run. cbv zeta. by rewrite H.
  - rewrite GetRemoteImageJSON_run. cbv zeta. by rewrite H.
  - rewrite GetRemoteLayer_run. cbv zeta. by rewrite H.
  - rewrite GetAncestry_run. cbv zeta. by rewrite H.
  - rewrite GetImageIDFromTag_run. cbv zeta. rewrite H. by eexists.
Qed.

(** X5. When the round trip itself fails, the repository, image JSON, layer
    and ancestry operations return the error of the transport as it is; the
    tag resolution returns it between [Failed to get Image ID: ] and the
    URL.  The failed exchange is the only one made. *)
Theorem transport_error_is_returned (E : Env) (e : error) :
  (forall indexURL remote w,
     let req := repo_request indexURL remote in
     url_err E (URL req) = None ->
     RoundTrip E (http_log w) req = Err e ->
     GetRepoData E indexURL remote w = (Err e, add_exchange (req, Err e) w))
  /\ (forall imgID registry token w,
        let url := registry +:+ "images/" +:+ imgID +:+ "/json" in
        url_err E url = None ->
        RoundTrip E (http_log w) (auth_request url token) = Err e ->
        GetRemoteImageJSON E imgID registry token w
        = (Err e, add_exchange (auth_request url token, Err e) w))
  /\ (forall imgID registry token imgSize w,
        let url := registry +:+ "images/" +:+ imgID +:+ "/layer" in
        url_err E url = None ->
        RoundTrip E (http_log w) (auth_request url token) = Err e ->
        GetRemoteLayer E imgID registry token imgSize w
        = (Err e, add_exchange (auth_request url token, Err e) w))
  /\ (forall imgID registry token w,
        let url := registry +:+ "images/" +:+ imgID +:+ "/ancestry" in
        url_err E url = None ->
        RoundTrip E (http_log w) (auth_request url token) = Err e ->
        GetAncestry E imgID registry token w
        = (Err e, add_exchange (auth_request url token, Err e) w))
  /\ (forall registry appName tag token w,
        let url := registry +:+ "repositories/" +:+ appName +:+ "/tags/"
                     +:+ tag in
        url_err E url = None ->
        RoundTrip E (http_log w) (auth_request url token) = Err e ->
        GetImageIDFromTag E registry appName tag token w
        = (Err ("Failed to get Image ID: " +:+ e +:+ ", URL: " +:+ url),
           add_exchange (auth_request url token, Err e) w)).
Proof.
  repeat split; intros;
    repeat match goal with x := _ |- _ => subst x end.
  - rewrite GetRepoData_run. cbv zeta. by rewrite H, H0.
  - rewrite GetRemoteImageJSON_run. cbv zeta. by rewrite H, H0.
  - rewrite GetRemoteLayer_run. cbv zeta. by rewrite H, H0.
  - rewrite GetAncestry_run. cbv zeta. by rewrite H, H0.
  - rewrite GetImageIDFromTag_run. cbv zeta. by rewrite H, H0.
Qed.

(** X6. With status 200 and a body read without error, the size that
    [GetRemoteImageJSON] returns beside the body is the number
    [strconv.Atoi] reads in the first value of the [X-Docker-Size] header
    when that value is not empty; and when [strconv.Atoi] rejects the value,
    the whole fetch fails with its error although the JSON arrived. *)
Theorem GetRemoteImageJSON_size_header (E : Env) (imgID registry : string)
    (token : list string) (w : World) (resp : Response) :
  let url := registry +:+ "images/" +:+ imgID +:+ "/json" in
  url_err E url = None ->
  RoundTrip E (http_log w) (auth_request url token) = Ok resp ->
  StatusCode resp = 200 ->
  body_err (RespBody resp) = None ->
  Header_Get (RespHeader resp) "X-Docker-Size" <> "" ->
  (forall n,
     Atoi E (Header_Get (RespHeader resp) "X-Docker-Size") = Ok n ->
     fst (GetRemoteImageJSON E imgID registry token w)
     = Ok (body_data (RespBody resp), n))
  /\ (forall e,
        Atoi E (Header_Get (RespHeader resp) "X-Docker-Size") = Err e ->
        fst (GetRemoteImageJSON E imgID registry token w) = Err e).
Proof.
  intros url Hu Hr Hc Hb Hs. rewrite GetRemoteImageJSON_run. cbv zeta.
  fold url. rewrite Hu, Hr. simpl. rewrite Hc. simpl.
  rewrite (eqb_empty_false _ Hs). simpl.
  split; intros x Hx; rewrite Hx; simpl; [by rewrite Hb|done].
Qed.

Lemma GetRemoteImageJSON_size_header_witness :
  let resp := Sample.resp 200 {["X-Docker-Size" := ["2048"]]} "json1" in
  let E := with_RoundTrip (fun _ _ => Ok resp) Sample.env in
  (forall n,
     Atoi E (Header_Get (RespHeader resp) "X-Docker-Size") = Ok n ->
     fst (GetRemoteImageJSON E "l1" Sample.reg ["tok"] Sample.world)
     = Ok (body_data (RespBody resp), n))
  /\ (forall e,
        Atoi E (Header_Get (RespHeader resp) "X-Docker-Size") = Err e ->
        fst (GetRemoteImageJSON E "l1" Sample.reg ["tok"] Sample.world)
        = Err e).
Proof.
  cbv zeta.
  apply (GetRemoteImageJSON_size_header
           (with_RoundTrip
              (fun _ _ => Ok (Sample.resp 200 {["X-Docker-Size" := ["2048"]]}
                                "json1")) Sample.env)
           "l1" Sample.reg ["tok"] Sample.world
           (Sample.resp 200 {["X-Docker-Size" := ["2048"]]} "json1"));
    try reflexivity.
  unfold Header_Get. simpl. by rewrite lookup_singleton_eq.
Defined.

(** ** More on [GenerateManifest] *)

(** X7. [GenerateManifest] reads two things of the layer data, its identifier
    and the command list of its configuration: two layers that agree on
    these give the same result, whatever their parent, author, dates and
    other configuration fields are, and a configuration with an empty
    command list counts as no configuration. *)
Theorem GenerateManifest_reads_ID_and_Cmd (E : Env) (d1 d2 : DockerImageData)
    (dockerURL : DockerURL) (parentImageID : string) :
  ID d1 = ID d2 ->
  layer_command d1 = layer_command d2 ->
  GenerateManifest E d1 dockerURL parentImageID
  = GenerateManifest E d2 dockerURL parentImageID.
Proof.
  unfold layer_command, GenerateManifest. intros -> Hcmd.
  assert (Happ :
    match DockerConfig d1 with
    | Some c => if (0 <? length (Cmd c))%nat
                then Some {| Exec := Cmd c; User := "0"; Group := "0" |}
                else None
    | None => None
    end
    = match DockerConfig d2 with
      | Some c => if (0 <? length (Cmd c))%nat
                  then Some {| Exec := Cmd c; User := "0"; Group := "0" |}
                  else None
      | None => None
      end).
  { destruct (DockerConfig d1) as [c1|], (DockerConfig d2) as [c2|];
      simpl in Hcmd.
    - by rewrite Hcmd.
    - by rewrite Hcmd.
    - by rewrite <- Hcmd.
    - done. }
  by rewrite Happ.
Qed.

Lemma GenerateManifest_reads_ID_and_Cmd_witness :
  let d1 := Sample.layer "l1" "" None in
  let d2 := {| ID := "l1"; Parent := "l0"; Comment := "rebuilt";
               Created := "2015-01-15"; Container := "c0ffee";
               DockerVersion := "1.4.1"; Author := "someone";
               DockerConfig :=
                 Some {| Hostname := "h"; ConfigUser := "nobody";
                         ConfigEnv := []; Cmd := [];
                         Entrypoint := ["/init"]; WorkingDir := "/srv" |};
               Architecture := "arm"; OS := "linux"; Checksum := "x" |} in
  GenerateManifest Sample.env d1 (parseArgument "busybox") "sha512-l0"
  = GenerateManifest Sample.env d2 (parseArgument "busybox") "sha512-l0".
Proof.
  cbv zeta.
  apply (GenerateManifest_reads_ID_and_Cmd Sample.env); reflexivity.
Defined.

(** X8. Provided the library accepts the three constants of the program (the
    names [layer] and [version] and the schema version), [GenerateManifest]
    succeeds exactly when the name [indexHost/imageName] is accepted and the
    parent identifier is empty or is accepted as a hash; a rejected name gives
    the error of the name, whatever the parent, and a rejected hash gives the
    error of the hash.  A manifest it returns has the kind [ImageManifest],
    the version 0.1.1 and, when it has an app, the user and group ["0"]. *)
Theorem GenerateManifest_succeeds_iff (E : Env) (layerData : DockerImageData)
    (dockerURL : DockerURL) (parentImageID : string) :
  acname_err E "layer" = None ->
  acname_err E "version" = None ->
  semver_err E schemaVersion = None ->
  let appURL := IndexURL dockerURL +:+ "/" +:+ ImageName dockerURL in
  let r := GenerateManifest E layerData dockerURL parentImageID in
  (is_ok r = true
   <-> acname_err E appURL = None
       /\ (parentImageID = "" \/ is_ok (NewHash E parentImageID) = true))
  /\ (forall e, acname_err E appURL = Some e -> r = Err e)
  /\ (forall e, acname_err E appURL = None -> parentImageID <> "" ->
                NewHash E parentImageID = Err e -> r = Err e)
  /\ (forall m, r = Ok m ->
        ACKind m = "ImageManifest" /\ ACVersion m = "0.1.1"
        /\ forall a, ManifestApp m = Some a -> User a = "0" /\ Group a = "0").
Proof.
  intros Hl Hv Hs appURL r. subst appURL r.
  unfold GenerateManifest, NewACName, NewSemVer. rewrite Hl, Hv, Hs.
  destruct (acname_err E (_ +:+ _)) as [e0|]; simpl.
  { split; [split; [done|by intros [? _]]|].
    split; [by intros e [= ->]|]. split; done. }
  destruct (String.eqb parentImageID "") eqn:Hp; simpl.
  - apply String.eqb_eq in Hp.
    split; [split; [by auto|done]|]. split; [done|]. split; [done|].
    intros m [= <-]. simpl. split; [done|]. split; [done|].
    intros a. destruct (DockerConfig layerData) as [c|]; [|done].
    destruct (0 <? length (Cmd c))%nat; [|done]. by intros [= <-].
  - apply String.eqb_neq in Hp.
    destruct (NewHash E parentImageID) as [h|e1|p1]; simpl.
    + split; [split; [by auto|done]|]. split; [done|]. split; [done|].
      intros m [= <-]. simpl. split; [done|]. split; [done|].
      intros a. destruct (DockerConfig layerData) as [c|]; [|done].
      destruct (0 <? length (Cmd c))%nat; [|done]. by intros [= <-].
    + split; [split; [done|by intros [_ [?|?]]]|]. split; [done|].
      split; [by intros e _ _ [= ->]|done].
    + split; [split; [done|by intros [_ [?|?]]]|]. split; [done|].
      split; done.
Qed.

Lemma GenerateManifest_succeeds_iff_witness :
  let layerData := Sample.layer "l2" "l1" (Some Sample.sh) in
  let dockerURL := parseArgument "busybox" in
  let appURL := IndexURL dockerURL +:+ "/" +:+ ImageName dockerURL in
  let r := GenerateManifest Sample.env layerData dockerURL "l1" in
  (is_ok r = true
   <-> acname_err Sample.env appURL = None
       /\ ("l1" = "" \/ is_ok (NewHash Sample.env "l1") = true))
  /\ (forall e, acname_err Sample.env appURL = Some e -> r = Err e)
  /\ (forall e, acname_err Sample.env appURL = None -> "l1" <> "" ->
                NewHash Sample.env "l1" = Err e -> r = Err e)
  /\ (forall m, r = Ok m ->
        ACKind m = "ImageManifest" /\ ACVersion m = "0.1.1"
        /\ forall a, ManifestApp m = Some a -> User a = "0" /\ Group a = "0").
Proof.
  cbv zeta.
  apply (GenerateManifest_succeeds_iff Sample.env
           (Sample.layer "l2" "l1" (Some Sample.sh))
           (parseArgument "busybox") "l1"); reflexivity.
Defined.

(** ** What a computation changes *)

Section Steps.
Context {X : Type} (R : X -> X -> Prop) (f : World -> X).
Context (R_refl : forall x, R x x).
Context (R_trans : forall x y z, R x y -> R y z -> R x z).

Lemma steps_ret {A} (a : A) : steps R f (ret a).
Proof. intros w. apply R_refl. Qed.

Lemma steps_fail {A} (e : error) : steps R f (@fail A e).
Proof. intros w. apply R_refl. Qed.

Lemma steps_panic {A} (p : string) : steps R f (@panic A p).
Proof. intros w. apply R_refl. Qed.

Lemma steps_lift {A} (r : res A) : steps R f (lift r).
Proof. intros w. apply R_refl. Qed.

Lemma steps_bind {A B} (m : M A) (k : A -> M B) :
  steps R f m -> (forall a, steps R f (k a)) -> steps R f (mbind' m k).
Proof.
  intros Hm Hk w. unfold mbind'. specialize (Hm w).
  destruct (m w) as [[a|e|p] w1]; simpl in *; try done.
  eapply R_trans; [exact Hm|]. apply Hk.
Qed.

Lemma steps_wrap {A} (g : error -> error) (m : M A) :
  steps R f m -> steps R f (wrap g m).
Proof.
  intros Hm w. unfold wrap. specialize (Hm w).
  by destruct (m w) as [[a|e|p] w1].
Qed.

Lemma steps_defer {A} (g : World -> World) (m : M A) :
  (forall w, R (f w) (f (g w))) -> steps R f m -> steps R f (defer g m).
Proof.
  intros Hg Hm w. unfold defer. specialize (Hm w).
  destruct (m w) as [r w1]. simpl in *. eapply R_trans; [exact Hm|]. apply Hg.
Qed.

Lemma steps_same {A} (m : M A) :
  (forall w, f (snd (m w)) = f w) -> steps R f m.
Proof. intros H w. rewrite H. apply R_refl. Qed.

End Steps.

Lemma keep_bind {X A B} (f : World -> X) (m : M A) (k : A -> M B) :
  steps eq f m -> (forall a, steps eq f (k a)) -> steps eq f (mbind' m k).
Proof. apply steps_bind. intros; congruence. Qed.

Lemma keep_ret {X A} (f : World -> X) (a : A) : steps eq f (ret a).
Proof. by apply steps_ret. Qed.

Lemma keep_lift {X A} (f : World -> X) (r : res A) : steps eq f (lift r).
Proof. by apply steps_lift. Qed.

Section StoreFacts.
Variable E : Env.

Lemma store_TempDir dir pfx : steps eq store (TempDir E dir pfx).
Proof. keeps TempDir. Qed.

Lemma store_MkdirAll path : steps eq store (MkdirAll E path).
Proof. keeps MkdirAll. Qed.

Lemma store_os_Untar layer dest : steps eq store (os_Untar E layer dest).
Proof. keeps os_Untar. Qed.

Lemma store_Create op path : steps eq store (Create E op path).
Proof. keeps Create. Qed.

Lemma store_Write f b : steps eq store (Write E f b).
Proof. keeps Write. Qed.

Lemma store_ReadFile op path : steps eq store (ReadFile E op path).
Proof. keeps ReadFile. Qed.

Lemma store_iw_Close target im entries :
  steps eq store (iw_Close E target im entries).
Proof. keeps iw_Close. Qed.

Lemma store_index0 s : steps eq store (index0 s).
Proof. destruct s; done. Qed.

Lemma store_network {A} (m : M A) : network_only m -> steps eq store m.
Proof. intros H w. by destruct (H w) as [_ ->]. Qed.

Lemma store_BuildACI imageID outDir targetDir :
  steps eq store (BuildACI E imageID outDir targetDir).
Proof.
  unfold BuildACI.
  apply keep_bind; [apply steps_wrap, store_Create|]. intros fh.
  apply keep_bind; [by apply steps_wrap|]. intros _.
  apply keep_bind; [apply steps_wrap, store_ReadFile|]. intros b.
  apply keep_bind; [apply steps_wrap, keep_lift|]. intros im.
  apply keep_bind; [by apply steps_wrap|]. intros iw.
  apply keep_bind; [apply steps_wrap, store_iw_Close|]. intros _.
  apply keep_ret.
Qed.

Lemma store_grows_bind {A} (m : M A) (k : A -> M string) :
  steps eq store m -> (forall a, store_grows E (k a)) ->
  store_grows E (mbind' m k).
Proof.
  intros Hm Hk w. unfold mbind'. specialize (Hm w).
  destruct (m w) as [[a|e|p] w1]; simpl in *; [|by left..].
  specialize (Hk a w1). rewrite Hm. exact Hk.
Qed.

Lemma store_grows_defer (g : World -> World) (m : M string) :
  (forall w, store (g w) = store w) -> store_grows E m ->
  store_grows E (defer g m).
Proof.
  intros Hg Hm w. unfold defer. specialize (Hm w).
  destruct (m w) as [r w1]. simpl in *. by rewrite Hg.
Qed.

Lemma store_grows_WriteACI (aciFile : FileData) :
  store_grows E
    (mbind' (wrap (fun err => "Error writing ACI: " +:+ err)
               (WriteACI E aciFile)) (fun id => ret id)).
Proof.
  intros w. unfold mbind', wrap, WriteACI, ret.
  destruct aciFile as [|m|a]; simpl;
    try (right; split; [by eexists|by eexists]).
  destruct (WriteACI_key E (store w) a); simpl.
  - by exists a.
  - right. split; [by eexists|by eexists].
  - right. split; [done|by eexists].
Qed.

Lemma ImportLayer_store_grows (layerID : string) (repoData : RepoData)
    (dockerURL : DockerURL) (parentImageID : string) :
  store_grows E (ImportLayer E layerID repoData dockerURL parentImageID).
Proof.
  unfold ImportLayer.
  apply store_grows_bind; [apply steps_wrap, store_TempDir|]. intros tmpDir.
  apply store_grows_defer; [done|].
  apply store_grows_bind; [apply steps_wrap, store_MkdirAll|]. intros _.
  apply store_grows_bind; [apply store_index0|]. intros endpoint.
  apply store_grows_bind.
  { apply steps_wrap, store_network, network_only_GetRemoteImageJSON. }
  intros js.
  apply store_grows_bind; [apply steps_wrap, keep_lift|]. intros layerData.
  apply store_grows_bind; [apply store_index0|]. intros endpoint'.
  apply store_grows_bind.
  { apply steps_wrap, store_network, network_only_GetRemoteLayer. }
  intros layer.
  apply store_grows_bind; [apply steps_wrap, store_os_Untar|]. intros _.
  apply store_grows_bind; [apply steps_wrap, keep_lift|]. intros manifest.
  apply store_grows_bind; [apply keep_lift|]. intros manifestBytes.
  apply store_grows_bind; [apply steps_wrap, store_Create|]. intros f.
  apply store_grows_bind; [apply store_Write|]. intros _.
  apply store_grows_bind; [apply steps_wrap, store_BuildACI|]. intros aciPath.
  apply store_grows_bind; [apply steps_wrap, store_ReadFile|]. intros aciFile.
  apply store_grows_WriteACI.
Qed.

End StoreFacts.

(** X9. [ImportLayer] takes nothing out of the store and puts nothing in
    before the ingestion.  When it returns an identifier, the store has
    gained exactly one image, filed last, under that identifier.  When it
    fails, either the store is as it was, or the failure is the one of the
    ingestion (an error that begins with [Error writing ACI: ], or a panic)
    and the store has gained what the failed ingestion left in it: the
    program does not undo a half-made ingestion. *)
Theorem ImportLayer_store_outcome (E : Env) (layerID : string)
    (repoData : RepoData) (dockerURL : DockerURL) (parentImageID : string)
    (w : World) :
  let run := ImportLayer E layerID repoData dockerURL parentImageID w in
  match fst run with
  | Ok id => exists a : ACI, store (snd run) = store w ++ [(id, a)]
  | r =>
      store (snd run) = store w
      \/ (ingest_failed r
          /\ exists f : FileData,
               store (snd run) = store w ++ WriteACI_left E (store w) f)
  end.
Proof.
  intros run. subst run.
  pose proof (ImportLayer_store_grows E layerID repoData dockerURL
                parentImageID w) as H.
  unfold store_step in H.
  by destruct (fst (ImportLayer E layerID repoData dockerURL parentImageID w)).
Qed.

(** ** The result and the failures of the loop *)

Lemma picked_absent (appImageID : string) (layers ids : list string)
    (acc : string) :
  ~ In appImageID layers -> picked appImageID layers ids acc = acc.
Proof.
  revert ids acc. induction layers as [|l ls IH]; intros ids acc Hn; [done|].
  destruct ids as [|id ids]; [done|]. simpl.
  destruct (String.eqb l appImageID) eqn:Hl.
  - apply String.eqb_eq in Hl. exfalso. apply Hn. by left.
  - apply IH. intros Hin. apply Hn. by right.
Qed.

Lemma picked_last (appImageID : string) (ls ids : list string)
    (id acc : string) :
  length ids = length ls ->
  picked appImageID (ls ++ [appImageID]) (ids ++ [id]) acc = id.
Proof.
  revert ids acc. induction ls as [|l ls IH]; intros ids acc Hlen.
  - destruct ids; [|done]. simpl. by rewrite String.eqb_refl.
  - destruct ids as [|i ids]; [done|]. simpl. apply IH. simpl in Hlen. lia.
Qed.

Lemma last_any_default (y d1 d2 : string) (l : list string) :
  List.last (y :: l) d1 = List.last (y :: l) d2.
Proof.
  revert y. induction l as [|z l IH]; intros y; [done|].
  change (List.last (z :: l) d1 = List.last (z :: l) d2). apply IH.
Qed.

Lemma last_cons_default (x d : string) (l : list string) :
  List.last (x :: l) d = List.last l x.
Proof.
  destruct l as [|y l]; [done|].
  change (List.last (y :: l) d = List.last (y :: l) x).
  apply last_any_default.
Qed.

Section LoopFacts.
Variable E : Env.
Variables (rd : RepoData) (url : DockerURL) (appImageID : string).
Variable ancestry : list string.

Lemma import_loop_picks (n : nat) :
  forall (app parent : string) (w w' : World) (out : string),
    (n <= length ancestry)%nat ->
    import_loop E rd url appImageID ancestry n app parent w = (Ok out, w') ->
    exists new,
      length new = n
      /\ store w' = store w ++ new
      /\ out = picked appImageID (rev (take n ancestry)) (List.map fst new) app.
Proof.
  induction n as [|i IH]; intros app parent w w' out Hn; simpl.
  - intros [= <- <-]. exists []. by rewrite app_nil_r.
  - destruct (lookup_lt_is_Some_2 ancestry i) as [layerID Hl]; [lia|].
    rewrite Hl. intros H.
    apply bind_Ok_inv in H as (id & w1 & H1 & H).
    apply IH in H as (new & Hlen & Hst & Hout); [|lia].
    pose proof (ImportLayer_store_grows E layerID rd url parent w) as Hg.
    rewrite H1 in Hg. simpl in Hg. destruct Hg as [a Ha].
    exists ((id, a) :: new).
    rewrite (take_S_r _ _ _ Hl), rev_app_distr. simpl.
    split; [by rewrite Hlen|]. split; [|done].
    by rewrite Hst, Ha, <- app_assoc.
Qed.

Lemma import_loop_stops (n : nat) :
  forall (app parent : string) (w w' : World) (r : res string),
    (n <= length ancestry)%nat ->
    import_loop E rd url appImageID ancestry n app parent w = (r, w') ->
    is_ok r = false ->
    exists before layerID todo new wk,
      rev (take n ancestry) = before ++ layerID :: todo
      /\ imported E rd url parent w before new wk
      /\ ImportLayer E layerID rd url
           (List.last (List.map fst new) parent) wk = (r, w')
      /\ store wk = store w ++ new
      /\ store_step E r (store wk) (store w').
Proof.
  induction n as [|i IH]; intros app parent w w' r Hn; simpl.
  - by intros [= <- <-].
  - destruct (lookup_lt_is_Some_2 ancestry i) as [layerID Hl]; [lia|].
    rewrite Hl, (take_S_r _ _ _ Hl), rev_app_distr. simpl.
    unfold mbind'.
    destruct (ImportLayer E layerID rd url parent w) as [[id|e|p] w1] eqn:H1.
    + intros H Hr.
      apply IH in H
        as (before & l & todo & new & wk & Hrev & Hch & Hl' & Hst & Hstep);
        [|lia|done].
      destruct (ImportLayer_Ok_inv _ _ _ _ _ _ _ _ H1)
        as (layerData & m & entries & Hm & Hs1).
      exists (layerID :: before), l, todo,
        ((id, {| aci_manifest := m; aci_entries := entries |}) :: new), wk.
      split; [by rewrite Hrev|]. split; [|split; [|split; [|exact Hstep]]].
      * eapply imported_cons; [exact H1|exact Hs1| |exact Hch].
        simpl. by eapply GenerateManifest_depends_on.
      * change (List.map fst ((id, {| aci_manifest := m;
                                      aci_entries := entries |}) :: new))
          with (id :: List.map fst new).
        by rewrite last_cons_default.
      * by rewrite Hst, Hs1, <- app_assoc.
    + intros [= <- <-] _.
      exists [], layerID, (rev (take i ancestry)), [], w.
      split; [done|]. split; [constructor|]. split; [done|].
      split; [by rewrite app_nil_r|].
      pose proof (ImportLayer_store_grows E layerID rd url parent w) as Hg.
      by rewrite H1 in Hg.
    + intros [= <- <-] _.
      exists [], layerID, (rev (take i ancestry)), [], w.
      split; [done|]. split; [constructor|]. split; [done|].
      split; [by rewrite app_nil_r|].
      pose proof (ImportLayer_store_grows E layerID rd url parent w) as Hg.
      by rewrite H1 in Hg.
Qed.

End LoopFacts.

(** X11. When the import loop ends without error, the identifier it hands
    back for printing is the one under which the last processed layer equal
    to the requested image was stored.  When the requested image heads the
    ancestry list, as the registry sends it, this is the identifier of the
    last import; when the list does not contain the requested image (an
    empty list for one), the run still succeeds and the identifier is the
    empty string. *)
Theorem import_loop_result (E : Env) (rd : RepoData) (url : DockerURL)
    (appImageID : string) (ancestry : list string) (w w' : World)
    (out : string) :
  import_loop E rd url appImageID ancestry (length ancestry) "" "" w
  = (Ok out, w') ->
  exists new : list (string * ACI),
    store w' = store w ++ new
    /\ length new = length ancestry
    /\ out = picked appImageID (rev ancestry) (List.map fst new) ""
    /\ (~ In appImageID ancestry -> out = "")
    /\ (forall rest, ancestry = appImageID :: rest ->
                     List.last (List.map fst new) "" = out).
Proof.
  intros H. apply import_loop_picks in H as (new & Hlen & Hst & Hout); [|done].
  rewrite firstn_all in Hout. exists new.
  split; [done|]. split; [done|]. split; [done|]. split.
  - intros Hn. rewrite Hout. apply picked_absent.
    intros Hin. apply Hn. by apply in_rev.
  - intros rest ->. simpl in Hlen, Hout.
    destruct (exists_last (l := new)) as (new' & [id a] & ->).
    { intros ->. done. }
    rewrite length_app in Hlen. simpl in Hlen.
    rewrite List.map_app in *. simpl in *. rewrite List.last_last.
    rewrite Hout. symmetry. apply picked_last.
    rewrite length_map, length_rev. lia.
Qed.

Lemma import_loop_result_witness :
  let run := import_loop Sample.env Sample.repo (parseArgument "busybox")
               "l2" ["l2"; "l1"] 2 "" "" Sample.world in
  fst run = Ok "sha512-l2"
  /\ exists new : list (string * ACI),
       store (snd run) = store Sample.world ++ new
       /\ length new = length ["l2"; "l1"]
       /\ "sha512-l2" = picked "l2" (rev ["l2"; "l1"]) (List.map fst new) ""
       /\ (~ In "l2" ["l2"; "l1"] -> "sha512-l2" = "")
       /\ (forall rest, ["l2"; "l1"] = "l2" :: rest ->
                        List.last (List.map fst new) "" = "sha512-l2").
Proof.
  intros run.
  assert (Hrun : run = (Ok "sha512-l2", snd run)) by (vm_compute; reflexivity).
  split; [by rewrite Hrun|].
  exact (import_loop_result Sample.env Sample.repo (parseArgument "busybox")
           "l2" ["l2"; "l1"] Sample.world (snd run) "sha512-l2" Hrun).
Defined.

Example requested_image_not_in_ancestry :
  fst (import_loop Sample.env Sample.repo (parseArgument "busybox")
         "l3" ["l2"; "l1"] 2 "" "" Sample.world) = Ok "".
Proof. vm_compute. reflexivity. Qed.

(** X12. The loop does not undo what it has done: when it ends with an error
    (or a panic), this is what the import of one layer returned; the layers
    before it in processing order were imported, each with the identifier of
    the one before as parent, and the layers after it were not touched.  The
    images of the layers before it are still in the store, where they are
    followed by nothing, or, when it is the ingestion that failed, by what
    the failed ingestion left. *)
Theorem import_loop_keeps_earlier_layers (E : Env) (rd : RepoData)
    (url : DockerURL) (appImageID : string) (ancestry : list string)
    (w w' : World) (r : res string) :
  import_loop E rd url appImageID ancestry (length ancestry) "" "" w
  = (r, w') ->
  is_ok r = false ->
  exists (before : list string) (layerID : string) (todo : list string)
         (new : list (string * ACI)) (wk : World),
    rev ancestry = before ++ layerID :: todo
    /\ imported E rd url "" w before new wk
    /\ length new = length before
    /\ ImportLayer E layerID rd url (List.last (List.map fst new) "") wk
       = (r, w')
    /\ store wk = store w ++ new
    /\ (store w' = store w ++ new
        \/ (ingest_failed r
            /\ exists f : FileData,
                 store w'
                 = (store w ++ new) ++ WriteACI_left E (store w ++ new) f)).
Proof.
  intros H Hr.
  apply import_loop_stops in H
    as (before & l & todo & new & wk & Hrev & Hch & Hl & Hst & Hstep);
    [|done|done].
  rewrite firstn_all in Hrev. exists before, l, todo, new, wk.
  split; [done|]. split; [done|]. split; [by eapply imported_layers|].
  split; [done|]. split; [done|].
  rewrite <- Hst. unfold store_step in Hstep. by destruct r.
Qed.

Lemma import_loop_keeps_earlier_layers_witness :
  let E := with_RoundTrip Sample.round_trip_l2_missing Sample.env in
  let run := import_loop E Sample.repo (parseArgument "busybox")
               "l2" ["l2"; "l1"] 2 "" "" Sample.world in
  List.map fst (store (snd run)) = ["sha512-l1"]
  /\ exists (before : list string) (layerID : string) (todo : list string)
            (new : list (string * ACI)) (wk : World),
       rev ["l2"; "l1"] = before ++ layerID :: todo
       /\ imported E Sample.repo (parseArgument "busybox") "" Sample.world
            before new wk
       /\ length new = length before
       /\ ImportLayer E layerID Sample.repo (parseArgument "busybox")
            (List.last (List.map fst new) "") wk
          = (fst run, snd run)
       /\ store wk = store Sample.world ++ new
       /\ (store (snd run) = store Sample.world ++ new
           \/ (ingest_failed (fst run)
               /\ exists f : FileData,
                    store (snd run)
                    = (store Sample.world ++ new)
                      ++ WriteACI_left E (store Sample.world ++ new) f)).
Proof.
  intros E run. split; [vm_compute; reflexivity|].
  apply (import_loop_keeps_earlier_layers E Sample.repo
           (parseArgument "busybox") "l2" ["l2"; "l1"] Sample.world
           (snd run) (fst run)).
  - apply surjective_pairing.
  - vm_compute. reflexivity.
Defined.

(** ** The requests of a successful run *)

Lemma auth_request_eq (url : string) (token : list string) :
  auth_request url token
  = {| Method := "GET"; URL := url;
       ReqHeader := {["Authorization" :=
                        ["Token " +:+ Strings.Join token ","]]} |}.
Proof.
  unfold auth_request. rewrite setAuthToken_unset; [|done].
  simpl. unfold Header_Set. by rewrite insert_empty.
Qed.

Section RunLog.
Variable E : Env.

Lemma quiet_at {A} (m : M A) (w w1 : World) (r : res A) :
  quiet m -> m w = (r, w1) -> http_log w1 = http_log w.
Proof. intros Hq Hm. specialize (Hq w). by rewrite Hm in Hq. Qed.

Lemma GetRemoteImageJSON_Ok_log imgID registry token w w' a :
  GetRemoteImageJSON E imgID registry token w = (Ok a, w') ->
  exists x,
    http_log w' = http_log w ++ [x]
    /\ fst x = auth_request (registry +:+ "images/" +:+ imgID +:+ "/json")
                 token.
Proof.
  rewrite GetRemoteImageJSON_run. cbv zeta.
  destruct (url_err E _); [done|]. intros [= _ <-]. by eexists.
Qed.

Lemma GetRemoteLayer_Ok_log imgID registry token imgSize w w' a :
  GetRemoteLayer E imgID registry token imgSize w = (Ok a, w') ->
  exists x,
    http_log w' = http_log w ++ [x]
    /\ fst x = auth_request (registry +:+ "images/" +:+ imgID +:+ "/layer")
                 token.
Proof.
  rewrite GetRemoteLayer_run. cbv zeta.
  destruct (url_err E _); [done|]. intros [= _ <-]. by eexists.
Qed.

Lemma GetAncestry_Ok_log imgID registry token w w' a :
  GetAncestry E imgID registry token w = (Ok a, w') ->
  exists x,
    http_log w' = http_log w ++ [x]
    /\ fst x = auth_request (registry +:+ "images/" +:+ imgID +:+ "/ancestry")
                 token.
Proof.
  rewrite GetAncestry_run. cbv zeta.
  destruct (url_err E _); [done|]. intros [= _ <-]. by eexists.
Qed.

Lemma GetImageIDFromTag_Ok_log registry appName tag token w w' a :
  GetImageIDFromTag E registry appName tag token w = (Ok a, w') ->
  exists x,
    http_log w' = http_log w ++ [x]
    /\ fst x = auth_request (registry +:+ "repositories/" +:+ appName
                               +:+ "/tags/" +:+ tag) token.
Proof.
  rewrite GetImageIDFromTag_run. cbv zeta.
  destruct (url_err E _); [done|]. intros [= _ <-]. by eexists.
Qed.

Lemma index0_Ok_hd (s : list string) (w w' : World) (x : string) :
  index0 s w = (Ok x, w') -> List.hd_error s = Some x /\ w' = w.
Proof. destruct s; [done|]. by intros [= <- <-]. Qed.

Lemma ImportLayer_Ok_log (layerID : string) (rd : RepoData)
    (url : DockerURL) (parent id : string) (w w' : World) :
  ImportLayer E layerID rd url parent w = (Ok id, w') ->
  exists endpoint new,
    List.hd_error (Endpoints rd) = Some endpoint
    /\ http_log w' = http_log w ++ new
    /\ List.map fst new = layer_requests endpoint (Tokens rd) layerID.
Proof.
  unfold ImportLayer. intros H.
  apply bind_Ok_inv in H as (tmpDir & w1 & H1 & H).
  apply (quiet_at _ _ _ _ (quiet_wrap _ _ (quiet_TempDir E _ _))) in H1.
  apply defer_inv in H as (wl & H & ->).
  apply bind_Ok_inv in H as ([] & w2 & H2 & H).
  apply (quiet_at _ _ _ _ (quiet_wrap _ _ (quiet_MkdirAll E _))) in H2.
  apply bind_Ok_inv in H as (ep & w3 & H3 & H).
  apply index0_Ok_hd in H3 as [Hep ->].
  apply bind_Ok_inv in H as (js & w4 & H4 & H). apply wrap_Ok_inv in H4.
  apply GetRemoteImageJSON_Ok_log in H4 as (x1 & Hl4 & Hx1).
  apply bind_Ok_inv in H as (layerData & w5 & H5 & H).
  apply wrap_Ok_inv in H5. apply lift_Ok_inv in H5 as [H5 ->].
  apply bind_Ok_inv in H as (ep' & w6 & H6 & H).
  apply index0_Ok_hd in H6 as [Hep' ->].
  assert (ep' = ep) as -> by congruence.
  apply bind_Ok_inv in H as (layer & w7 & H7 & H). apply wrap_Ok_inv in H7.
  apply GetRemoteLayer_Ok_log in H7 as (x2 & Hl7 & Hx2).
  assert (Htail : http_log wl = http_log w7).
  { revert H. apply quiet_at.
    apply quiet_bind; [apply quiet_wrap, quiet_os_Untar|]. intros _.
    apply quiet_bind; [apply quiet_wrap, quiet_lift|]. intros manifest.
    apply quiet_bind; [apply quiet_lift|]. intros manifestBytes.
    apply quiet_bind; [apply quiet_wrap, quiet_Create|]. intros f.
    apply quiet_bind; [apply quiet_Write|]. intros _.
    apply quiet_bind; [apply quiet_wrap, quiet_BuildACI|]. intros aciPath.
    apply quiet_bind; [apply quiet_wrap, quiet_ReadFile|]. intros aciFile.
    apply quiet_bind; [apply quiet_wrap, quiet_WriteACI|]. intros p.
    apply quiet_ret. }
  exists ep, [x1; x2]. split; [done|]. split.
  - simpl. rewrite Htail, Hl7, Hl4, H2, H1. by rewrite <- app_assoc.
  - simpl. by rewrite Hx1, Hx2.
Qed.

Lemma import_loop_Ok_log (rd : RepoData) (url : DockerURL)
    (appImageID : string) (ancestry : list string) (endpoint : string)
    (n : nat) :
  List.hd_error (Endpoints rd) = Some endpoint ->
  forall (app parent : string) (w w' : World) (out : string),
    (n <= length ancestry)%nat ->
    import_loop E rd url appImageID ancestry n app parent w = (Ok out, w') ->
    exists new,
      http_log w' = http_log w ++ new
      /\ List.map fst new
         = List.flat_map (layer_requests endpoint (Tokens rd))
             (rev (take n ancestry)).
Proof.
  intros Hep. induction n as [|i IH]; intros app parent w w' out Hn; simpl.
  - intros [= <- <-]. exists []. by rewrite app_nil_r.
  - destruct (lookup_lt_is_Some_2 ancestry i) as [layerID Hl]; [lia|].
    rewrite Hl. intros H.
    apply bind_Ok_inv in H as (id & w1 & H1 & H).
    apply IH in H as (new & Hlog & Hmap); [|lia].
    apply ImportLayer_Ok_log in H1 as (ep & new1 & Hep1 & Hlog1 & Hmap1).
    assert (ep = endpoint) as -> by congruence.
    exists (new1 ++ new).
    rewrite (take_S_r _ _ _ Hl), rev_app_distr.
    split; [by rewrite Hlog, Hlog1, <- app_assoc|].
    rewrite List.map_app.
    exact (f_equal2 (@Datatypes.app Request) Hmap1 Hmap).
Qed.

End RunLog.

(** X13. A run of the pipeline that ends without error has sent exactly
    these requests, in this order: one for the repository data, to the index;
    one for the tag and one for the ancestry; then, for every layer of the
    ancestry from the last of the list to the first, one for its JSON and one
    for its blob: 3 + 2 N requests for N layers.  All but the first go to the
    first endpoint of the repository data, whatever other endpoints were
    announced, as a [GET] with the single header [Authorization: Token]
    followed by the tokens joined by commas. *)
Theorem successful_run_requests (E : Env) (arg : string) (w w' : World)
    (out : string) :
  runDocker2ACI E arg w = (Ok out, w') ->
  exists (rd : RepoData) (endpoint appImageID : string)
         (ancestry : list string) (wa : World) (new : list Exchange),
    fst (GetRepoData E (IndexURL (parseArgument arg))
           (ImageName (parseArgument arg)) w) = Ok rd
    /\ List.hd_error (Endpoints rd) = Some endpoint
    /\ fst (GetAncestry E appImageID endpoint (Tokens rd) wa) = Ok ancestry
    /\ http_log w' = http_log w ++ new
    /\ List.map fst new
       = repo_request (IndexURL (parseArgument arg))
           (ImageName (parseArgument arg))
         :: auth_request (endpoint +:+ "repositories/"
                            +:+ ImageName (parseArgument arg) +:+ "/tags/"
                            +:+ Tag (parseArgument arg)) (Tokens rd)
         :: auth_request (endpoint +:+ "images/" +:+ appImageID
                            +:+ "/ancestry") (Tokens rd)
         :: List.flat_map (layer_requests endpoint (Tokens rd)) (rev ancestry)
    /\ length new = (3 + 2 * length ancestry)%nat
    /\ (forall url,
          auth_request url (Tokens rd)
          = {| Method := "GET"; URL := url;
               ReqHeader :=
                 {["Authorization" :=
                     ["Token " +:+ Strings.Join (Tokens rd) ","]]} |}).
Proof.
  unfold runDocker2ACI. intros H.
  apply bind_Ok_inv in H as (rd & w1 & H1 & H).
  destruct (GetRepoData_ok_inv _ _ _ _ _ _ H1) as (res & Hl1 & _ & _).
  apply bind_Ok_inv in H as (ep & w2 & H2 & H).
  apply index0_Ok_hd in H2 as [Hep ->].
  apply bind_Ok_inv in H as (appImageID & w3 & H3 & H).
  apply GetImageIDFromTag_Ok_log in H3 as (x2 & Hl3 & Hx2).
  apply bind_Ok_inv in H as (ep' & w4 & H4 & H).
  apply index0_Ok_hd in H4 as [Hep' ->].
  assert (ep' = ep) as -> by congruence.
  apply bind_Ok_inv in H as (ancestry & w5 & H5 & H).
  pose proof H5 as H5'.
  apply GetAncestry_Ok_log in H5 as (x3 & Hl5 & Hx3).
  apply (import_loop_Ok_log E rd _ _ _ ep _ Hep) in H
    as (new & Hlog & Hmap); [|done].
  rewrite firstn_all in Hmap.
  exists rd, ep, appImageID, ancestry, w3,
    ((repo_request (IndexURL (parseArgument arg))
        (ImageName (parseArgument arg)), Ok res) :: x2 :: x3 :: new).
  split; [by rewrite H1|]. split; [done|]. split; [by rewrite H5'|].
  split; [by rewrite Hlog, Hl5, Hl3, Hl1, <- !app_assoc|].
  split; [simpl; by rewrite Hx2, Hx3, Hmap|].
  split; [|intros u; apply (auth_request_eq u (Tokens rd))].
  assert (Hlen : length new
                 = length (List.flat_map (layer_requests ep (Tokens rd))
                             (rev ancestry))).
  { rewrite <- Hmap. symmetry. apply List.length_map. }
  cbn [length]. rewrite Hlen, <- (List.length_rev ancestry).
  clear. induction (rev ancestry) as [|l ls IH]; [done|].
  cbn [List.flat_map layer_requests Datatypes.app length] in *.
  rewrite IH. lia.
Qed.

Lemma successful_run_requests_witness :
  let run := runDocker2ACI Sample.env "busybox" Sample.world in
  Sample.statuses (http_log (snd run))
  = [ ("https://index.docker.io/v1/repositories/busybox/images", 200);
      ("https://registry-1.docker.io/v1/repositories/busybox/tags/latest", 200);
      ("https://registry-1.docker.io/v1/images/l2/ancestry", 200);
      ("https://registry-1.docker.io/v1/images/l1/json", 200);
      ("https://registry-1.docker.io/v1/images/l1/layer", 200);
      ("https://registry-1.docker.io/v1/images/l2/json", 200);
      ("https://registry-1.docker.io/v1/images/l2/layer", 200) ]
  /\ exists (rd : RepoData) (endpoint appImageID : string)
            (ancestry : list string) (wa : World) (new : list Exchange),
       fst (GetRepoData Sample.env (IndexURL (parseArgument "busybox"))
              (ImageName (parseArgument "busybox")) Sample.world) = Ok rd
       /\ List.hd_error (Endpoints rd) = Some endpoint
       /\ fst (GetAncestry Sample.env appImageID endpoint (Tokens rd) wa)
          = Ok ancestry
       /\ http_log (snd run) = http_log Sample.world ++ new
       /\ List.map fst new
          = repo_request (IndexURL (parseArgument "busybox"))
              (ImageName (parseArgument "busybox"))
            :: auth_request (endpoint +:+ "repositories/"
                               +:+ ImageName (parseArgument "busybox")
                               +:+ "/tags/"
                               +:+ Tag (parseArgument "busybox")) (Tokens rd)
            :: auth_request (endpoint +:+ "images/" +:+ appImageID
                               +:+ "/ancestry") (Tokens rd)
            :: List.flat_map (layer_requests endpoint (Tokens rd))
                 (rev ancestry)
       /\ length new = (3 + 2 * length ancestry)%nat
       /\ (forall url,
             auth_request url (Tokens rd)
             = {| Method := "GET"; URL := url;
                  ReqHeader :=
                    {["Authorization" :=
                        ["Token " +:+ Strings.Join (Tokens rd) ","]]} |}).
Proof.
  intros run. split; [vm_compute; reflexivity|].
  assert (Hrun : run = (Ok "sha512-l2", snd run)) by (vm_compute; reflexivity).
  exact (successful_run_requests Sample.env "busybox" Sample.world (snd run)
           "sha512-l2" Hrun).
Defined.

(** ** The list of endpoints *)

Lemma Split_cat (a b : string) (c : ascii) :
  Strings.Split (a +:+ String c b) c = Strings.Split a c ++ Strings.Split b c.
Proof.
  induction a as [|x a IH].
  - change ("" +:+ String c b) with (String c b). simpl.
    by rewrite Ascii.eqb_refl.
  - change (String x a +:+ String c b) with (String x (a +:+ String c b)).
    simpl. rewrite IH. destruct (Ascii.eqb x c); [done|].
    pose proof (Split_not_nil a c) as Hn.
    by destruct (Strings.Split a c).
Qed.

Lemma Split_length (s : string) (c : ascii) :
  length (Strings.Split s c) = S (count_byte c s).
Proof.
  induction s as [|a s IH]; simpl; [done|].
  destruct (Ascii.eqb a c); simpl; [by rewrite IH|].
  pose proof (Split_not_nil s c) as Hn.
  destruct (Strings.Split s c); [done|]. exact IH.
Qed.

(** X14. [makeEndpointsList] reads the header values as one comma-separated
    list: the endpoints of two lists of values are those of the first
    followed by those of the second, a value [a,b] gives what the two values
    [a] and [b] give, and a space after a comma is dropped.  There is one
    endpoint per value and one more per comma, so an empty element is not
    skipped: it gives the endpoint [https:///v1/]. *)
Theorem makeEndpointsList_structure :
  (forall hs1 hs2 : list string,
     makeEndpointsList (hs1 ++ hs2)
     = makeEndpointsList hs1 ++ makeEndpointsList hs2)
  /\ (forall a b : string,
        makeEndpointsList [a +:+ "," +:+ b] = makeEndpointsList [a; b])
  /\ (forall a b : string,
        makeEndpointsList [a +:+ ", " +:+ b] = makeEndpointsList [a; b])
  /\ (forall hs : list string,
        length (makeEndpointsList hs)
        = (length hs + list_sum (List.map (count_byte ",") hs))%nat)
  /\ makeEndpointsList [""] = ["https:///v1/"].
Proof.
  split; [|split; [|split; [|split]]].
  - intros hs1 hs2.
    by rewrite !makeEndpointsList_map, List.flat_map_app, List.map_app.
  - intros a b. rewrite !makeEndpointsList_map. simpl.
    rewrite !app_nil_r.
    change (a +:+ "," +:+ b) with (a +:+ String "," b).
    by rewrite (Split_cat a b ",").
  - intros a b. rewrite !makeEndpointsList_map. simpl.
    rewrite !app_nil_r.
    change (a +:+ ", " +:+ b) with (a +:+ String "," (String " " b)).
    rewrite (Split_cat a (String " " b) ","), !List.map_app. f_equal.
    pose proof (Split_not_nil b ",") as Hn. simpl.
    destruct (Strings.Split b ",") as [|x xs]; [done|].
    simpl. f_equal.
  - intros hs. rewrite makeEndpointsList_map, List.length_map.
    induction hs as [|h hs IH]; [done|].
    simpl. rewrite List.length_app, IH, Split_length. lia.
  - reflexivity.
Qed.

(** ** What a response of status 200 gives *)

(** X15. On a response of status 200: [GetRepoData] and [GetRemoteLayer]
    succeed without reading the body ([GetRepoData] returns as tokens the
    values of the [X-Docker-Token] header when the first is not empty, and no
    token otherwise; [GetRemoteLayer] hands the body on as it is, readable or
    not).  The tag resolution and the ancestry fetch return what
    [json.Unmarshal] makes of the body, its error behind
    [Error unmarshaling: ]; a body that cannot be read gives the bare read
    error for the tag, and [Failed to read downloaded json: <error> (<data>)]
    for the ancestry and for the image JSON. *)
Theorem status_200_results (E : Env) :
  (forall indexURL remote w resp,
     url_err E (URL (repo_request indexURL remote)) = None ->
     RoundTrip E (http_log w) (repo_request indexURL remote) = Ok resp ->
     StatusCode resp = 200 ->
     exists rd,
       fst (GetRepoData E indexURL remote w) = Ok rd
       /\ Tokens rd
          = if String.eqb (Header_Get (RespHeader resp) "X-Docker-Token") ""
            then []
            else Header_Values (RespHeader resp) "X-Docker-Token")
  /\ (forall imgID registry token imgSize w resp,
        let url := registry +:+ "images/" +:+ imgID +:+ "/layer" in
        url_err E url = None ->
        RoundTrip E (http_log w) (auth_request url token) = Ok resp ->
        StatusCode resp = 200 ->
        fst (GetRemoteLayer E imgID registry token imgSize w)
        = Ok (RespBody resp))
  /\ (forall registry appName tag token w resp,
        let url := registry +:+ "repositories/" +:+ appName +:+ "/tags/"
                     +:+ tag in
        let data := body_data (RespBody resp) in
        url_err E url = None ->
        RoundTrip E (http_log w) (auth_request url token) = Ok resp ->
        StatusCode resp = 200 ->
        fst (GetImageIDFromTag E registry appName tag token w)
        = match body_err (RespBody resp), json_string E data with
          | Some e, _ => Err e
          | None, Ok id => Ok id
          | None, Err e => Err ("Error unmarshaling: " +:+ e)
          | None, Panic p => Panic p
          end)
  /\ (forall imgID registry token w resp,
        let url := registry +:+ "images/" +:+ imgID +:+ "/ancestry" in
        let data := body_data (RespBody resp) in
        url_err E url = None ->
        RoundTrip E (http_log w) (auth_request url token) = Ok resp ->
        StatusCode resp = 200 ->
        fst (GetAncestry E imgID registry token w)
        = match body_err (RespBody resp), json_strings E data with
          | Some e, _ =>
              Err ("Failed to read downloaded json: " +:+ e
                     +:+ " (" +:+ data +:+ ")")
          | None, Ok l => Ok l
          | None, Err e => Err ("Error unmarshaling: " +:+ e)
          | None, Panic p => Panic p
          end)
  /\ (forall imgID registry token w resp e,
        let url := registry +:+ "images/" +:+ imgID +:+ "/json" in
        let data := body_data (RespBody resp) in
        url_err E url = None ->
        RoundTrip E (http_log w) (auth_request url token) = Ok resp ->
        StatusCode resp = 200 ->
        Header_Get (RespHeader resp) "X-Docker-Size" = "" ->
        body_err (RespBody resp) = Some e ->
        fst (GetRemoteImageJSON E imgID registry token w)
        = Err ("Failed to read downloaded json: " +:+ e
                 +:+ " (" +:+ data +:+ ")")).
Proof.
  repeat split; intros;
    repeat match goal with x := _ |- _ => subst x end.
  - rewrite GetRepoData_run. cbv zeta. rewrite H, H0, H1. simpl.
    eexists. split; [reflexivity|]. simpl.
    by destruct (String.eqb _ "").
  - rewrite GetRemoteLayer_run. cbv zeta. by rewrite H, H0, H1.
  - rewrite GetImageIDFromTag_run. cbv zeta. rewrite H, H0, H1. simpl.
    by destruct (body_err (RespBody resp)).
  - rewrite GetAncestry_run. cbv zeta. rewrite H, H0, H1. simpl.
    by destruct (body_err (RespBody resp)).
  - rewrite GetRemoteImageJSON_run. cbv zeta. rewrite H, H0, H1, H2, H3.
    done.
Qed.

(** A layer whose body will fail on reading is handed on all the same. *)
Example GetRemoteLayer_does_not_read :
  let body := {| body_data := "partial"; body_err := Some "unexpected EOF" |} in
  let resp := {| StatusCode := 200; RespHeader := ∅; RespBody := body |} in
  let E := with_RoundTrip (fun _ _ => Ok resp) Sample.env in
  fst (GetRemoteLayer E "l1" Sample.reg ["t"] (-1) Sample.world) = Ok body.
Proof. vm_compute. reflexivity. Qed.

(** ** The members the walk function writes *)

Lemma switch_mode_content (v : Visit) (link c : string) :
  switch_mode v = Ok (link, Some c) -> opened v = true /\ v_open v = Ok c.
Proof.
  unfold switch_mode, opened. cbv zeta.
  destruct (_ =? FileMode.ModeCharDevice); [done|].
  destruct (_ =? FileMode.ModeDevice); [done|].
  destruct (_ =? FileMode.ModeDir); [done|].
  destruct (_ =? FileMode.ModeSymlink).
  - by destruct (v_readlink v).
  - destruct (v_open v) as [file| |]; simpl; [|done..].
    by intros [= _ ->].
Qed.

Lemma archived_names (rp : string) :
  archived rp = true -> rp <> "." /\ rp <> ManifestFile.
Proof.
  unfold archived. intros [H1 H2]%andb_true_iff.
  apply negb_true_iff, String.eqb_neq in H1, H2. done.
Qed.

Section WalkMembers.
Variable E : Env.
Variable populate : TarHeader -> FileInfo -> gmap N string
                    -> TarHeader * gmap N string.
Variable root : string.

Lemma walk_with_Populate (visits : list Visit) (st : WalkState) :
  walk E root st visits = walk_with E Populate root st visits.
Proof.
  revert st. induction visits as [|v l IH]; intros st; [done|].
  simpl. change (buildWalker_with E Populate root st v)
    with (buildWalker E root st v).
  destruct (buildWalker E root st v); simpl; [apply IH|done..].
Qed.

Lemma buildWalker_member (st st' : WalkState) (v : Visit) :
  buildWalker_with E populate root st v = Ok st' ->
  exists new,
    written st' = written st ++ new
    /\ List.map e_path new = archived_paths root [v]
    /\ Forall (member_of root v) new.
Proof.
  unfold buildWalker_with, archived_paths, archived. simpl.
  destruct (v_err v); [done|]. simpl.
  destruct (Rel root (v_path v)) as [rp| |] eqn:Hrel; [|done..]. simpl.
  destruct (String.eqb rp ".") eqn:Hdot; simpl.
  { intros [= <-]. exists []. by rewrite app_nil_r. }
  destruct (String.eqb rp ManifestFile) eqn:Hman; simpl.
  { intros [= <-]. exists []. by rewrite app_nil_r. }
  apply String.eqb_neq in Hdot, Hman.
  destruct (switch_mode v) as [[link r]| |] eqn:Hsw; [|done..]. simpl.
  destruct (FileInfoHeader (v_info v) link) as [h| |]; [|done..]. simpl.
  destruct (populate (set_Name h rp) (v_info v) (inos st)) as [hdr inos'].
  destruct (decide (hdr_Typeflag hdr = TypeLink)) as [Hl|Hl];
    unfold AddFile; destruct (addfile_err E _); try done; simpl;
    intros [= <-]; simpl; eexists [_];
    (split; [reflexivity|]); (split; [reflexivity|]);
    (constructor; [|done]); (split; [exact Hrel|]); (split; [exact Hdot|]);
    (split; [exact Hman|]); simpl.
  - split; [done|]. intros c Hc. discriminate Hc.
  - split; [by intros Hl'|]. intros c ->.
    destruct (switch_mode_content _ _ _ Hsw) as [Ho Hc]. done.
Qed.

Lemma walk_members (visits : list Visit) (st st' : WalkState) :
  walk_with E populate root st visits = Ok st' ->
  exists new,
    written st' = written st ++ new
    /\ List.map e_path new = archived_paths root visits
    /\ Forall (fun e => exists v, In v visits /\ member_of root v e) new.
Proof.
  revert st. induction visits as [|v l IH]; intros st H.
  - injection H as <-. exists []. by rewrite app_nil_r.
  - simpl in H.
    destruct (buildWalker_with E populate root st v) as [st1| |] eqn:H1;
      [|done..]. simpl in H.
    apply IH in H as (more & Hw & Hp & Hf).
    apply buildWalker_member in H1 as (new & Hw1 & Hp1 & Hf1).
    exists (new ++ more). split; [by rewrite Hw, Hw1, <- app_assoc|].
    split.
    + rewrite List.map_app, Hp, Hp1. unfold archived_paths. simpl.
      by destruct (match Rel root (v_path v) with Ok _ => _ | _ => _ end).
    + apply Forall_app. split.
      * eapply Forall_impl; [exact Hf1|]. intros e He. exists v.
        split; [by left|done].
      * eapply Forall_impl; [exact Hf|]. intros e (v0 & Hin & He).
        exists v0. split; [by right|done].
Qed.

End WalkMembers.

(** X16. Whatever [tarheader.Populate] does to the header and to the inode
    cache, a walk that ends without error has written one member for every
    visit whose relative path is neither [.] nor [manifest], in the order of
    the visits and under that relative path, and nothing else.  A member
    carries content only when its visit fell to the [default] case of the
    [switch] (not a directory, a symbolic link or a device), the content is
    then what [os.Open] returned for the path, and the header is not a link
    header; a member with a link header has the size 0 and no content. *)
Theorem walk_writes_archived_visits (E : Env)
    (populate : TarHeader -> FileInfo -> gmap N string
                -> TarHeader * gmap N string)
    (root : string) (visits : list Visit) (st st' : WalkState) :
  walk_with E populate root st visits = Ok st' ->
  (walk_with E Populate root st visits = walk E root st visits)
  /\ exists new : list Entry,
       written st' = written st ++ new
       /\ List.map e_path new = archived_paths root visits
       /\ Forall (fun e => exists v, In v visits /\ member_of root v e) new.
Proof.
  intros H. split; [symmetry; apply walk_with_Populate|].
  by apply (walk_members E populate).
Qed.

Lemma walk_writes_archived_visits_witness :
  let root := "/tmp/docker2aci-0/layer" in
  let st0 := {| inos := ∅; written := [] |} in
  let st' := match walk Sample.env root st0 (Sample.tree root) with
             | Ok st => st
             | _ => st0
             end in
  archived_paths root (Sample.tree root)
  = ["rootfs"; "rootfs/bin"; "rootfs/bin/ash"; "rootfs/bin/bash";
     "rootfs/bin/sh"]
  /\ (walk_with Sample.env Populate root st0 (Sample.tree root)
      = walk Sample.env root st0 (Sample.tree root))
  /\ exists new : list Entry,
       written st' = written st0 ++ new
       /\ List.map e_path new = archived_paths root (Sample.tree root)
       /\ Forall (fun e => exists v, In v (Sample.tree root)
                                     /\ member_of root v e) new.
Proof.
  intros root st0 st'. split; [vm_compute; reflexivity|].
  assert (H : walk_with Sample.env Populate root st0 (Sample.tree root)
              = Ok st') by (vm_compute; reflexivity).
  exact (walk_writes_archived_visits Sample.env Populate root
           (Sample.tree root) st0 st' H).
Defined.

(** ** The archive [BuildACI] writes *)

(** X17. [BuildACI] touches one path, the target [outDir/imageID.aci]:
    whatever it returns, every other path holds what it held.  When it
    returns without error, it returns the target, and the target holds the
    archive made of the manifest read from [targetDir/manifest] and of the
    members the walk of [targetDir] wrote, in their order; layout, manifest
    and walk were taken from the file system in which the target had already
    been created empty. *)
Theorem BuildACI_outcome (E : Env) (imageID outDir targetDir : string)
    (w : World) :
  let target := Join2 outDir (imageID +:+ ".aci") in
  let f1 := <[target := NFile (Raw "")]> (fs w) in
  match BuildACI E imageID outDir targetDir w with
  | (Ok path, w') =>
      path = target
      /\ exists (im : ImageManifest) (st : WalkState),
           f1 !! Join2 targetDir ManifestFile = Some (NFile (ManifestDoc im))
           /\ ValidateLayout E f1 targetDir = None
           /\ walk E targetDir {| inos := ∅; written := [] |}
                (Walk E f1 targetDir) = Ok st
           /\ fs w'
              = <[target := NFile (ArchiveFile
                                     {| aci_manifest := im;
                                        aci_entries := written st |})]> (fs w)
  | (_, w') => forall p : string, p <> target -> fs w' !! p = fs w !! p
  end.
Proof.
  intros target f1. subst f1.
  unfold BuildACI. fold target.
  unfold mbind' at 1. unfold wrap at 1. unfold Create.
  destruct (fs_err E "OpenFile" target); [done|].
  set (w1 := set_fs _ w).
  assert (Hw1 : forall p, p <> target -> fs w1 !! p = fs w !! p).
  { intros p Hp. subst w1. simpl. by rewrite lookup_insert_ne. }
  unfold mbind' at 1. unfold wrap at 1.
  destruct (ValidateLayout E (fs w1) targetDir) eqn:Hv; simpl; [done|].
  unfold mbind' at 1. unfold wrap at 1. unfold ReadFile.
  destruct (fs_err E "ReadFile" _); [done|].
  destruct (fs w1 !! Join2 targetDir ManifestFile) as [[|b]|] eqn:Hm;
    [done| |done].
  unfold mbind' at 1. unfold wrap at 1. unfold lift.
  destruct (UnmarshalJSON E b) as [im| |] eqn:Hu; [|done..].
  unfold mbind' at 1. unfold wrap at 1.
  destruct (walk E targetDir _ _) as [st| |] eqn:Hwalk; [|done..].
  unfold mbind' at 1. unfold wrap at 1. unfold iw_Close.
  destruct (fs_err E "Close" target); [done|].
  unfold ret. split; [done|].
  destruct b as [|m|]; try done. simpl in Hu.
  destruct (manifest_err E m); [done|]. injection Hu as <-.
  exists m, st. split; [done|]. split; [done|]. split; [done|].
  subst w1. simpl. by rewrite insert_insert_eq.
Qed.

(** ** What a layer import stores *)

Section ImportResult.
Variable E : Env.

Lemma GetRemoteImageJSON_Ok_inv imgID registry token w w' js :
  GetRemoteImageJSON E imgID registry token w = (Ok js, w') ->
  exists resp,
    w' = add_exchange
           (auth_request (registry +:+ "images/" +:+ imgID +:+ "/json") token,
            Ok resp) w
    /\ StatusCode resp = 200
    /\ body_err (RespBody resp) = None
    /\ fst js = body_data (RespBody resp).
Proof.
  rewrite GetRemoteImageJSON_run. cbv zeta.
  destruct (url_err E _); [done|].
  destruct (RoundTrip E _ _) as [resp| |]; [|done..].
  destruct (StatusCode resp =? 200) eqn:Hc; [|done]. simpl.
  destruct (if negb _ then _ else _) as [n| |]; [|done..]. simpl.
  destruct (body_err (RespBody resp)) eqn:Hb; [done|].
  intros [= <- <-]. exists resp. by apply Z.eqb_eq in Hc.
Qed.

Lemma GetRemoteLayer_Ok_inv imgID registry token imgSize w w' layer :
  GetRemoteLayer E imgID registry token imgSize w = (Ok layer, w') ->
  exists resp,
    w' = add_exchange
           (auth_request (registry +:+ "images/" +:+ imgID +:+ "/layer") token,
            Ok resp) w
    /\ StatusCode resp = 200
    /\ layer = RespBody resp.
Proof.
  rewrite GetRemoteLayer_run. cbv zeta.
  destruct (url_err E _); [done|].
  destruct (RoundTrip E _ _) as [resp| |]; [|done..].
  destruct (StatusCode resp =? 200) eqn:Hc; [|done]. simpl.
  intros [= <- <-]. exists resp. by apply Z.eqb_eq in Hc.
Qed.

Lemma ImportLayer_Ok_full (layerID : string) (rd : RepoData)
    (url : DockerURL) (parent id : string) (w w' : World) :
  ImportLayer E layerID rd url parent w = (Ok id, w') ->
  exists (endpoint : string) (respJ respL : Response)
         (layerData : DockerImageData) (m : ImageManifest)
         (entries : list Entry),
    List.hd_error (Endpoints rd) = Some endpoint
    /\ http_log w'
       = http_log w
         ++ [ (auth_request (endpoint +:+ "images/" +:+ layerID +:+ "/json")
                 (Tokens rd), Ok respJ);
              (auth_request (endpoint +:+ "images/" +:+ layerID +:+ "/layer")
                 (Tokens rd), Ok respL) ]
    /\ StatusCode respJ = 200 /\ StatusCode respL = 200
    /\ json_layer E (body_data (RespBody respJ)) = Ok layerData
    /\ snd (Untar E (RespBody respL)) = None
    /\ GenerateManifest E layerData url parent = Ok m
    /\ WriteACI_key E (store w)
         {| aci_manifest := m; aci_entries := entries |} = Ok id
    /\ store w'
       = store w ++ [(id, {| aci_manifest := m; aci_entries := entries |})].
Proof.
  unfold ImportLayer. intros H.
  apply bind_Ok_inv in H as (tmpDir & w1 & H1 & H).
  apply wrap_Ok_inv in H1.
  assert (Hs1 : store w1 = store w /\ http_log w1 = http_log w).
  { revert H1. unfold TempDir. repeat case_match; intros ?; by simplify_eq. }
  apply defer_inv in H as (wl & H & ->).
  apply bind_Ok_inv in H as ([] & w2 & H2 & H). apply wrap_Ok_inv in H2.
  assert (Hs2 : store w2 = store w1 /\ http_log w2 = http_log w1).
  { revert H2. unfold MkdirAll. repeat case_match; intros ?; by simplify_eq. }
  apply bind_Ok_inv in H as (ep & w3 & H3 & H).
  apply index0_Ok_hd in H3 as [Hep ->].
  apply bind_Ok_inv in H as (js & w4 & H4 & H). apply wrap_Ok_inv in H4.
  apply GetRemoteImageJSON_Ok_inv in H4 as (respJ & -> & HcJ & _ & Hjs).
  apply bind_Ok_inv in H as (layerData & w5 & H5 & H).
  apply wrap_Ok_inv in H5. apply lift_Ok_inv in H5 as [H5 ->].
  apply bind_Ok_inv in H as (ep' & w6 & H6 & H).
  apply index0_Ok_hd in H6 as [Hep' ->].
  assert (ep' = ep) as -> by congruence.
  apply bind_Ok_inv in H as (layer & w7 & H7 & H). apply wrap_Ok_inv in H7.
  apply GetRemoteLayer_Ok_inv in H7 as (respL & -> & HcL & ->).
  apply bind_Ok_inv in H as ([] & w8 & H8 & H). apply wrap_Ok_inv in H8.
  assert (Hs8 : snd (Untar E (RespBody respL)) = None
                /\ store w8 = store w2 /\ http_log w8
                   = http_log w2 ++ [(auth_request (ep +:+ "images/" +:+ layerID
                                        +:+ "/json") (Tokens rd), Ok respJ);
                                     (auth_request (ep +:+ "images/" +:+ layerID
                                        +:+ "/layer") (Tokens rd), Ok respL)]).
  { revert H8. unfold os_Untar. destruct (Untar E _) as [files [e|]]; simpl;
      intros ?; simplify_eq. simpl. by rewrite <- app_assoc. }
  destruct Hs8 as (Hun & Hs8 & Hl8).
  apply bind_Ok_inv in H as (manifest & w9 & H9 & H).
  apply wrap_Ok_inv in H9. apply lift_Ok_inv in H9 as [H9 ->].
  apply bind_Ok_inv in H as (manifestBytes & w10 & H10 & H).
  apply lift_Ok_inv in H10 as [H10 ->].
  unfold Marshal in H10. destruct (marshal_err E manifest); [done|].
  injection H10 as <-.
  apply bind_Ok_inv in H as (f & w11 & H11 & H). apply wrap_Ok_inv in H11.
  unfold Create in H11. destruct (fs_err E "Create" _); [done|].
  injection H11 as <- <-.
  apply bind_Ok_inv in H as ([] & w12 & H12 & H).
  apply bind_Ok_inv in H as (aciPath & w13 & H13 & H).
  apply wrap_Ok_inv in H13.
  pose proof (quiet_at _ _ _ _ (quiet_BuildACI E _ _ _) H13) as Hl13.
  apply BuildACI_Ok_inv in H13 as (m & entries & Hm & Ha & Hs13).
  assert (Hw12 : m = manifest /\ store w12 = store w8
                 /\ http_log w12 = http_log w8).
  { revert H12 Hm. unfold Write, Join2.
    destruct (fs_err E "Write" _); intros [= <-]; simpl;
      rewrite lookup_insert_eq; by intros [= ->]. }
  destruct Hw12 as (-> & Hs12 & Hl12).
  apply bind_Ok_inv in H as (aciFile & w14 & H14 & H).
  apply wrap_Ok_inv in H14. unfold ReadFile in H14.
  destruct (fs_err E "Open" _); [done|]. rewrite Ha in H14.
  injection H14 as <- <-.
  apply bind_Ok_inv in H as (key & w15 & H15 & H). apply wrap_Ok_inv in H15.
  unfold WriteACI in H15.
  destruct (WriteACI_key E (store w13) _) as [k| |] eqn:Hk; try done.
  injection H15 as <- <-. injection H as <- <-.
  destruct Hs1 as [Hs1 Hl1]. destruct Hs2 as [Hs2 Hl2].
  assert (Hst : store w13 = store w) by congruence.
  exists ep, respJ, respL, layerData, manifest, entries.
  split; [done|]. split; [simpl; congruence|].
  split; [done|]. split; [done|]. split; [by rewrite <- Hjs|].
  split; [done|]. split; [done|]. split; [by rewrite <- Hst|].
  simpl. by rewrite Hst.
Qed.

End ImportResult.

(** X18. When [ImportLayer] returns an identifier, it has made exactly two
    exchanges, both answered with status 200 by the first endpoint: the JSON
    of the layer and its blob.  The image it added to the store has the
    manifest that [GenerateManifest] gives for the layer data decoded from
    the body of the first response, with the parent it was called with; the
    blob of the second response was unpacked without error; and the
    identifier is the key the store returned for that image. *)
Theorem ImportLayer_stores_what_it_fetched (E : Env) (layerID : string)
    (rd : RepoData) (url : DockerURL) (parent id : string) (w w' : World) :
  ImportLayer E layerID rd url parent w = (Ok id, w') ->
  exists (endpoint : string) (respJ respL : Response)
         (layerData : DockerImageData) (m : ImageManifest)
         (entries : list Entry),
    List.hd_error (Endpoints rd) = Some endpoint
    /\ http_log w'
       = http_log w
         ++ [ (auth_request (endpoint +:+ "images/" +:+ layerID +:+ "/json")
                 (Tokens rd), Ok respJ);
              (auth_request (endpoint +:+ "images/" +:+ layerID +:+ "/layer")
                 (Tokens rd), Ok respL) ]
    /\ StatusCode respJ = 200 /\ StatusCode respL = 200
    /\ json_layer E (body_data (RespBody respJ)) = Ok layerData
    /\ snd (Untar E (RespBody respL)) = None
    /\ GenerateManifest E layerData url parent = Ok m
    /\ WriteACI_key E (store w)
         {| aci_manifest := m; aci_entries := entries |} = Ok id
    /\ store w'
       = store w ++ [(id, {| aci_manifest := m; aci_entries := entries |})].
Proof. apply ImportLayer_Ok_full. Qed.

Lemma ImportLayer_stores_what_it_fetched_witness :
  let url := parseArgument "busybox" in
  let run := ImportLayer Sample.env "l1" Sample.repo url "" Sample.world in
  fst run = Ok "sha512-l1"
  /\ exists (endpoint : string) (respJ respL : Response)
            (layerData : DockerImageData) (m : ImageManifest)
            (entries : list Entry),
       List.hd_error (Endpoints Sample.repo) = Some endpoint
       /\ http_log (snd run)
          = http_log Sample.world
            ++ [ (auth_request (endpoint +:+ "images/" +:+ "l1" +:+ "/json")
                    (Tokens Sample.repo), Ok respJ);
                 (auth_request (endpoint +:+ "images/" +:+ "l1" +:+ "/layer")
                    (Tokens Sample.repo), Ok respL) ]
       /\ StatusCode respJ = 200 /\ StatusCode respL = 200
       /\ json_layer Sample.env (body_data (RespBody respJ)) = Ok layerData
       /\ snd (Untar Sample.env (RespBody respL)) = None
       /\ GenerateManifest Sample.env layerData url "" = Ok m
       /\ WriteACI_key Sample.env (store Sample.world)
            {| aci_manifest := m; aci_entries := entries |} = Ok "sha512-l1"
       /\ store (snd run)
          = store Sample.world
            ++ [("sha512-l1", {| aci_manifest := m; aci_entries := entries |})].
Proof.
  intros url run.
  assert (Hrun : run = (Ok "sha512-l1", snd run)) by (vm_compute; reflexivity).
  split; [by rewrite Hrun|].
  exact (ImportLayer_stores_what_it_fetched Sample.env "l1" Sample.repo url ""
           "sha512-l1" Sample.world (snd run) Hrun).
Defined.

(** ** The errors of the pipeline *)

Section Errors.
Context {A B : Type}.









End Errors.








Lemma BuildACI_value (E : Env) (imageID outDir targetDir path : string) :
  (exists w w1, BuildACI E imageID outDir targetDir w = (Ok path, w1)) ->
  path = Join2 outDir (imageID +:+ ".aci").
Proof.
  intros (w & w' & H). unfold BuildACI in H.
  apply bind_Ok_inv in H as (fh & w1 & _ & H).
  apply bind_Ok_inv in H as (? & w2 & _ & H).
  apply bind_Ok_inv in H as (b & w3 & _ & H).
  apply bind_Ok_inv in H as (im & w4 & _ & H).
  apply bind_Ok_inv in H as (iw & w5 & _ & H).
  apply bind_Ok_inv in H as (? & w6 & _ & H).
  by injection H as <- _.
Qed.




(** The message of a refused [os.MkdirAll] names the directory and not the
    cause; the message of a missing layer names the stage, the status and
    the URL. *)
Example ImportLayer_error_samples :
  let refuse := fun op (_ : string) =>
                  if String.eqb op "MkdirAll"
                  then Some "mkdir: permission denied" else None in
  fst (ImportLayer (with_fs_err refuse Sample.env) "l1" Sample.repo
         (parseArgument "busybox") "" Sample.world)
  = Err "Error creating dir: /tmp/docker2aci-1/layer/rootfs"
  /\ fst (ImportLayer
            (with_RoundTrip Sample.round_trip_l1_missing Sample.env) "l1"
            Sample.repo (parseArgument "busybox") "" Sample.world)
     = Err ("Error getting image json: HTTP code: 404, URL: "
              +:+ "https://registry-1.docker.io/v1/images/l1/json").
Proof. cbv zeta. split; vm_compute; reflexivity. Qed.

(** ** What an import leaves outside its staging directory *)

Section Escape.
Variable E : Env.

Lemma store_files_outside (aciFile : FileData) (f : FS) (p : string) :
  under rocketDir p = false -> store_files E aciFile f !! p = f !! p.
Proof.
  intros Hp. unfold store_files.
  rewrite lookup_union_r.
  - destruct (f !! p) as [x|] eqn:Hf.
    + apply map_lookup_filter_Some. by split.
    + apply map_lookup_filter_None. by left.
  - apply map_lookup_filter_None. right. intros x _. simpl. by rewrite Hp.
Qed.

Lemma RemoveAll_keeps (dir p : string) (w : World) :
  under dir p = false -> fs (RemoveAll E dir w) !! p = fs w !! p.
Proof.
  intros Hp. unfold RemoveAll. simpl.
  destruct (fs w !! p) as [x|] eqn:Hf.
  - apply map_lookup_filter_Some. split; [done|]. by left.
  - apply map_lookup_filter_None. by left.
Qed.

Lemma ImportLayer_leaves_archive (layerID : string) (rd : RepoData)
    (url : DockerURL) (parent id tmpDir : string) (w w1 w' : World) :
  TempDir E "" "docker2aci-" w = (Ok tmpDir, w1) ->
  ImportLayer E layerID rd url parent w = (Ok id, w') ->
  under tmpDir (Join2 tmpDir (layerID +:+ ".aci")) = false ->
  under rocketDir (Join2 tmpDir (layerID +:+ ".aci")) = false ->
  exists a : ACI,
    fs w' !! Join2 tmpDir (layerID +:+ ".aci") = Some (NFile (ArchiveFile a))
    /\ List.last (store w') (id, a) = (id, a).
Proof.
  intros Ht H Hout Hrkt. unfold ImportLayer in H.
  apply bind_Ok_inv in H as (tmpDir' & w1' & H1 & H).
  apply wrap_Ok_inv in H1. rewrite Ht in H1. injection H1 as <- <-.
  apply defer_inv in H as (wl & H & ->).
  apply bind_Ok_inv in H as (? & w2 & _ & H).
  apply bind_Ok_inv in H as (ep & w3 & _ & H).
  apply bind_Ok_inv in H as (js & w4 & _ & H).
  apply bind_Ok_inv in H as (layerData & w5 & _ & H).
  apply bind_Ok_inv in H as (ep' & w6 & _ & H).
  apply bind_Ok_inv in H as (layer & w7 & _ & H).
  apply bind_Ok_inv in H as (? & w8 & _ & H).
  apply bind_Ok_inv in H as (manifest & w9 & _ & H).
  apply bind_Ok_inv in H as (manifestBytes & w10 & _ & H).
  apply bind_Ok_inv in H as (f & w11 & _ & H).
  apply bind_Ok_inv in H as (? & w12 & _ & H).
  apply bind_Ok_inv in H as (aciPath & w13 & H13 & H).
  apply wrap_Ok_inv in H13.
  assert (aciPath = Join2 tmpDir (layerID +:+ ".aci")) as ->.
  { apply (BuildACI_value E layerID tmpDir (tmpDir +:+ "/layer")).
    by exists w12, w13. }
  apply BuildACI_Ok_inv in H13 as (m & entries & _ & Ha & _).
  apply bind_Ok_inv in H as (aciFile & w14 & H14 & H).
  apply wrap_Ok_inv in H14. unfold ReadFile in H14.
  destruct (fs_err E "Open" _); [done|]. rewrite Ha in H14.
  injection H14 as <- <-.
  apply bind_Ok_inv in H as (key & w15 & H15 & H). apply wrap_Ok_inv in H15.
  unfold WriteACI in H15.
  destruct (WriteACI_key E (store w13) _) as [k| |] eqn:Hk; try done.
  injection H15 as <- <-. injection H as <- <-.
  exists {| aci_manifest := m; aci_entries := entries |}. split.
  - rewrite RemoveAll_keeps by done. simpl.
    by rewrite store_files_outside.
  - simpl. by rewrite last_last.
Qed.

End Escape.

(** X10. [ImportLayer] builds the archive of the layer at
    [filepath.Join(tmpDir, layerID + ".aci")], and the layer identifier is
    what the registry sent.  When that path is not below the temporary
    directory (an identifier with [..] leads out of it), nor below the root
    of the store, a successful import leaves the archive there: the cleanup
    removes the temporary directory only.  The archive left is the image
    that was stored last under the returned identifier. *)
Theorem archive_outside_staging_is_left (E : Env) (layerID : string)
    (rd : RepoData) (url : DockerURL) (parent id tmpDir : string)
    (w w1 w' : World) :
  TempDir E "" "docker2aci-" w = (Ok tmpDir, w1) ->
  ImportLayer E layerID rd url parent w = (Ok id, w') ->
  under tmpDir (Join2 tmpDir (layerID +:+ ".aci")) = false ->
  under rocketDir (Join2 tmpDir (layerID +:+ ".aci")) = false ->
  exists a : ACI,
    fs w' !! Join2 tmpDir (layerID +:+ ".aci") = Some (NFile (ArchiveFile a))
    /\ List.last (store w') (id, a) = (id, a).
Proof. apply ImportLayer_leaves_archive. Qed.

Lemma archive_outside_staging_is_left_witness :
  let E := with_RoundTrip (fun _ _ => Ok (Sample.resp 200 ∅ "json1"))
             Sample.env in
  let layerID := "../../etc/cron.d/l1" in
  let run := ImportLayer E layerID Sample.repo (parseArgument "busybox") ""
               Sample.world in
  Join2 "/tmp/docker2aci-1" (layerID +:+ ".aci") = "/etc/cron.d/l1.aci"
  /\ fs Sample.world !! "/etc/cron.d/l1.aci" = None
  /\ exists a : ACI,
       fs (snd run) !! Join2 "/tmp/docker2aci-1" (layerID +:+ ".aci")
       = Some (NFile (ArchiveFile a))
       /\ List.last (store (snd run)) ("sha512-l1", a) = ("sha512-l1", a).
Proof.
  intros E layerID run.
  split; [vm_compute; reflexivity|]. split; [vm_compute; reflexivity|].
  assert (Ht : TempDir E "" "docker2aci-" Sample.world
               = (Ok "/tmp/docker2aci-1",
                  snd (TempDir E "" "docker2aci-" Sample.world)))
    by (vm_compute; reflexivity).
  assert (Hrun : run = (Ok "sha512-l1", snd run)) by (vm_compute; reflexivity).
  assert (Hout : under "/tmp/docker2aci-1"
                   (Join2 "/tmp/docker2aci-1" (layerID +:+ ".aci")) = false)
    by (vm_compute; reflexivity).
  assert (Hrkt : under rocketDir
                   (Join2 "/tmp/docker2aci-1" (layerID +:+ ".aci")) = false)
    by (vm_compute; reflexivity).
  exact (archive_outside_staging_is_left E layerID Sample.repo
           (parseArgument "busybox") "" "sha512-l1" "/tmp/docker2aci-1"
           Sample.world _ (snd run) Ht Hrun Hout Hrkt).
Defined.
